(** * MatchPulse: match simulation and fixture scheduling engine

    A shallow embedding of the simulation core of [main.go] (the first
    program of the source file: constants, data model, fixture scheduler,
    match lifecycle, event handlers, momentum and probability model, season
    manager and league tables), with the properties of the specification
    stated and settled against it.

    Conventions of the embedding.
    - Go [int] is [Z]; every counter of the program stays far below 2^63,
      so the wrap-around of the machine integer is never reached and is not
      written out.
    - Go [float64] is idealised as the rationals [Q]: sums, products,
      quotients, [math.Max], [math.Min] and [math.Abs] are exact.  Square
      roots only occur under comparisons and are modelled by comparing the
      squares.
    - [time.Time] is a number of nanoseconds ([Z]); [time.Now()] is an
      explicit argument [now].
    - A Go map is a [gmap]; a [range] over a map enumerates [map_to_list]
      (Go leaves the order unspecified).
    - A pointer into one of the global maps is the key it is stored under;
      a pointer to a fixture is the pair of its league and its index in
      that league's slice.
    - Every draw of [math/rand] is an explicit argument.
    - Logging has no effect on the state and is left out. *)

From Stdlib Require Import ZArith QArith Qminmax Qabs Lia Lqa.
From stdpp Require Import gmap strings list sorting pretty.

Local Open Scope Z_scope.

(** ** Constants *)

Inductive Status :=
  | StatusLive | StatusHalftime | StatusFinished
  | StatusPostponed | StatusCooldown | StatusBreak.

Global Instance Status_eq_dec : EqDecision Status.
Proof. solve_decision. Defined.

Definition LeaguePremier : string := "Premier League".
Definition LeagueCommunityLeague : string := "Community League".

Definition TeamsPerLeague : Z := 10.
Definition MatchesPerTeam : Z := 18.

Inductive Position :=
  | PosGK | PosCB | PosLB | PosRB | PosCDM | PosCM | PosCAM | PosLW | PosRW | PosST.

Global Instance Position_eq_dec : EqDecision Position.
Proof. solve_decision. Defined.

Inductive EventType :=
  | EventGoal | EventCard | EventSubstitution | EventCommentary | EventKickoff
  | EventFoul | EventCorner | EventOffside | EventThrowIn | EventPenalty
  | EventFreekick.

Inductive BallEvent :=
  | BallEventPlay | BallEventKickoff | BallEventFreekick | BallEventCorner
  | BallEventThrowIn | BallEventPenalty | BallEventGoalkick.

Definition FormWin : string := "W".
Definition FormLoss : string := "L".
Definition FormDraw : string := "D".

Definition MatchDurationSeconds : Z := 90.
Definition HalftimeBreakSeconds : Z := 15.
Definition PostMatchBreakSeconds : Z := 60.
Definition SeasonMatches : Z := 38.
Definition MaxSeasonHistory : Z := 10.
Definition FieldWidth : Q := 100.
Definition FieldHeight : Q := 64.
Definition MaxSimultaneousMatches : Z := 4.

(** One second of [time.Duration], in nanoseconds. *)
Definition Second : Z := 1000000000.

Definition PlayerAvailable : string := "available".
Definition PlayerRedCard : string := "red_card".
Definition PlayerInjured : string := "injured".
Definition PlayerSubstituted : string := "substituted".

(** ** Data model

    Fields that no modelled function reads or writes (logo, manager,
    player age, market value, characteristics and the like) are left out
    of the records. *)

Record MatchMomentum := mkMatchMomentum {
  HomeTeamMomentum : Q;
  AwayTeamMomentum : Q;
  LastGoalTime : Z;
  LastGoalTeam : Z;
  LastRedCardTime : Z;
  LastRedCardTeam : Z;
  ConsecutiveGoals : Z;
  mmLastUpdateTime : Z
}.

Record PlayerAvailability := mkPlayerAvailability {
  paPlayerID : Z;
  paStatus : string;
  paUnavailableFrom : Z;
  paReason : string
}.

Record DynamicMatchProbabilities := mkDynamicMatchProbabilities {
  dpMatchID : Z;
  HomeWinProbability : Q;
  DrawProbability : Q;
  AwayWinProbability : Q;
  NextGoalProbability : Q;
  HomeNextGoalProb : Q;
  AwayNextGoalProb : Q;
  dpLastUpdate : Z;
  Factors : gmap string Q
}.

Record TeamInfo := mkTeamInfo {
  tiID : Z;
  tiName : string;
  tiShortName : string;
  tiStadium : string;
  tiLeague : string;
  tiForm : list string;
  tiFormPoints : Z
}.

Record Match := mkMatch {
  mID : Z;
  mHomeTeam : TeamInfo;
  mAwayTeam : TeamInfo;
  mHomeScore : Z;
  mAwayScore : Z;
  mMinute : Z;
  mStatus : Status;
  mCompetition : string;
  mLastUpdate : Z;
  mVenue : string;
  mAttendance : Z;
  mWeather : string;
  mTemperature : Z;
  mHomeFormation : string;
  mAwayFormation : string;
  mSeason : Z;
  mMatchweekNum : Z;
  mStartTime : Z;
  mEndTime : option Z;
  mPlayerRatings : gmap Z Q;
  mInjuryTime : Z;
  mHalftimeEndTime : Z;
  mIsInBreak : bool
}.

Record PlayerSeasonStats := mkPlayerSeasonStats {
  MatchesPlayed : Z;
  MinutesPlayed : Z;
  GoalsThisSeason : Z;
  AssistsThisSeason : Z;
  YellowCardsThisSeason : Z;
  RedCardsThisSeason : Z;
  AverageRating : Q;
  TotalRating : Q
}.

Record Player := mkPlayer {
  pID : Z;
  pName : string;
  pPosition : Position;
  pTeamID : Z;
  pGoals : Z;
  pAssists : Z;
  pYellowCards : Z;
  pRedCards : Z;
  pAppearances : Z;
  pSeasonStats : PlayerSeasonStats;
  pCurrentRating : Q
}.

Record PlayerLocation := mkPlayerLocation {
  plPlayerID : Z;
  plX : Q;
  plY : Q;
  plTimestamp : Z
}.

Record BallPosition := mkBallPosition {
  bX : Q;
  bY : Q;
  bPossessorID : Z;
  bLastTouchID : Z;
  bSpeed : Q;
  bDirection : Q;
  bTimestamp : Z;
  bEventType : BallEvent;
  bEventStarted : Z
}.

Record MatchStats := mkMatchStats {
  msMatchID : Z;
  HomePossession : Z;
  AwayPossession : Z;
  HomeShots : Z;
  AwayShots : Z;
  HomeShotsOnTarget : Z;
  AwayShotsOnTarget : Z;
  HomeCorners : Z;
  AwayCorners : Z;
  HomeFouls : Z;
  AwayFouls : Z;
  HomeYellowCards : Z;
  AwayYellowCards : Z;
  HomeRedCards : Z;
  AwayRedCards : Z;
  HomePasses : Z;
  AwayPasses : Z;
  HomePassAccuracy : Q;
  AwayPassAccuracy : Q;
  msLastUpdate : Z
}.

Record LeagueTable := mkLeagueTable {
  ltPosition : Z;
  ltTeam : TeamInfo;
  ltPlayed : Z;
  ltWon : Z;
  ltDrawn : Z;
  ltLost : Z;
  ltGoalsFor : Z;
  ltGoalsAgainst : Z;
  ltGoalDiff : Z;
  ltPoints : Z;
  ltForm : list string;
  ltLastUpdate : Z
}.

(** The commentary text is built by [fmt.Sprintf] from names and scores;
    the entry keeps the event, the minute and the player it is about. *)
Record LiveCommentary := mkLiveCommentary {
  lcID : Z;
  lcMatchID : Z;
  lcMinute : Z;
  lcText : string;
  lcEventType : EventType;
  lcPlayer : option Z;
  lcTimestamp : Z
}.

Record SeasonHistory := mkSeasonHistory {
  shSeason : Z;
  shTopScorer : Player;
  shTopAssists : Player;
  shMostFouls : Player;
  shPlayerOfSeason : Player;
  shChampion : TeamInfo;
  shTotalGoals : Z;
  shTotalMatches : Z;
  shEndDate : Z
}.

(** [HomeTeam] and [AwayTeam] are [*TeamInfo]: pointers to the entries of
    the [teams] map, that is, the keys of that map. *)
Record SeasonSchedule := mkSeasonSchedule {
  ssMatchday : Z;
  ssLeague : string;
  ssHomeTeam : Z;
  ssAwayTeam : Z;
  ssIsPlayed : bool;
  ssMatchID : Z;
  ssScheduledAt : Z
}.

Record RoundMatch := mkRoundMatch {
  rmHome : Z;
  rmAway : Z
}.

Record LeagueConfig := mkLeagueConfig {
  lgName : string;
  lgTeamCount : Z;
  lgMatchdays : Z;
  lgStartTeamID : Z;
  lgEndTeamID : Z
}.

Definition leagueConfigs : gmap string LeagueConfig :=
  <[LeaguePremier := mkLeagueConfig LeaguePremier TeamsPerLeague MatchesPerTeam 1 10]>
  (<[LeagueCommunityLeague :=
       mkLeagueConfig LeagueCommunityLeague TeamsPerLeague MatchesPerTeam 11 20]> ∅).

(** The global variables of the program. *)
Record State := mkState {
  matches : gmap Z Match;
  finishedMatches : gmap Z Match;
  matchStats : gmap Z MatchStats;
  players : gmap Z Player;
  teams : gmap Z TeamInfo;
  leagueTables : gmap string (list LeagueTable);
  liveCommentary : gmap Z (list LiveCommentary);
  playerLocations : gmap Z (gmap Z PlayerLocation);
  seasonHistory : list SeasonHistory;
  seasonSchedules : gmap string (list SeasonSchedule);
  currentSeason : Z;
  currentMatchweek : Z;
  commentaryCounter : Z;
  matchCounter : Z;
  matchMomentum : gmap Z MatchMomentum;
  playerAvailability : gmap Z (gmap Z PlayerAvailability);
  dynamicProbabilities : gmap Z DynamicMatchProbabilities;
  ballPositions : gmap Z BallPosition
}.

(** Assignments to one global variable. *)
Definition set_matches (v : gmap Z Match) (s : State) : State :=
  mkState v (finishedMatches s) (matchStats s) (players s) (teams s) (leagueTables s)
    (liveCommentary s) (playerLocations s) (seasonHistory s) (seasonSchedules s)
    (currentSeason s) (currentMatchweek s) (commentaryCounter s) (matchCounter s)
    (matchMomentum s) (playerAvailability s) (dynamicProbabilities s) (ballPositions s).

Definition set_finishedMatches (v : gmap Z Match) (s : State) : State :=
  mkState (matches s) v (matchStats s) (players s) (teams s) (leagueTables s)
    (liveCommentary s) (playerLocations s) (seasonHistory s) (seasonSchedules s)
    (currentSeason s) (currentMatchweek s) (commentaryCounter s) (matchCounter s)
    (matchMomentum s) (playerAvailability s) (dynamicProbabilities s) (ballPositions s).

Definition set_matchStats (v : gmap Z MatchStats) (s : State) : State :=
  mkState (matches s) (finishedMatches s) v (players s) (teams s) (leagueTables s)
    (liveCommentary s) (playerLocations s) (seasonHistory s) (seasonSchedules s)
    (currentSeason s) (currentMatchweek s) (commentaryCounter s) (matchCounter s)
    (matchMomentum s) (playerAvailability s) (dynamicProbabilities s) (ballPositions s).

Definition set_players (v : gmap Z Player) (s : State) : State :=
  mkState (matches s) (finishedMatches s) (matchStats s) v (teams s) (leagueTables s)
    (liveCommentary s) (playerLocations s) (seasonHistory s) (seasonSchedules s)
    (currentSeason s) (currentMatchweek s) (commentaryCounter s) (matchCounter s)
    (matchMomentum s) (playerAvailability s) (dynamicProbabilities s) (ballPositions s).

Definition set_teams (v : gmap Z TeamInfo) (s : State) : State :=
  mkState (matches s) (finishedMatches s) (matchStats s) (players s) v (leagueTables s)
    (liveCommentary s) (playerLocations s) (seasonHistory s) (seasonSchedules s)
    (currentSeason s) (currentMatchweek s) (commentaryCounter s) (matchCounter s)
    (matchMomentum s) (playerAvailability s) (dynamicProbabilities s) (ballPositions s).

Definition set_leagueTables (v : gmap string (list LeagueTable)) (s : State) : State :=
  mkState (matches s) (finishedMatches s) (matchStats s) (players s) (teams s) v
    (liveCommentary s) (playerLocations s) (seasonHistory s) (seasonSchedules s)
    (currentSeason s) (currentMatchweek s) (commentaryCounter s) (matchCounter s)
    (matchMomentum s) (playerAvailability s) (dynamicProbabilities s) (ballPositions s).

Definition set_commentary (v : gmap Z (list LiveCommentary)) (c : Z) (s : State) : State :=
  mkState (matches s) (finishedMatches s) (matchStats s) (players s) (teams s)
    (leagueTables s) v (playerLocations s) (seasonHistory s) (seasonSchedules s)
    (currentSeason s) (currentMatchweek s) c (matchCounter s)
    (matchMomentum s) (playerAvailability s) (dynamicProbabilities s) (ballPositions s).

Definition set_playerLocations (v : gmap Z (gmap Z PlayerLocation)) (s : State) : State :=
  mkState (matches s) (finishedMatches s) (matchStats s) (players s) (teams s)
    (leagueTables s) (liveCommentary s) v (seasonHistory s) (seasonSchedules s)
    (currentSeason s) (currentMatchweek s) (commentaryCounter s) (matchCounter s)
    (matchMomentum s) (playerAvailability s) (dynamicProbabilities s) (ballPositions s).

Definition set_seasonHistory (v : list SeasonHistory) (s : State) : State :=
  mkState (matches s) (finishedMatches s) (matchStats s) (players s) (teams s)
    (leagueTables s) (liveCommentary s) (playerLocations s) v (seasonSchedules s)
    (currentSeason s) (currentMatchweek s) (commentaryCounter s) (matchCounter s)
    (matchMomentum s) (playerAvailability s) (dynamicProbabilities s) (ballPositions s).

Definition set_seasonSchedules (v : gmap string (list SeasonSchedule)) (s : State) : State :=
  mkState (matches s) (finishedMatches s) (matchStats s) (players s) (teams s)
    (leagueTables s) (liveCommentary s) (playerLocations s) (seasonHistory s) v
    (currentSeason s) (currentMatchweek s) (commentaryCounter s) (matchCounter s)
    (matchMomentum s) (playerAvailability s) (dynamicProbabilities s) (ballPositions s).

Definition set_season (season week : Z) (s : State) : State :=
  mkState (matches s) (finishedMatches s) (matchStats s) (players s) (teams s)
    (leagueTables s) (liveCommentary s) (playerLocations s) (seasonHistory s)
    (seasonSchedules s) season week (commentaryCounter s) (matchCounter s)
    (matchMomentum s) (playerAvailability s) (dynamicProbabilities s) (ballPositions s).

Definition set_matchCounter (v : Z) (s : State) : State :=
  mkState (matches s) (finishedMatches s) (matchStats s) (players s) (teams s)
    (leagueTables s) (liveCommentary s) (playerLocations s) (seasonHistory s)
    (seasonSchedules s) (currentSeason s) (currentMatchweek s) (commentaryCounter s) v
    (matchMomentum s) (playerAvailability s) (dynamicProbabilities s) (ballPositions s).

Definition set_matchMomentum (v : gmap Z MatchMomentum) (s : State) : State :=
  mkState (matches s) (finishedMatches s) (matchStats s) (players s) (teams s)
    (leagueTables s) (liveCommentary s) (playerLocations s) (seasonHistory s)
    (seasonSchedules s) (currentSeason s) (currentMatchweek s) (commentaryCounter s)
    (matchCounter s) v (playerAvailability s) (dynamicProbabilities s) (ballPositions s).

Definition set_playerAvailability (v : gmap Z (gmap Z PlayerAvailability)) (s : State)
    : State :=
  mkState (matches s) (finishedMatches s) (matchStats s) (players s) (teams s)
    (leagueTables s) (liveCommentary s) (playerLocations s) (seasonHistory s)
    (seasonSchedules s) (currentSeason s) (currentMatchweek s) (commentaryCounter s)
    (matchCounter s) (matchMomentum s) v (dynamicProbabilities s) (ballPositions s).

Definition set_dynamicProbabilities (v : gmap Z DynamicMatchProbabilities) (s : State)
    : State :=
  mkState (matches s) (finishedMatches s) (matchStats s) (players s) (teams s)
    (leagueTables s) (liveCommentary s) (playerLocations s) (seasonHistory s)
    (seasonSchedules s) (currentSeason s) (currentMatchweek s) (commentaryCounter s)
    (matchCounter s) (matchMomentum s) (playerAvailability s) v (ballPositions s).

Definition set_ballPositions (v : gmap Z BallPosition) (s : State) : State :=
  mkState (matches s) (finishedMatches s) (matchStats s) (players s) (teams s)
    (leagueTables s) (liveCommentary s) (playerLocations s) (seasonHistory s)
    (seasonSchedules s) (currentSeason s) (currentMatchweek s) (commentaryCounter s)
    (matchCounter s) (matchMomentum s) (playerAvailability s) (dynamicProbabilities s) v.

(** ** Momentum and probability model *)

Definition Qltb (x y : Q) : bool := negb (Qle_bool y x).

(** [math.Max(lo, math.Min(hi, x))]. *)
Definition clamp (lo hi x : Q) : Q := Qmax lo (Qmin hi x).

(** [calculateTeamStrength]: 0.4 plus up to 0.3 from the form points. *)
Definition calculateTeamStrength (team : TeamInfo) : Q :=
  let baseStrength := 0.4%Q in
  let formStrength := (inject_Z (tiFormPoints team) / 15 * 0.3)%Q in
  let strength := (baseStrength + formStrength)%Q in
  if Qltb strength 0.4 then 0.4%Q
  else if Qltb 0.7 strength then 0.7%Q
  else strength.

(** [calculateAttackStrength] has the same body. *)
Definition calculateAttackStrength (team : TeamInfo) : Q :=
  let baseStrength := 0.4%Q in
  let formStrength := (inject_Z (tiFormPoints team) / 15 * 0.3)%Q in
  let strength := (baseStrength + formStrength)%Q in
  if Qltb strength 0.4 then 0.4%Q
  else if Qltb 0.7 strength then 0.7%Q
  else strength.

(** [calculateMatchProbabilities]: the pre-match baseline
    [(homeWin, draw, awayWin)]. *)
Definition calculateMatchProbabilities (homeTeam awayTeam : TeamInfo) : Q * Q * Q :=
  let homeStrength := calculateTeamStrength homeTeam in
  let awayStrength := calculateTeamStrength awayTeam in
  let homeStrength := (homeStrength * 1.1)%Q in
  let totalStrength := (homeStrength + awayStrength)%Q in
  let homeWin := (homeStrength / totalStrength)%Q in
  let awayWin := (awayStrength / totalStrength)%Q in
  let draw := (0.3 * (1 - Qabs (homeWin - awayWin)))%Q in
  let total := (homeWin + draw + awayWin)%Q in
  ((homeWin / total)%Q, (draw / total)%Q, (awayWin / total)%Q).

(** The change [updateMatchMomentum] makes to the pair
    [(HomeTeamMomentum, AwayTeamMomentum)] before clamping. *)
Definition momentumSwitch (eventType : string) (isHomeTeam : bool) (home away : Q) : Q * Q :=
  if String.eqb eventType "goal" then
    if isHomeTeam then ((home + 0.3)%Q, (away - 0.2)%Q)
    else ((home - 0.2)%Q, (away + 0.3)%Q)
  else if String.eqb eventType "red_card" then
    if isHomeTeam then ((home - 0.4)%Q, (away + 0.2)%Q)
    else ((home + 0.2)%Q, (away - 0.4)%Q)
  else if String.eqb eventType "corner" then
    let adjustment := 0.1%Q in
    if isHomeTeam then ((home + adjustment)%Q, away) else (home, (away + adjustment)%Q)
  else if String.eqb eventType "foul" then
    let adjustment := 0.05%Q in
    if isHomeTeam then ((home - adjustment)%Q, away) else (home, (away - adjustment)%Q)
  else (home, away).

(** The bookkeeping fields the [switch] writes next to the scalars. *)
Definition momentumBookkeeping (eventType : string) (minute affectedTeamID : Z)
    (mo : MatchMomentum) : MatchMomentum :=
  if String.eqb eventType "goal" then
    mkMatchMomentum (HomeTeamMomentum mo) (AwayTeamMomentum mo) minute affectedTeamID
      (LastRedCardTime mo) (LastRedCardTeam mo) (ConsecutiveGoals mo + 1)
      (mmLastUpdateTime mo)
  else if String.eqb eventType "red_card" then
    mkMatchMomentum (HomeTeamMomentum mo) (AwayTeamMomentum mo) (LastGoalTime mo)
      (LastGoalTeam mo) minute affectedTeamID (ConsecutiveGoals mo) (mmLastUpdateTime mo)
  else mo.

(** The entry [updateMatchMomentum] leaves in [matchMomentum[matchID]],
    from the entry it finds there ([None]: a fresh one is made first). *)
Definition updatedMomentum (now : Z) (old : option MatchMomentum) (m : Match)
    (eventType : string) (affectedTeamID : Z) : MatchMomentum :=
  let momentum := default (mkMatchMomentum 0 0 0 0 0 0 0 now) old in
  let isHomeTeam := affectedTeamID =? tiID (mHomeTeam m) in
  let '(h, a) := momentumSwitch eventType isHomeTeam
                   (HomeTeamMomentum momentum) (AwayTeamMomentum momentum) in
  let momentum := momentumBookkeeping eventType (mMinute m) affectedTeamID momentum in
  mkMatchMomentum (clamp (-1) 1 h) (clamp (-1) 1 a)
    (LastGoalTime momentum) (LastGoalTeam momentum)
    (LastRedCardTime momentum) (LastRedCardTeam momentum)
    (ConsecutiveGoals momentum) now.

Definition updateMatchMomentum (now : Z) (matchID : Z) (m : Match) (eventType : string)
    (affectedTeamID : Z) (s : State) : State :=
  set_matchMomentum
    (<[matchID := updatedMomentum now (matchMomentum s !! matchID) m eventType
                    affectedTeamID]> (matchMomentum s)) s.

(** [getRedCardCount]: entries of the match with status red card whose
    player belongs to the team. *)
Definition getRedCardCount (s : State) (matchID teamID : Z) : Z :=
  match playerAvailability s !! matchID with
  | None => 0
  | Some avail =>
      Z.of_nat (length (List.filter
        (fun '(playerID, availability) =>
           String.eqb (paStatus availability) PlayerRedCard &&
           match players s !! playerID with
           | Some player => pTeamID player =? teamID
           | None => false
           end)
        (map_to_list avail)))
  end.

Definition calculateNextGoalProbability (s : State) (m : Match) (isHome : bool)
    (momentum : option MatchMomentum) : Q :=
  let baseProb := 0.02%Q in
  let team := if isHome then mHomeTeam m else mAwayTeam m in
  let attackStrength := calculateAttackStrength team in
  let baseProb := (baseProb * (attackStrength * 2.0))%Q in
  let baseProb :=
    match momentum with
    | Some mo =>
        if isHome then (baseProb * (1.0 + HomeTeamMomentum mo * 0.5))%Q
        else (baseProb * (1.0 + AwayTeamMomentum mo * 0.5))%Q
    | None => baseProb
    end in
  let playerCount := 11 - getRedCardCount s (mID m) (tiID team) in
  let baseProb :=
    if playerCount <? 11 then (baseProb * (inject_Z playerCount / 11.0))%Q else baseProb in
  Qmax 0.001 (Qmin 0.1 baseProb).

(** The three win probabilities of [recalculateMatchProbabilities], after
    the normalisation. *)
Definition adjustedProbabilities (s : State) (matchID : Z) (m : Match) : Q * Q * Q :=
  let momentum := matchMomentum s !! matchID in
  let '(baseHomeWin, _, baseAwayWin) :=
    calculateMatchProbabilities (mHomeTeam m) (mAwayTeam m) in
  let scoreDiff := mHomeScore m - mAwayScore m in
  let scoreAdjustment := (inject_Z scoreDiff * 0.1)%Q in
  let homePlayerCount := 11 - getRedCardCount s matchID (tiID (mHomeTeam m)) in
  let awayPlayerCount := 11 - getRedCardCount s matchID (tiID (mAwayTeam m)) in
  let playerDiff := (inject_Z (homePlayerCount - awayPlayerCount) * 0.15)%Q in
  let momentumAdjustment :=
    match momentum with
    | Some mo => ((HomeTeamMomentum mo - AwayTeamMomentum mo) * 0.2)%Q
    | None => 0%Q
    end in
  let timeRemaining := 90 - mMinute m in
  let timeMultiplier :=
    if timeRemaining <? 15 then (0.5 + inject_Z timeRemaining / 30.0)%Q else 1.0%Q in
  let totalAdjustment :=
    ((scoreAdjustment + playerDiff + momentumAdjustment) * timeMultiplier)%Q in
  let homeWin := Qmax 0.05 (Qmin 0.9 (baseHomeWin + totalAdjustment)) in
  let awayWin := Qmax 0.05 (Qmin 0.9 (baseAwayWin - totalAdjustment)) in
  let draw := Qmax 0.05 (1.0 - homeWin - awayWin) in
  let total := (homeWin + draw + awayWin)%Q in
  ((homeWin / total)%Q, (draw / total)%Q, (awayWin / total)%Q).

(** The four entries written to [Factors]. *)
Definition probabilityFactors (s : State) (matchID : Z) (m : Match)
    (old : gmap string Q) : gmap string Q :=
  let scoreAdjustment := (inject_Z (mHomeScore m - mAwayScore m) * 0.1)%Q in
  let homePlayerCount := 11 - getRedCardCount s matchID (tiID (mHomeTeam m)) in
  let awayPlayerCount := 11 - getRedCardCount s matchID (tiID (mAwayTeam m)) in
  let playerDiff := (inject_Z (homePlayerCount - awayPlayerCount) * 0.15)%Q in
  let momentumAdjustment :=
    match matchMomentum s !! matchID with
    | Some mo => ((HomeTeamMomentum mo - AwayTeamMomentum mo) * 0.2)%Q
    | None => 0%Q
    end in
  let timeRemaining := 90 - mMinute m in
  let timeMultiplier :=
    if timeRemaining <? 15 then (0.5 + inject_Z timeRemaining / 30.0)%Q else 1.0%Q in
  <["time_multiplier" := timeMultiplier]>
  (<["momentum" := momentumAdjustment]>
  (<["player_diff" := playerDiff]>
  (<["score_diff" := scoreAdjustment]> old))).

Definition recalculatedProbabilities (now : Z) (s : State) (matchID : Z) (m : Match)
    : DynamicMatchProbabilities :=
  let probs := default (mkDynamicMatchProbabilities matchID 0 0 0 0 0 0 0 ∅)
                 (dynamicProbabilities s !! matchID) in
  let momentum := matchMomentum s !! matchID in
  let '(homeWin, draw, awayWin) := adjustedProbabilities s matchID m in
  let homeNext := calculateNextGoalProbability s m true momentum in
  let awayNext := calculateNextGoalProbability s m false momentum in
  mkDynamicMatchProbabilities (dpMatchID probs) homeWin draw awayWin
    (homeNext + awayNext)%Q homeNext awayNext now
    (probabilityFactors s matchID m (Factors probs)).

Definition recalculateMatchProbabilities (now : Z) (matchID : Z) (m : Match) (s : State)
    : State :=
  set_dynamicProbabilities
    (<[matchID := recalculatedProbabilities now s matchID m]> (dynamicProbabilities s)) s.

(** ** Commentary, availability, ball events *)

(** [addLiveCommentary]: newest entry first, at most 30 kept. *)
Definition addLiveCommentary (now : Z) (matchID minute : Z) (text : string)
    (eventType : EventType) (player : option Z) (s : State) : State :=
  let counter := commentaryCounter s + 1 in
  let commentary := mkLiveCommentary counter matchID minute text eventType player now in
  let old := default [] (liveCommentary s !! matchID) in
  set_commentary (<[matchID := take 30 (commentary :: old)]> (liveCommentary s)) counter s.

Definition isPlayerAvailable (s : State) (matchID playerID : Z) : bool :=
  match playerAvailability s !! matchID with
  | None => true
  | Some avail =>
      match avail !! playerID with
      | None => true
      | Some availability => String.eqb (paStatus availability) PlayerAvailable
      end
  end.

Definition setPlayerUnavailable (matchID playerID : Z) (status : string) (minute : Z)
    (reason : string) (s : State) : State :=
  let avail := default ∅ (playerAvailability s !! matchID) in
  set_playerAvailability
    (<[matchID := <[playerID := mkPlayerAvailability playerID status minute reason]> avail]>
       (playerAvailability s)) s.

(** [getPlayersFromTeam]: the pointers (keys) of the team's players, each
    with the record it points to. *)
Definition getPlayersFromTeam (s : State) (teamID : Z) : list (Z * Player) :=
  List.filter (fun '(_, player) => pTeamID player =? teamID) (map_to_list (players s)).

Definition getAvailablePlayersForMatch (s : State) (matchID : Z) : list (Z * Player) :=
  match matches s !! matchID with
  | None => []
  | Some m =>
      let homePlayers := getPlayersFromTeam s (tiID (mHomeTeam m)) in
      let awayPlayers := getPlayersFromTeam s (tiID (mAwayTeam m)) in
      let allPlayers := homePlayers ++ awayPlayers in
      List.filter (fun '(_, player) => isPlayerAvailable s matchID (pID player)) allPlayers
  end.

(** The [unavailable_players] list of [getMatchAvailability]: player,
    status, minute and reason of every entry that is not available. *)
Definition unavailablePlayers (s : State) (matchID : Z)
    : list (Player * string * Z * string) :=
  let availability := default ∅ (playerAvailability s !! matchID) in
  omap (fun '(_, avail) =>
          if negb (String.eqb (paStatus avail) PlayerAvailable) then
            match players s !! paPlayerID avail with
            | Some player =>
                Some (player, paStatus avail, paUnavailableFrom avail, paReason avail)
            | None => None
            end
          else None)
       (map_to_list availability).

(** [matchStats[matchID].f++]: dereferences the entry, a run-time panic
    ([None]) when the match has none. *)
Definition updateStats (matchID : Z) (f : MatchStats -> MatchStats) (s : State)
    : option State :=
  match matchStats s !! matchID with
  | None => None
  | Some stats => Some (set_matchStats (<[matchID := f stats]> (matchStats s)) s)
  end.

Definition incHomeCorners (t : MatchStats) : MatchStats :=
  mkMatchStats (msMatchID t) (HomePossession t) (AwayPossession t) (HomeShots t)
    (AwayShots t) (HomeShotsOnTarget t) (AwayShotsOnTarget t) (HomeCorners t + 1)
    (AwayCorners t) (HomeFouls t) (AwayFouls t) (HomeYellowCards t) (AwayYellowCards t)
    (HomeRedCards t) (AwayRedCards t) (HomePasses t) (AwayPasses t)
    (HomePassAccuracy t) (AwayPassAccuracy t) (msLastUpdate t).

Definition incAwayCorners (t : MatchStats) : MatchStats :=
  mkMatchStats (msMatchID t) (HomePossession t) (AwayPossession t) (HomeShots t)
    (AwayShots t) (HomeShotsOnTarget t) (AwayShotsOnTarget t) (HomeCorners t)
    (AwayCorners t + 1) (HomeFouls t) (AwayFouls t) (HomeYellowCards t) (AwayYellowCards t)
    (HomeRedCards t) (AwayRedCards t) (HomePasses t) (AwayPasses t)
    (HomePassAccuracy t) (AwayPassAccuracy t) (msLastUpdate t).

Definition incHomeFouls (t : MatchStats) : MatchStats :=
  mkMatchStats (msMatchID t) (HomePossession t) (AwayPossession t) (HomeShots t)
    (AwayShots t) (HomeShotsOnTarget t) (AwayShotsOnTarget t) (HomeCorners t)
    (AwayCorners t) (HomeFouls t + 1) (AwayFouls t) (HomeYellowCards t) (AwayYellowCards t)
    (HomeRedCards t) (AwayRedCards t) (HomePasses t) (AwayPasses t)
    (HomePassAccuracy t) (AwayPassAccuracy t) (msLastUpdate t).

Definition incAwayFouls (t : MatchStats) : MatchStats :=
  mkMatchStats (msMatchID t) (HomePossession t) (AwayPossession t) (HomeShots t)
    (AwayShots t) (HomeShotsOnTarget t) (AwayShotsOnTarget t) (HomeCorners t)
    (AwayCorners t) (HomeFouls t) (AwayFouls t + 1) (HomeYellowCards t) (AwayYellowCards t)
    (HomeRedCards t) (AwayRedCards t) (HomePasses t) (AwayPasses t)
    (HomePassAccuracy t) (AwayPassAccuracy t) (msLastUpdate t).

Definition incHomeYellowCards (t : MatchStats) : MatchStats :=
  mkMatchStats (msMatchID t) (HomePossession t) (AwayPossession t) (HomeShots t)
    (AwayShots t) (HomeShotsOnTarget t) (AwayShotsOnTarget t) (HomeCorners t)
    (AwayCorners t) (HomeFouls t) (AwayFouls t) (HomeYellowCards t + 1) (AwayYellowCards t)
    (HomeRedCards t) (AwayRedCards t) (HomePasses t) (AwayPasses t)
    (HomePassAccuracy t) (AwayPassAccuracy t) (msLastUpdate t).

Definition incAwayYellowCards (t : MatchStats) : MatchStats :=
  mkMatchStats (msMatchID t) (HomePossession t) (AwayPossession t) (HomeShots t)
    (AwayShots t) (HomeShotsOnTarget t) (AwayShotsOnTarget t) (HomeCorners t)
    (AwayCorners t) (HomeFouls t) (AwayFouls t) (HomeYellowCards t) (AwayYellowCards t + 1)
    (HomeRedCards t) (AwayRedCards t) (HomePasses t) (AwayPasses t)
    (HomePassAccuracy t) (AwayPassAccuracy t) (msLastUpdate t).

Definition incHomeRedCards (t : MatchStats) : MatchStats :=
  mkMatchStats (msMatchID t) (HomePossession t) (AwayPossession t) (HomeShots t)
    (AwayShots t) (HomeShotsOnTarget t) (AwayShotsOnTarget t) (HomeCorners t)
    (AwayCorners t) (HomeFouls t) (AwayFouls t) (HomeYellowCards t) (AwayYellowCards t)
    (HomeRedCards t + 1) (AwayRedCards t) (HomePasses t) (AwayPasses t)
    (HomePassAccuracy t) (AwayPassAccuracy t) (msLastUpdate t).

Definition incAwayRedCards (t : MatchStats) : MatchStats :=
  mkMatchStats (msMatchID t) (HomePossession t) (AwayPossession t) (HomeShots t)
    (AwayShots t) (HomeShotsOnTarget t) (AwayShotsOnTarget t) (HomeCorners t)
    (AwayCorners t) (HomeFouls t) (AwayFouls t) (HomeYellowCards t) (AwayYellowCards t)
    (HomeRedCards t) (AwayRedCards t + 1) (HomePasses t) (AwayPasses t)
    (HomePassAccuracy t) (AwayPassAccuracy t) (msLastUpdate t).

(** Writes through a [*Player]. *)
Definition withSeasonStats (f : PlayerSeasonStats -> PlayerSeasonStats) (p : Player)
    : Player :=
  mkPlayer (pID p) (pName p) (pPosition p) (pTeamID p) (pGoals p) (pAssists p)
    (pYellowCards p) (pRedCards p) (pAppearances p) (f (pSeasonStats p))
    (pCurrentRating p).

Definition creditGoal (p : Player) : Player :=
  let t := pSeasonStats p in
  mkPlayer (pID p) (pName p) (pPosition p) (pTeamID p) (pGoals p + 1) (pAssists p)
    (pYellowCards p) (pRedCards p) (pAppearances p)
    (mkPlayerSeasonStats (MatchesPlayed t) (MinutesPlayed t) (GoalsThisSeason t + 1)
       (AssistsThisSeason t) (YellowCardsThisSeason t) (RedCardsThisSeason t)
       (AverageRating t) (TotalRating t))
    (pCurrentRating p + 2.0)%Q.

Definition creditAssist (p : Player) : Player :=
  let t := pSeasonStats p in
  mkPlayer (pID p) (pName p) (pPosition p) (pTeamID p) (pGoals p) (pAssists p + 1)
    (pYellowCards p) (pRedCards p) (pAppearances p)
    (mkPlayerSeasonStats (MatchesPlayed t) (MinutesPlayed t) (GoalsThisSeason t)
       (AssistsThisSeason t + 1) (YellowCardsThisSeason t) (RedCardsThisSeason t)
       (AverageRating t) (TotalRating t))
    (pCurrentRating p + 1.0)%Q.

Definition bookYellow (penalty : Q) (p : Player) : Player :=
  let t := pSeasonStats p in
  mkPlayer (pID p) (pName p) (pPosition p) (pTeamID p) (pGoals p) (pAssists p)
    (pYellowCards p + 1) (pRedCards p) (pAppearances p)
    (mkPlayerSeasonStats (MatchesPlayed t) (MinutesPlayed t) (GoalsThisSeason t)
       (AssistsThisSeason t) (YellowCardsThisSeason t + 1) (RedCardsThisSeason t)
       (AverageRating t) (TotalRating t))
    (pCurrentRating p - penalty)%Q.

Definition bookRed (penalty : Q) (p : Player) : Player :=
  let t := pSeasonStats p in
  mkPlayer (pID p) (pName p) (pPosition p) (pTeamID p) (pGoals p) (pAssists p)
    (pYellowCards p) (pRedCards p + 1) (pAppearances p)
    (mkPlayerSeasonStats (MatchesPlayed t) (MinutesPlayed t) (GoalsThisSeason t)
       (AssistsThisSeason t) (YellowCardsThisSeason t) (RedCardsThisSeason t + 1)
       (AverageRating t) (TotalRating t))
    (pCurrentRating p - penalty)%Q.

(** Writes through a [*Match]. *)
Definition withScore (home away : Z) (m : Match) : Match :=
  mkMatch (mID m) (mHomeTeam m) (mAwayTeam m) home away (mMinute m) (mStatus m)
    (mCompetition m) (mLastUpdate m) (mVenue m) (mAttendance m) (mWeather m)
    (mTemperature m) (mHomeFormation m) (mAwayFormation m) (mSeason m) (mMatchweekNum m)
    (mStartTime m) (mEndTime m) (mPlayerRatings m) (mInjuryTime m) (mHalftimeEndTime m)
    (mIsInBreak m).

(** ** Event handlers *)

Section Engine.

(** The positioning engine ([repositionPlayersForEvent] and the functions
    under it) only assigns entries of [playerLocations]; the table it
    leaves is a parameter of the model.  Its coordinates come from the
    formation templates, which no property below depends on.  The
    functions under it slice the first eleven players of each squad
    ([getPlayersFromTeam(id)[:11]]) and stop the program on a shorter
    squad; the parameter is total, so that the model follows the source on
    states where both teams of the match have eleven players or more, as
    every state of the program has ([initializeSimulation] stores 19
    players a team and nothing removes a player). *)
Variable repositionPlayersForEvent :
  Z -> BallEvent -> Q -> Q -> State -> gmap Z (gmap Z PlayerLocation).

(** [sort.Slice] of the Go library, which sorts a slice in place by the
    order [less]. *)
Variable sortSlice : forall A : Type, (A -> A -> bool) -> list A -> list A.

(** What is used of it: the sorted slice holds the elements of the
    slice. *)
Hypothesis sortSlice_perm :
  forall (A : Type) (less : A -> A -> bool) (l : list A), sortSlice A less l ≡ₚ l.

Definition setBallEvent (now : Z) (matchID : Z) (eventType : BallEvent) (x y : Q)
    (possessorID : Z) (s : State) : State :=
  match ballPositions s !! matchID with
  | None => s
  | Some ball =>
      let ball' := mkBallPosition x y possessorID (bLastTouchID ball) 0 (bDirection ball)
                     now eventType now in
      let s := set_ballPositions (<[matchID := ball']> (ballPositions s)) s in
      set_playerLocations (repositionPlayersForEvent matchID eventType x y s) s
  end.

(** [getHomeTeamID]: the home team of the first match the range yields. *)
Definition getHomeTeamID (s : State) : Z :=
  match map_to_list (matches s) with
  | (_, m) :: _ => tiID (mHomeTeam m)
  | [] => 1
  end.

Definition sq (x : Q) : Q := (x * x)%Q.

Definition getGoalProbability (s : State) (player : Player) (ball : BallPosition) : Q :=
  let baseProbability := 0.25%Q in
  let goalX := if Qltb (bX ball) (FieldWidth / 2) then 0%Q else FieldWidth in
  let goalY := (FieldHeight / 2)%Q in
  (* the square of distanceToGoal *)
  let distanceToGoal2 := (sq (bX ball - goalX) + sq (bY ball - goalY))%Q in
  let positionMultiplier :=
    match pPosition player with
    | PosST => 1.8%Q
    | PosCAM | PosLW | PosRW => 1.4%Q
    | PosCM => 1.0%Q
    | PosCDM => 0.7%Q
    | PosLB | PosRB => 0.5%Q
    | PosCB => 0.4%Q
    | PosGK => 0.02%Q
    end in
  let locationMultiplier :=
    if Qltb distanceToGoal2 (sq 8) then 2.5%Q
    else if Qltb distanceToGoal2 (sq 15) then 1.8%Q
    else if Qltb distanceToGoal2 (sq 25) then 1.2%Q
    else if Qltb (sq 40) distanceToGoal2 then 0.3%Q
    else 1.0%Q in
  let angleToCenterGoal := Qabs (bY ball - goalY) in
  let locationMultiplier :=
    if Qltb angleToCenterGoal 5 then (locationMultiplier * 1.3)%Q
    else if Qltb 15 angleToCenterGoal then (locationMultiplier * 0.7)%Q
    else locationMultiplier in
  let isInAttackingPosition :=
    if (pTeamID player =? getHomeTeamID s) && Qltb (FieldWidth * 0.6) (bX ball) then true
    else if negb (pTeamID player =? getHomeTeamID s) && Qltb (bX ball) (FieldWidth * 0.4)
    then true
    else false in
  let locationMultiplier :=
    if isInAttackingPosition &&
       match pPosition player with
       | PosCM | PosCDM | PosLB | PosRB => true
       | _ => false
       end
    then (locationMultiplier * 1.5)%Q
    else locationMultiplier in
  let finalProbability := (baseProbability * positionMultiplier * locationMultiplier)%Q in
  Qmin 0.9 (Qmax 0.01 finalProbability).

(** One step of the range of [findNearestAttackingPlayer]: [best] is the
    square of [minDistance] ([None] for +Inf) and [nearestPlayer]. *)
Definition nearerAttacker (s : State) (ball : BallPosition) (attackingTeamID : Z)
    (best : option Q * option Z) (entry : Z * PlayerLocation) : option Q * option Z :=
  let '(playerID, location) := entry in
  match players s !! playerID with
  | Some player =>
      if (pTeamID player =? attackingTeamID) &&
         match pPosition player with
         | PosST | PosCAM | PosLW | PosRW => true
         | _ => false
         end
      then
        let distance2 := (sq (plX location - bX ball) + sq (plY location - bY ball))%Q in
        if match best.1 with Some min2 => Qltb distance2 min2 | None => true end &&
           Qltb distance2 (sq 15)
        then (Some distance2, Some playerID)
        else best
      else best
  | None => best
  end.

Definition findNearestAttackingPlayer (s : State) (matchID : Z) (ball : BallPosition)
    : option Z :=
  match matches s !! matchID with
  | None => None
  | Some m =>
      let attackingTeamID :=
        if Qltb 50 (bX ball) then tiID (mHomeTeam m) else tiID (mAwayTeam m) in
      match playerLocations s !! matchID with
      | None => None
      | Some locations =>
          (fold_left (nearerAttacker s ball attackingTeamID) (map_to_list locations)
                     (None, None)).2
      end
  end.

(** The scorer [handleGoalEvent] settles on: the possessor in an attacking
    third who is no goalkeeper and wins the draw [r] of [rand.Float64()],
    else the nearest attacker. *)
Definition goalScorer (s : State) (matchID : Z) (ball : BallPosition) (r : Q) : option Z :=
  let scorer :=
    if 0 <? bPossessorID ball then
      match players s !! bPossessorID ball with
      | Some player =>
          if Qltb 70 (bX ball) || Qltb (bX ball) 30 then
            if negb (bool_decide (pPosition player = PosGK)) &&
               Qltb r (getGoalProbability s player ball)
            then Some (bPossessorID ball)
            else None
          else None
      | None => None
      end
    else None in
  match scorer with
  | Some k => Some k
  | None => findNearestAttackingPlayer s matchID ball
  end.

(** The assister: the last toucher, when it is not the scorer's id and
    plays for the scorer's team.  [s] is the state after the scorer has
    been credited. *)
Definition goalAssister (s : State) (ball : BallPosition) (scorer : Player) : option Z :=
  if negb (bLastTouchID ball =? 0) && negb (bLastTouchID ball =? pID scorer) then
    match players s !! bLastTouchID ball with
    | Some player =>
        if pTeamID player =? pTeamID scorer then Some (bLastTouchID ball) else None
    | None => None
    end
  else None.

(** [handleGoalEvent(matchID, match)].  The [*Match] argument of every
    handler is the entry of [matches] under [matchID]. *)
Definition handleGoalEvent (now : Z) (r : Q) (matchID : Z) (s : State) : State :=
  match ballPositions s !! matchID, matches s !! matchID with
  | Some ball, Some m =>
      match goalScorer s matchID ball r with
      | None => s
      | Some k =>
          match players s !! k with
          | None => s
          | Some scorer =>
              let isHomeGoal := pTeamID scorer =? tiID (mHomeTeam m) in
              let m' := if isHomeGoal then withScore (mHomeScore m + 1) (mAwayScore m) m
                        else withScore (mHomeScore m) (mAwayScore m + 1) m in
              let s := set_matches (<[matchID := m']> (matches s)) s in
              let s := set_players (<[k := creditGoal scorer]> (players s)) s in
              let assister := goalAssister s ball scorer in
              let s := match assister with
                       | Some a => set_players (alter creditAssist a (players s)) s
                       | None => s
                       end in
              let s := updateMatchMomentum now matchID m' "goal" (pTeamID scorer) s in
              let s := recalculateMatchProbabilities now matchID m' s in
              let s := setBallEvent now matchID BallEventKickoff (FieldWidth / 2)
                         (FieldHeight / 2) 0 s in
              let commentary := "GOAL! " +:+ pName scorer +:+ " scores!" in
              let commentary :=
                match assister with
                | Some a =>
                    commentary +:+ " Assisted by " +:+
                    default String.EmptyString (pName <$> players s !! a) +:+ "."
                | None => commentary
                end in
              addLiveCommentary now matchID (mMinute m') commentary EventGoal (Some k) s
          end
      end
  | _, _ => s
  end.

Definition getTeamName (s : State) (teamID : Z) : string :=
  match teams s !! teamID with
  | Some team => tiShortName team
  | None => "Unknown"
  end.

(** [handleCardEvent]: [pick] is the draw of [rand.Intn(len)], [redRoll]
    the outcome of [rand.Float32() < 0.1]. *)
Definition handleCardEvent (now : Z) (pick : nat) (redRoll : bool) (matchID : Z)
    (s : State) : option State :=
  match matches s !! matchID with
  | None => Some s
  | Some m =>
      let availablePlayers := getAvailablePlayersForMatch s matchID in
      match availablePlayers !! (pick `mod` length availablePlayers)%nat with
      | None => Some s
      | Some (k, player) =>
          let isHomePlayer := pTeamID player =? tiID (mHomeTeam m) in
          if redRoll then
            let s := set_players (<[k := bookRed 2.0 player]> (players s)) s in
            let s := setPlayerUnavailable matchID (pID player) PlayerRedCard (mMinute m)
                       "Direct red card" s in
            let s := updateMatchMomentum now matchID m "red_card" (pTeamID player) s in
            let s := recalculateMatchProbabilities now matchID m s in
            let s := addLiveCommentary now matchID (mMinute m)
                       ("RED CARD! " +:+ pName player +:+ " is sent off! " +:+
                        getTeamName s (pTeamID player) +:+ " down to 10 men!")
                       EventCard (Some k) s in
            updateStats matchID (if isHomePlayer then incHomeRedCards else incAwayRedCards) s
          else
            let s := set_players (<[k := bookYellow 0.5 player]> (players s)) s in
            let s := addLiveCommentary now matchID (mMinute m)
                       ("Yellow card shown to " +:+ pName player) EventCard (Some k) s in
            updateStats matchID
              (if isHomePlayer then incHomeYellowCards else incAwayYellowCards) s
      end
  end.

(** [handleCornerEvent]: [isHomeCorner] is the outcome of
    [rand.Float32() < 0.5]. *)
Definition handleCornerEvent (now : Z) (isHomeCorner : bool) (matchID : Z) (s : State)
    : option State :=
  match matches s !! matchID with
  | None => Some s
  | Some m =>
      let teamName := if isHomeCorner then tiName (mHomeTeam m) else tiName (mAwayTeam m) in
      let teamID := if isHomeCorner then tiID (mHomeTeam m) else tiID (mAwayTeam m) in
      s ← updateStats matchID (if isHomeCorner then incHomeCorners else incAwayCorners) s;
      let s := updateMatchMomentum now matchID m "corner" teamID s in
      let s := recalculateMatchProbabilities now matchID m s in
      Some (addLiveCommentary now matchID (mMinute m) ("Corner kick for " +:+ teamName)
              EventCorner None s)
  end.

Record FoulContext := mkFoulContext {
  IsInPenaltyArea : bool;
  IsNearGoal : bool;
  IsCounterAttack : bool;
  IsDangerousPlay : bool;
  BallPossessorTeam : Z
}.

(** [applyFoulConsequences]: [fouler] points into [players], [ball] is
    [ballPositions[matchID]]. *)
Definition applyFoulConsequences (now : Z) (matchID : Z) (fouler : Z) (severity : string)
    (context : FoulContext) (s : State) : option State :=
  match matches s !! matchID, players s !! fouler, ballPositions s !! matchID with
  | Some m, Some p, Some ball =>
      let isHome := pTeamID p =? tiID (mHomeTeam m) in
      s ← updateStats matchID (if isHome then incHomeFouls else incAwayFouls) s;
      s ← (if String.eqb severity "yellow" then
             let s := set_players (<[fouler := bookYellow 0.3 p]> (players s)) s in
             s ← updateStats matchID
                   (if isHome then incHomeYellowCards else incAwayYellowCards) s;
             Some (addLiveCommentary now matchID (mMinute m)
                     ("Yellow card! " +:+ pName p +:+ " commits a foul")
                     EventCard (Some fouler) s)
           else if String.eqb severity "red" then
             let s := set_players (<[fouler := bookRed 1.5 p]> (players s)) s in
             s ← updateStats matchID (if isHome then incHomeRedCards else incAwayRedCards) s;
             Some (addLiveCommentary now matchID (mMinute m)
                     ("RED CARD! " +:+ pName p +:+ " sent off for serious foul play!")
                     EventCard (Some fouler) s)
           else Some s);
      if IsInPenaltyArea context && negb (pTeamID p =? BallPossessorTeam context) then
        let penaltyX := if Qltb (bX ball) (FieldWidth / 2) then (FieldWidth - 11.0)%Q
                        else 11.0%Q in
        let s := setBallEvent now matchID BallEventPenalty penaltyX (FieldHeight / 2) 0 s in
        Some (addLiveCommentary now matchID (mMinute m) "PENALTY!" EventPenalty None s)
      else
        let s := setBallEvent now matchID BallEventFreekick (bX ball) (bY ball) 0 s in
        Some (addLiveCommentary now matchID (mMinute m) "Free kick awarded" EventFreekick
                None s)
  | _, _, _ => Some s
  end.

(** ** Fixture scheduler *)

(** Dereferencing a [*TeamInfo]; the pointers of the program always point
    into [teams]. *)
Definition derefTeam (s : State) (p : Z) : TeamInfo :=
  default (mkTeamInfo 0 String.EmptyString String.EmptyString String.EmptyString String.EmptyString [] 0) (teams s !! p).

(** [leagueConfigs[league]]: a missing key yields the zero value. *)
Definition leagueConfig (league : string) : LeagueConfig :=
  default (mkLeagueConfig String.EmptyString 0 0 0 0) (leagueConfigs !! league).

(** [getTeamsByLeague]: pointers to the league's teams, in range order. *)
Definition getTeamsByLeague (s : State) (league : string) : list Z :=
  (List.filter (fun '(_, team) => String.eqb (tiLeague team) league)
               (map_to_list (teams s))).*1.

(** The body of the loop of [generateRoundMatches] for index [i]. *)
Definition roundMatchAt (teams : list Z) (round i : Z) : list RoundMatch :=
  let n := Z.of_nat (length teams) in
  let team1Idx := i in
  let team2Idx := Z.rem (n - 1 - i + round) (n - 1) in
  let team2Idx := if team1Idx <=? team2Idx then team2Idx + 1 else team2Idx in
  if (team1Idx <? n) && (team2Idx <? n) && negb (team1Idx =? team2Idx) then
    match teams !! Z.to_nat team1Idx, teams !! Z.to_nat team2Idx with
    | Some home, Some away => [mkRoundMatch home away]
    | _, _ => []
    end
  else [].

(** [generateRoundMatches]: nothing for an odd number of teams, else the
    loop [for i := 0; i < n/2; i++]. *)
Definition generateRoundMatches (teams : list Z) (round : Z) : list RoundMatch :=
  let n := Z.of_nat (length teams) in
  if negb (Z.rem n 2 =? 0) then []
  else flat_map (fun i => roundMatchAt teams round (Z.of_nat i))
                (seq 0 (Z.to_nat (Z.quot n 2))).

(** The fixture made from one pairing; [swap] reverses home and away. *)
Definition legFixture (now : Z) (league : string) (swap : bool) (matchday : Z)
    (m : RoundMatch) : SeasonSchedule :=
  mkSeasonSchedule matchday league
    (if swap then rmAway m else rmHome m)
    (if swap then rmHome m else rmAway m)
    false 0 (now + matchday * 24 * 3600 * Second).

(** One leg: rounds [0 .. totalRounds-1], one matchday each, counted from
    [matchday0]. *)
Definition generateLeg (now : Z) (league : string) (teams : list Z) (swap : bool)
    (matchday0 : Z) (totalRounds : nat) : list SeasonSchedule :=
  flat_map (fun round =>
              map (legFixture now league swap (matchday0 + Z.of_nat round))
                  (generateRoundMatches teams (Z.of_nat round)))
           (seq 0 totalRounds).

(** The slice [generateSeasonSchedule] builds from the league's teams, and
    the value of [matchday] when both legs are done. *)
Definition seasonFixtures (now : Z) (league : string) (leagueTeams : list Z)
    : list SeasonSchedule * Z :=
  let totalRounds := Z.to_nat (Z.of_nat (length leagueTeams) - 1) in
  let first := generateLeg now league leagueTeams false 1 totalRounds in
  let matchday := 1 + Z.of_nat totalRounds in
  let second := generateLeg now league leagueTeams true matchday totalRounds in
  (first ++ second, matchday + Z.of_nat totalRounds).

(** [generateSeasonSchedule]: nothing is stored when the league does not
    have the configured number of teams. *)
Definition generateSeasonSchedule (now : Z) (league : string) (s : State) : State :=
  let config := leagueConfig league in
  let leagueTeams := getTeamsByLeague s league in
  if negb (Z.of_nat (length leagueTeams) =? lgTeamCount config) then s
  else set_seasonSchedules
         (<[league := (seasonFixtures now league leagueTeams).1]> (seasonSchedules s)) s.

(** [for _, league := range []string{LeaguePremier, LeagueCommunityLeague}]
    with [if schedules, exists := seasonSchedules[league]; exists]. *)
Definition leagueOrder : list string := [LeaguePremier; LeagueCommunityLeague].

Definition schedulesOf (s : State) (league : string) : list SeasonSchedule :=
  default [] (seasonSchedules s !! league).

Definition scheduleInvolves (s : State) (teamID : Z) (schedule : SeasonSchedule) : bool :=
  (tiID (derefTeam s (ssHomeTeam schedule)) =? teamID) ||
  (tiID (derefTeam s (ssAwayTeam schedule)) =? teamID).

Definition getTeamMatchesPlayed (s : State) (teamID : Z) : Z :=
  fold_left (fun matchesPlayed league =>
    fold_left (fun matchesPlayed schedule =>
                 if ssIsPlayed schedule && scheduleInvolves s teamID schedule
                 then matchesPlayed + 1 else matchesPlayed)
              (schedulesOf s league) matchesPlayed)
    leagueOrder 0.

Definition getMaximumMatchesPlayed (s : State) : Z :=
  fold_left (fun maxMatches '(_, team) =>
               let matchesPlayed := getTeamMatchesPlayed s (tiID team) in
               if maxMatches <? matchesPlayed then matchesPlayed else maxMatches)
            (map_to_list (teams s)) 0.

Definition getMinimumMatchesPlayed (s : State) : Z :=
  fold_left (fun minMatches '(_, team) =>
               let matchesPlayed := getTeamMatchesPlayed s (tiID team) in
               if matchesPlayed <? minMatches then matchesPlayed else minMatches)
            (map_to_list (teams s)) 999.

(** A slice of fixture pointers: each index with the fixture it points to. *)
Definition pointers (schedules : list SeasonSchedule) : list (nat * SeasonSchedule) :=
  imap pair schedules.

(** The first pointer a loop over the slice returns. *)
Definition firstPointer (p : SeasonSchedule -> bool) (l : list (nat * SeasonSchedule))
    : option nat :=
  fst <$> List.find (fun e => p e.2) l.

(** The first league, in [leagueOrder], whose loop returns a pointer. *)
Fixpoint firstLeague (leagues : list string) (f : string -> option nat)
    : option (string * nat) :=
  match leagues with
  | [] => None
  | league :: rest =>
      match f league with
      | Some i => Some (league, i)
      | None => firstLeague rest f
      end
  end.

Definition getMatchForLeastPlayedTeams (s : State) : option (string * nat) :=
  let minMatchesPlayed := getMinimumMatchesPlayed s in
  firstLeague leagueOrder (fun league =>
    firstPointer
      (fun schedule =>
         negb (ssIsPlayed schedule) &&
         let homeMatchesPlayed := getTeamMatchesPlayed s (tiID (derefTeam s (ssHomeTeam schedule))) in
         let awayMatchesPlayed := getTeamMatchesPlayed s (tiID (derefTeam s (ssAwayTeam schedule))) in
         ((homeMatchesPlayed =? minMatchesPlayed) || (homeMatchesPlayed =? minMatchesPlayed + 1)) &&
         ((awayMatchesPlayed =? minMatchesPlayed) || (awayMatchesPlayed =? minMatchesPlayed + 1)))
      (pointers (schedulesOf s league))).

(** [getNextUnplayedMatch]: a pointer to the selected fixture. *)
Definition getNextUnplayedMatch (s : State) : option (string * nat) :=
  let minMatchesPlayed := getMinimumMatchesPlayed s in
  let maxMatchesPlayed := getMaximumMatchesPlayed s in
  if 2 <? maxMatchesPlayed - minMatchesPlayed then
    match getMatchForLeastPlayedTeams s with
    | Some found => Some found
    | None =>
        firstLeague leagueOrder (fun league =>
          firstPointer (fun schedule => negb (ssIsPlayed schedule))
                       (pointers (schedulesOf s league)))
    end
  else
    firstLeague leagueOrder (fun league =>
      let sortedSchedules :=
        sortSlice _ (fun a b => ssMatchday a.2 <? ssMatchday b.2)
          (List.filter (fun e => negb (ssIsPlayed e.2)) (pointers (schedulesOf s league))) in
      firstPointer
        (fun schedule =>
           let homeMatchesPlayed := getTeamMatchesPlayed s (tiID (derefTeam s (ssHomeTeam schedule))) in
           let awayMatchesPlayed := getTeamMatchesPlayed s (tiID (derefTeam s (ssAwayTeam schedule))) in
           (homeMatchesPlayed <=? minMatchesPlayed + 2) &&
           (awayMatchesPlayed <=? minMatchesPlayed + 2))
        sortedSchedules).

Definition generateInitialMatchStats (now : Z) (matchID : Z) : MatchStats :=
  mkMatchStats matchID 50 50 0 0 0 0 0 0 0 0 0 0 0 0 0 0 100.0 100.0 now.

Definition formations : list string := ["4-4-2"; "4-3-3"; "3-5-2"; "4-2-3-1"; "5-3-2"].
Definition weatherConditions : list string :=
  ["Clear"; "Cloudy"; "Light Rain"; "Overcast"; "Sunny"; "Partly Cloudy"].

(** The draws of [createNextMatch]; [rand.Intn(n)] is the draw modulo [n]. *)
Record KickoffDraws := mkKickoffDraws {
  drawInjuryTime : nat;
  drawAttendance : nat;
  drawWeather : nat;
  drawTemperature : nat;
  drawHomeFormation : nat;
  drawAwayFormation : nat
}.

Definition isActive (m : Match) : bool :=
  match mStatus m with
  | StatusLive | StatusHalftime | StatusBreak => true
  | _ => false
  end.

(** The count [createNextMatch] compares with [MaxSimultaneousMatches]:
    active matches whose competition is the league. *)
Definition leagueActiveCount (ms : gmap Z Match) (league : string) : Z :=
  Z.of_nat (length (List.filter
    (fun '(_, m) => isActive m && String.eqb (mCompetition m) league)
    (map_to_list ms))).

(** The match object built from the selected fixture. *)
Definition kickoffMatch (now : Z) (d : KickoffDraws) (s : State)
    (scheduledMatch : SeasonSchedule) (id : Z) : Match :=
  let home := derefTeam s (ssHomeTeam scheduledMatch) in
  let away := derefTeam s (ssAwayTeam scheduledMatch) in
  mkMatch id home away 0 0 0 StatusLive (ssLeague scheduledMatch) now (tiStadium home)
    (Z.of_nat (drawAttendance d) `mod` 80000 + 20000)
    (default String.EmptyString (weatherConditions !! (drawWeather d `mod` length weatherConditions)%nat))
    (Z.of_nat (drawTemperature d) `mod` 25 + 5)
    (default String.EmptyString (formations !! (drawHomeFormation d `mod` length formations)%nat))
    (default String.EmptyString (formations !! (drawAwayFormation d `mod` length formations)%nat))
    (currentSeason s) (ssMatchday scheduledMatch) now None ∅
    (Z.of_nat (drawInjuryTime d) `mod` 7) 0 false.

Definition markPlayed (id : Z) (f : SeasonSchedule) : SeasonSchedule :=
  mkSeasonSchedule (ssMatchday f) (ssLeague f) (ssHomeTeam f) (ssAwayTeam f) true id
    (ssScheduledAt f).

(** [createNextMatch].  The text of the kickoff line is abridged: the
    source also prints the form of both teams and the odds, formatted from
    [float64]. *)
Definition createNextMatch (now : Z) (d : KickoffDraws) (s : State) : State :=
  match getNextUnplayedMatch s with
  | None => s
  | Some (league, i) =>
      match schedulesOf s league !! i with
      | None => s
      | Some scheduledMatch =>
          if ssIsPlayed scheduledMatch then s
          else if MaxSimultaneousMatches <=?
                  leagueActiveCount (matches s) (ssLeague scheduledMatch) then s
          else
            let id := matchCounter s + 1 in
            let home := derefTeam s (ssHomeTeam scheduledMatch) in
            let away := derefTeam s (ssAwayTeam scheduledMatch) in
            let '(homeWin, draw, awayWin) := calculateMatchProbabilities home away in
            let m := kickoffMatch now d s scheduledMatch id in
            let s := set_seasonSchedules
                       (<[league := <[i := markPlayed id scheduledMatch]>
                                      (schedulesOf s league)]> (seasonSchedules s)) s in
            let s := set_matchCounter id s in
            let s := set_matches (<[id := m]> (matches s)) s in
            let s := set_matchStats
                       (<[id := generateInitialMatchStats now id]> (matchStats s)) s in
            let s := set_commentary (<[id := []]> (liveCommentary s))
                       (commentaryCounter s) s in
            let s := set_playerLocations (<[id := ∅]> (playerLocations s)) s in
            let s := set_matchMomentum
                       (<[id := mkMatchMomentum 0.0 0.0 0 0 0 0 0 now]> (matchMomentum s)) s in
            let s := set_dynamicProbabilities
                       (<[id := mkDynamicMatchProbabilities id homeWin draw awayWin
                                  0.02 0.01 0.01 now ∅]> (dynamicProbabilities s)) s in
            let s := set_playerAvailability (<[id := ∅]> (playerAvailability s)) s in
            addLiveCommentary now id 0
              ("Kickoff! " +:+ tiName home +:+ " vs " +:+ tiName away +:+ " at " +:+
               tiStadium home)
              EventKickoff None s
      end
  end.

(** ** Match lifecycle *)

(** The calls [updateLiveMatchWithBreaks] makes besides its writes to the
    clock fields of the match, in order.  None of them writes [Minute],
    [Status], [StartTime], [HalftimeEndTime] or [IsInBreak]. *)
Inductive Call :=
  | CallAddLiveCommentary (minute : Z) (text : string) (event : EventType)
  | CallFinishMatch
  | CallGenerateMatchEvent
  | CallUpdatePlayerLocationsForMatch
  | CallUpdateMatchStatistics.

Definition withClock (minute : Z) (status : Status) (startTime : Z) (endTime : option Z)
    (halftimeEndTime : Z) (isInBreak : bool) (lastUpdate : Z) (m : Match) : Match :=
  mkMatch (mID m) (mHomeTeam m) (mAwayTeam m) (mHomeScore m) (mAwayScore m) minute status
    (mCompetition m) lastUpdate (mVenue m) (mAttendance m) (mWeather m)
    (mTemperature m) (mHomeFormation m) (mAwayFormation m) (mSeason m) (mMatchweekNum m)
    startTime endTime (mPlayerRatings m) (mInjuryTime m) halftimeEndTime isInBreak.

(** [updateLiveMatchWithBreaks] at time [now]; [eventRoll] is the outcome
    of [rand.Float32() < 0.15].  [int(elapsed)] truncates the elapsed
    seconds. *)
Definition updateLiveMatchWithBreaks (now : Z) (eventRoll : bool) (m : Match)
    : Match * list Call :=
  let elapsed := now - mStartTime m in
  match mStatus m with
  | StatusLive =>
      let minute := Z.quot elapsed Second in
      if (45 <=? minute) && (minute <? 46) then
        (withClock minute StatusHalftime (mStartTime m) (mEndTime m)
           (now + HalftimeBreakSeconds * Second) true (mLastUpdate m) m,
         [CallAddLiveCommentary minute "Halftime! Teams head to the tunnel" EventCommentary])
      else
        let totalMatchTime := MatchDurationSeconds + mInjuryTime m in
        if totalMatchTime * Second <=? elapsed then
          (withClock minute StatusFinished (mStartTime m) (Some now) (mHalftimeEndTime m)
             (mIsInBreak m) (mLastUpdate m) m,
           [CallFinishMatch])
        else
          (withClock minute StatusLive (mStartTime m) (mEndTime m) (mHalftimeEndTime m)
             (mIsInBreak m) now m,
           (if eventRoll then [CallGenerateMatchEvent] else []) ++
           [CallUpdatePlayerLocationsForMatch; CallUpdateMatchStatistics])
  | StatusHalftime =>
      if mHalftimeEndTime m <? now then
        let breakDuration := now - (mHalftimeEndTime m - HalftimeBreakSeconds * Second) in
        (withClock (mMinute m) StatusLive (mStartTime m + breakDuration) (mEndTime m)
           (mHalftimeEndTime m) false (mLastUpdate m) m,
         [CallAddLiveCommentary (mMinute m) "Second half underway!" EventCommentary])
      else (m, [])
  | StatusBreak => (m, [])
  | _ =>
      (withClock (mMinute m) (mStatus m) (mStartTime m) (mEndTime m) (mHalftimeEndTime m)
         (mIsInBreak m) now m,
       [CallUpdateMatchStatistics])
  end.

(** What one sweep of [matchEngine] at time [now] does to the clock of a
    match: only LIVE, HALFTIME and BREAK matches are updated. *)
Definition engineTick (m : Match) (tick : Z * bool) : Match :=
  if isActive m then (updateLiveMatchWithBreaks tick.1 tick.2 m).1 else m.

(** The match after a sequence of sweeps. *)
Definition runTicks (ticks : list (Z * bool)) (m : Match) : Match :=
  fold_left engineTick ticks m.

(** ** League tables *)

(** [initializeLeagueTables]: a fresh table per league, rows in the order
    of [getTeamsByLeague]. *)
Definition freshTable (now : Z) (s : State) (league : string) : list LeagueTable :=
  imap (fun i team =>
          mkLeagueTable (Z.of_nat i + 1) (derefTeam s team) 0 0 0 0 0 0 0 0 [] now)
       (getTeamsByLeague s league).

Definition initializeLeagueTables (now : Z) (s : State) : State :=
  set_leagueTables
    (fold_left (fun tables league => <[league := freshTable now s league]> tables)
               leagueOrder (leagueTables s)) s.

(** [updateTeamForm]: the last five results and their points. *)
Definition formPoints (form : list string) : Z :=
  fold_left (fun points r =>
               if String.eqb r "W" then points + 3
               else if String.eqb r "D" then points + 1
               else points) form 0.

Definition updateTeamForm (team : TeamInfo) (result : string) (isHome : bool) : TeamInfo :=
  let form := if (5 <=? length (tiForm team))%nat then drop 1 (tiForm team)
              else tiForm team in
  let form := form ++ [result] in
  mkTeamInfo (tiID team) (tiName team) (tiShortName team) (tiStadium team)
    (tiLeague team) form (formPoints form).

(** The condition under which the bubble sort swaps [table[j]] and
    [table[j+1]]. *)
Definition swapNeeded (a b : LeagueTable) : bool :=
  (ltPoints a <? ltPoints b) ||
  ((ltPoints a =? ltPoints b) && (ltGoalDiff a <? ltGoalDiff b)).

(** The inner loop [for j := 0; j < m; j++] of [sortLeagueTable], on the
    slice from index [j] on. *)
Fixpoint bubblePass (m : nat) (table : list LeagueTable) : list LeagueTable :=
  match m, table with
  | S m', a :: b :: rest =>
      if swapNeeded a b then b :: bubblePass m' (a :: rest)
      else a :: bubblePass m' (b :: rest)
  | _, _ => table
  end.

(** The outer loop [for i := 0; i < len(table)-1; i++]. *)
Definition bubbleSort (table : list LeagueTable) : list LeagueTable :=
  fold_left (fun t i => bubblePass (length table - i - 1) t)
            (seq 0 (length table - 1)) table.

Definition withPosition (position : Z) (r : LeagueTable) : LeagueTable :=
  mkLeagueTable position (ltTeam r) (ltPlayed r) (ltWon r) (ltDrawn r) (ltLost r)
    (ltGoalsFor r) (ltGoalsAgainst r) (ltGoalDiff r) (ltPoints r) (ltForm r)
    (ltLastUpdate r).

Definition sortLeagueTable (table : list LeagueTable) : list LeagueTable :=
  imap (fun i r => withPosition (Z.of_nat i + 1) r) (bubbleSort table).

(** The writes of [updateTeamStats] to the row of the team. *)
Definition updateEntry (now : Z) (team : TeamInfo) (points wins draws losses : Z)
    (isHome : bool) (m : Match) (r : LeagueTable) : LeagueTable :=
  let won := ltWon r + wins in
  let drawn := ltDrawn r + draws in
  let lost := ltLost r + losses in
  let goalsFor := ltGoalsFor r + (if isHome then mHomeScore m else mAwayScore m) in
  let goalsAgainst := ltGoalsAgainst r + (if isHome then mAwayScore m else mHomeScore m) in
  mkLeagueTable (ltPosition r) team (won + drawn + lost) won drawn lost goalsFor
    goalsAgainst (goalsFor - goalsAgainst) (ltPoints r + points) (ltForm r) now.

(** A loop over a slice that updates the first element satisfying [p] and
    breaks. *)
Fixpoint updateFirst {A} (p : A -> bool) (f : A -> A) (l : list A) : list A :=
  match l with
  | [] => []
  | x :: rest => if p x then f x :: rest else x :: updateFirst p f rest
  end.

(** [updateTeamStats(teamID, points, wins, draws, losses, match)]. *)
Definition updateTeamStats (now : Z) (teamID points wins draws losses : Z) (m : Match)
    (s : State) : State :=
  match teams s !! teamID with
  | None => s
  | Some team =>
      let result := if 0 <? wins then FormWin else if 0 <? draws then FormDraw
                    else FormLoss in
      let isHome := tiID (mHomeTeam m) =? teamID in
      let team := updateTeamForm team result isHome in
      let s := set_teams (<[teamID := team]> (teams s)) s in
      set_leagueTables
        ((fun table =>
            sortLeagueTable
              (updateFirst (fun r => tiID (ltTeam r) =? teamID)
                 (updateEntry now team points wins draws losses isHome m) table))
         <$> leagueTables s) s
  end.

(** The order [sortLeagueTable] establishes: more points first, and on
    equal points the larger goal difference first. *)
Definition ranksBefore (a b : LeagueTable) : Prop :=
  ltPoints b < ltPoints a \/ (ltPoints a = ltPoints b /\ ltGoalDiff b <= ltGoalDiff a).

(** ** Season lifecycle *)

Definition shouldEndSeason (s : State) : bool :=
  forallb (fun league => forallb ssIsPlayed (schedulesOf s league)) leagueOrder.

(** The scans of [endSeason]: the first player of the range whose score
    exceeds the running maximum wins; with no such player, the first player
    the range yields; [None] is the nil pointer. *)
Definition scanPlayers {K} (better : Player -> K -> bool) (key : Player -> K) (zero : K)
    (s : State) : option Player :=
  let found :=
    (fold_left (fun '(best, top) '(_, player) =>
                  if better player best then (key player, Some player) else (best, top))
               (map_to_list (players s)) (zero, None)).2 in
  match found with
  | Some player => Some player
  | None => snd <$> head (map_to_list (players s))
  end.

Definition findTopScorer (s : State) : option Player :=
  scanPlayers (fun p best => best <? GoalsThisSeason (pSeasonStats p))
              (fun p => GoalsThisSeason (pSeasonStats p)) 0 s.

Definition findTopAssists (s : State) : option Player :=
  scanPlayers (fun p best => best <? AssistsThisSeason (pSeasonStats p))
              (fun p => AssistsThisSeason (pSeasonStats p)) 0 s.

Definition totalFouls (p : Player) : Z :=
  YellowCardsThisSeason (pSeasonStats p) + RedCardsThisSeason (pSeasonStats p) * 2.

Definition findMostFouls (s : State) : option Player :=
  scanPlayers (fun p best => best <? totalFouls p) totalFouls 0 s.

Definition findPlayerOfSeason (s : State) : option Player :=
  scanPlayers (fun p best => Qltb best (AverageRating (pSeasonStats p)) &&
                             (10 <=? MatchesPlayed (pSeasonStats p)))
              (fun p => AverageRating (pSeasonStats p)) 0%Q s.

Definition calculateSeasonWinner (s : State) : TeamInfo :=
  match leagueTables s !! LeaguePremier with
  | Some (top :: _) => ltTeam top
  | _ =>
      match map_to_list (teams s) with
      | (_, team) :: _ => team
      | [] => mkTeamInfo 0 "Unknown" String.EmptyString String.EmptyString String.EmptyString [] 0
      end
  end.

Definition calculateTotalSeasonGoals (s : State) : Z :=
  fold_left (fun total '(_, player) => total + GoalsThisSeason (pSeasonStats player))
            (map_to_list (players s)) 0.

(** The writes of [resetForNewSeason] to one player. *)
Definition resetPlayer (p : Player) : Player :=
  mkPlayer (pID p) (pName p) (pPosition p) (pTeamID p)
    (pGoals p + GoalsThisSeason (pSeasonStats p))
    (pAssists p + AssistsThisSeason (pSeasonStats p))
    (pYellowCards p + YellowCardsThisSeason (pSeasonStats p))
    (pRedCards p + RedCardsThisSeason (pSeasonStats p))
    (pAppearances p) (mkPlayerSeasonStats 0 0 0 0 0 0 0 0) 6.0.

Definition resetForNewSeason (now : Z) (s : State) : State :=
  initializeLeagueTables now (set_players (resetPlayer <$> players s) s).

(** [endSeason]: [None] is the nil dereference of the scans on an empty
    player pool. *)
Definition endSeason (now : Z) (s : State) : option State :=
  let seasonWinner := calculateSeasonWinner s in
  topScorer ← findTopScorer s;
  topAssists ← findTopAssists s;
  mostFouls ← findMostFouls s;
  playerOfSeason ← findPlayerOfSeason s;
  let seasonRecord :=
    mkSeasonHistory (currentSeason s) topScorer topAssists mostFouls playerOfSeason
      seasonWinner (calculateTotalSeasonGoals s) SeasonMatches now in
  let history := seasonHistory s ++ [seasonRecord] in
  let history := if MaxSeasonHistory <? Z.of_nat (length history) then drop 1 history
                 else history in
  let s := set_seasonHistory history s in
  let s := resetForNewSeason now s in
  Some (set_season (currentSeason s + 1) 1 s).

Definition startNewSeason (s : State) : State :=
  set_finishedMatches ∅ (set_season (currentSeason s + 1) 1 s).

(** The season transition of [seasonManager]: [endSeason()] followed by
    [startNewSeason()].  [updateLeagueTable] makes the same two calls, but
    it runs under the mutex [matchEngine] holds, which [startNewSeason]
    locks again: on that path the second call does not return, and only
    the [seasonManager] path is modelled. *)
Definition seasonTransition (now : Z) (s : State) : option State :=
  startNewSeason <$> endSeason now s.

(** ** Vocabulary of the properties *)

(** Three probabilities: each in [0,1], summing to 1 within 1e-6. *)
Definition normalised (p : Q * Q * Q) : Prop :=
  let '(h, d, a) := p in
  (0 <= h <= 1)%Q /\ (0 <= d <= 1)%Q /\ (0 <= a <= 1)%Q /\
  (Qabs (h + d + a - 1) <= 1 # 1000000)%Q.

(** The win probabilities of an entry of [dynamicProbabilities]. *)
Definition winProbabilities (p : DynamicMatchProbabilities) : Q * Q * Q :=
  (HomeWinProbability p, DrawProbability p, AwayWinProbability p).

(** Both scalars of a momentum entry lie in [-1, 1]. *)
Definition momentumInRange (mo : MatchMomentum) : Prop :=
  (-1 <= HomeTeamMomentum mo <= 1)%Q /\ (-1 <= AwayTeamMomentum mo <= 1)%Q.



(** A small simulation state: one live Premier League match between
    teams 1 and 2 in minute 10, two players a side. *)
Definition demoTeam (id : Z) (name short stadium : string) : TeamInfo :=
  mkTeamInfo id name short stadium LeaguePremier [] 0.

Definition demoHome : TeamInfo := demoTeam 1 "Capricon FC" "CAP" "Stellar Stadium".
Definition demoAway : TeamInfo := demoTeam 2 "The Galacticons" "GAL" "Nebula Arena".

Definition demoMatch : Match :=
  mkMatch 1 demoHome demoAway 0 0 10 StatusLive LeaguePremier 0 "Stellar Stadium" 30000
    "Clear" 15 "4-4-2" "4-3-3" 1 1 0 None ∅ 3 0 false.

(** The demo match as [createNextMatch] starts it at time [t]. *)
Definition kickedOffAt (t injuryTime : Z) : Match :=
  mkMatch 1 demoHome demoAway 0 0 0 StatusLive LeaguePremier t "Stellar Stadium" 30000
    "Clear" 15 "4-4-2" "4-3-3" 1 1 t None ∅ injuryTime 0 false.

Definition demoPlayer (id : Z) (name : string) (position : Position) (teamID : Z)
    : Player :=
  mkPlayer id name position teamID 0 0 0 0 0 (mkPlayerSeasonStats 0 0 0 0 0 0 0 0) 6.0.

Definition demoPlayers : gmap Z Player :=
  list_to_map
    [ (1, demoPlayer 1 "Harry Clarke 1" PosST 1);
      (2, demoPlayer 2 "Connor Wilson 2" PosCAM 1);
      (3, demoPlayer 3 "James Wilson 3" PosCB 2);
      (4, demoPlayer 4 "Fernando Torres 4" PosST 2) ].

(** The ball with player 1 near the away goal, last touched by player 2. *)
Definition demoBall : BallPosition :=
  mkBallPosition 90 32 1 2 1 0 0 BallEventPlay 0.

Definition demoState : State :=
  mkState {[1 := demoMatch]} ∅ {[1 := generateInitialMatchStats 0 1]} demoPlayers
    (list_to_map [(1, demoHome); (2, demoAway)]) ∅ {[1 := []]} {[1 := ∅]} [] ∅
    1 1 0 1 {[1 := mkMatchMomentum 0 0 0 0 0 0 0 0]} {[1 := ∅]} ∅ {[1 := demoBall]}.


(** A league table in standings order: rows by non-increasing points, on
    equal points by non-increasing goal difference, and the position of
    each row its 1-based rank. *)
Definition tableRanked (table : list LeagueTable) : Prop :=
  (forall (i j : nat) (a b : LeagueTable),
     (i < j)%nat -> table !! i = Some a -> table !! j = Some b -> ranksBefore a b) /\
  (forall (i : nat) (r : LeagueTable),
     table !! i = Some r -> ltPosition r = Z.of_nat i + 1).

(** The state of the bubble sort of [table] after [i] passes: the last
    [i] rows are in order and no row before them ranks behind them. *)
Definition passInvariant (table : list LeagueTable) (i : nat) (t : list LeagueTable)
    : Prop :=
  exists pre suf,
    t = pre ++ suf /\ length suf = i /\ t ≡ₚ table /\
    StronglySorted ranksBefore suf /\
    Forall (fun x => Forall (ranksBefore x) suf) pre.

(** A standings row. *)
Definition demoRow (position : Z) (team : TeamInfo) (points goalDiff : Z) : LeagueTable :=
  mkLeagueTable position team 0 0 0 0 0 0 goalDiff points [] 0.

(** Every player is stored under its own id (as [initializeSimulation]
    stores them). *)
Definition playersKeyed (s : State) : Prop :=
  forall (k : Z) (p : Player), players s !! k = Some p -> pID p = k.

(** What a goal event did to the score of the match, to the goals and to
    the assists of the players, when [k] scored. *)
Definition goalScoredBy (s s' : State) (matchID : Z) (m : Match) (ball : BallPosition)
    (k : Z) : Prop :=
  exists scorer m',
    players s !! k = Some scorer /\ matches s' !! matchID = Some m' /\
    (* one score goes up by one, the other stays *)
    ((mHomeScore m' = mHomeScore m + 1 /\ mAwayScore m' = mAwayScore m) \/
     (mHomeScore m' = mHomeScore m /\ mAwayScore m' = mAwayScore m + 1)) /\
    (* and it is the home score exactly when the scorer plays for the home team *)
    (mHomeScore m' = mHomeScore m + 1 <-> pTeamID scorer = tiID (mHomeTeam m)) /\
    (* the scorer, and nobody else, is credited with a goal *)
    (pGoals <$> players s' !! k = Some (pGoals scorer + 1)) /\
    (forall j, j <> k -> pGoals <$> players s' !! j = pGoals <$> players s !! j) /\
    (* an assist goes to the last toucher at most, a team mate of the scorer *)
    (forall j, pAssists <$> players s' !! j = pAssists <$> players s !! j \/
               (j = bLastTouchID ball /\ j <> k /\
                pTeamID <$> players s !! j = Some (pTeamID scorer) /\
                pAssists <$> players s' !! j = (fun p => pAssists p + 1) <$> players s !! j)).

(** The teams of [teamData], as [initializeSimulation] stores them. *)
Definition teamData : list TeamInfo :=
  [ mkTeamInfo 1 "Capricon FC" "CAP" "Stellar Stadium" LeaguePremier [] 0;
    mkTeamInfo 2 "The Galacticons" "GAL" "Nebula Arena" LeaguePremier [] 0;
    mkTeamInfo 3 "Axton Brothers" "AXT" "Quantum Park" LeaguePremier [] 0;
    mkTeamInfo 4 "Deuteron United" "DEU" "Fusion Field" LeaguePremier [] 0;
    mkTeamInfo 5 "Saturn Rovers" "SAT" "Ring Stadium" LeaguePremier [] 0;
    mkTeamInfo 6 "Meteor City" "MET" "Impact Zone" LeaguePremier [] 0;
    mkTeamInfo 7 "Cosmic Wanderers" "COS" "Infinity Ground" LeaguePremier [] 0;
    mkTeamInfo 8 "Pulsar Athletic" "PUL" "Photon Arena" LeaguePremier [] 0;
    mkTeamInfo 9 "Nebula FC" "NEB" "Star Dust Stadium" LeaguePremier [] 0;
    mkTeamInfo 10 "Eclipse United" "ECL" "Shadow Grounds" LeaguePremier [] 0;
    mkTeamInfo 11 "Nova Dynamics" "NOV" "Quantum Field" LeagueCommunityLeague [] 0;
    mkTeamInfo 12 "Starlight FC" "SFC" "Celestial Arena" LeagueCommunityLeague [] 0;
    mkTeamInfo 13 "Orion Warriors" "ORI" "Constellation Park" LeagueCommunityLeague [] 0;
    mkTeamInfo 14 "Zenith United" "ZEN" "Horizon Stadium" LeagueCommunityLeague [] 0;
    mkTeamInfo 15 "Quasar City" "QUA" "Plasma Ground" LeagueCommunityLeague [] 0;
    mkTeamInfo 16 "Astral Rovers" "AST" "Galaxy Dome" LeagueCommunityLeague [] 0;
    mkTeamInfo 17 "Eclipse Knights" "EKN" "Shadow Field" LeagueCommunityLeague [] 0;
    mkTeamInfo 18 "Neutron FC" "NEU" "Energy Arena" LeagueCommunityLeague [] 0;
    mkTeamInfo 19 "Vortex Athletic" "VOR" "Cyclone Stadium" LeagueCommunityLeague [] 0;
    mkTeamInfo 20 "Cosmic Rangers" "COS" "Meteor Ground" LeagueCommunityLeague [] 0 ].

(** The state with the teams stored and nothing else. *)
Definition teamsOnly : State :=
  mkState ∅ ∅ ∅ ∅ (list_to_map ((fun t => (tiID t, t)) <$> teamData)) ∅ ∅ ∅ [] ∅
    1 1 0 0 ∅ ∅ ∅ ∅.

(** The state after the season schedules of both leagues are generated. *)
Definition scheduled : State :=
  generateSeasonSchedule 0 LeagueCommunityLeague
    (generateSeasonSchedule 0 LeaguePremier teamsOnly).

(** Observations on a slice of fixtures: the fixtures a team plays in,
    the fixtures one team hosts against another, the fixtures between two
    teams, and the matchdays used. *)
Definition countWhere {A} (p : A -> bool) (l : list A) : Z :=
  Z.of_nat (length (List.filter p l)).

Definition fixturesOfTeam (t : Z) (l : list SeasonSchedule) : Z :=
  countWhere (fun f => (ssHomeTeam f =? t) || (ssAwayTeam f =? t)) l.

Definition fixturesHosting (h a : Z) (l : list SeasonSchedule) : Z :=
  countWhere (fun f => (ssHomeTeam f =? h) && (ssAwayTeam f =? a)) l.

Definition fixturesBetween (a b : Z) (l : list SeasonSchedule) : Z :=
  fixturesHosting a b l + fixturesHosting b a l.

Definition matchdaysOf (l : list SeasonSchedule) : list Z :=
  remove_dups (map ssMatchday l).

(** An insertion sort, one function [sort.Slice] may be. *)
Fixpoint insertSorted {A} (less : A -> A -> bool) (x : A) (l : list A) : list A :=
  match l with
  | [] => [x]
  | y :: rest => if less y x then y :: insertSorted less x rest else x :: l
  end.

Definition insertionSort (A : Type) (less : A -> A -> bool) (l : list A) : list A :=
  foldr (insertSorted less) [] l.

Definition kickoffDraws : KickoffDraws := mkKickoffDraws 3 777 0 10 0 1.

(** The sweeps of a ticker of the given period, the first one [phase]
    after the time origin and one period later; no event is drawn. *)
Definition tickerSweeps (phase period : Z) (n : nat) : list (Z * bool) :=
  (fun k => (phase + period * Z.of_nat (S k), false)) <$> seq 0 n.

(** The match after each sweep. *)
Fixpoint traceTicks (ticks : list (Z * bool)) (m : Match) : list Match :=
  match ticks with
  | [] => []
  | tick :: rest => let m' := engineTick m tick in m' :: traceTicks rest m'
  end.

(** The elapsed match time [updateLiveMatchWithBreaks] works with. *)
Definition elapsedAt (now : Z) (m : Match) : Z := now - mStartTime m.

(** A state at the end of a season: every fixture of both leagues played,
    the four players of [demoPlayers] in the pool. *)
Definition seasonOver : State :=
  set_players demoPlayers
    (set_seasonSchedules
       (fmap (M := gmap string) (fmap (M := list) (markPlayed 0))
             (seasonSchedules scheduled))
       scheduled).

Definition isSome {A} (o : option A) : bool :=
  match o with Some _ => true | None => false end.

(** Renaming the teams of a fixture. *)
Definition relabel (g : Z -> Z) (f : SeasonSchedule) : SeasonSchedule :=
  mkSeasonSchedule (ssMatchday f) (ssLeague f) (g (ssHomeTeam f)) (g (ssAwayTeam f))
    (ssIsPlayed f) (ssMatchID f) (ssScheduledAt f).

Definition relabelRound (g : Z -> Z) (m : RoundMatch) : RoundMatch :=
  mkRoundMatch (g (rmHome m)) (g (rmAway m)).

(** The positions of a ten-team slice. *)
Definition tenPositions : list Z := [0; 1; 2; 3; 4; 5; 6; 7; 8; 9].

Definition teamAt (ts : list Z) (position : Z) : Z :=
  default 0 (ts !! Z.to_nat position).

Definition inTenPositions (f : SeasonSchedule) : bool :=
  (0 <=? ssHomeTeam f) && (ssHomeTeam f <=? 9) &&
  (0 <=? ssAwayTeam f) && (ssAwayTeam f <=? 9).

(** ** Further functions of the engine *)

(** *** Fixture queries and the post-match break *)

(** [getScheduledMatches]: pointers to the league's fixtures of a
    matchday. *)
Definition getScheduledMatches (s : State) (league : string) (matchday : Z)
    : list (nat * SeasonSchedule) :=
  List.filter (fun e => ssMatchday e.2 =? matchday) (pointers (schedulesOf s league)).

(** [getNextUnplayedMatchForLeague]. *)
Definition getNextUnplayedMatchForLeague (s : State) (league : string) : option nat :=
  firstPointer (fun schedule => negb (ssIsPlayed schedule)) (pointers (schedulesOf s league)).

(** [startCooldownAndCreateNext], from the moment the post-match break is
    over. *)
Definition startCooldownAndCreateNext (now : Z) (d : KickoffDraws) (finishedMatchID : Z)
    (s : State) : State :=
  let s := match matches s !! finishedMatchID with
           | Some m =>
               set_matches (delete finishedMatchID (matches s))
                 (set_finishedMatches (<[finishedMatchID := m]> (finishedMatches s)) s)
           | None => s
           end in
  createNextMatch now d s.

(** *** Player generation *)

Record PlayerCharacteristics := mkPlayerCharacteristics {
  pcSpeed : Z;
  pcShooting : Z;
  pcPassing : Z;
  pcDefending : Z;
  pcPhysicality : Z;
  pcMentality : Z;
  pcOverall : Z
}.

(** The six draws of [generatePlayerCharacteristics], in program order. *)
Record CharacteristicDraws := mkCharacteristicDraws {
  drawSpeed : nat;
  drawShooting : nat;
  drawPassing : nat;
  drawDefending : nat;
  drawPhysicality : nat;
  drawMentality : nat
}.

(** [rand.Intn(n)] on the draw [draw]. *)
Definition Intn (draw : nat) (n : Z) : Z := Z.of_nat draw `mod` n.

(** The helpers [min] and [max] on [int]. *)
Definition minInt (a b : Z) : Z := if a <? b then a else b.
Definition maxInt (a b : Z) : Z := if b <? a then a else b.

(** [generatePlayerCharacteristics]; the position is a string in the
    program, [None] is a string that names no position (the [default]
    case). *)
Definition generatePlayerCharacteristics (position : option Position)
    (d : CharacteristicDraws) : PlayerCharacteristics :=
  let '(speed, shooting, passing, defending, physicality, mentality) :=
    match position with
    | Some PosGK =>
        (20 + Intn (drawSpeed d) 30, 10 + Intn (drawShooting d) 20,
         40 + Intn (drawPassing d) 40, 60 + Intn (drawDefending d) 40,
         60 + Intn (drawPhysicality d) 40, 70 + Intn (drawMentality d) 30)
    | Some PosCB =>
        (30 + Intn (drawSpeed d) 40, 20 + Intn (drawShooting d) 30,
         50 + Intn (drawPassing d) 40, 70 + Intn (drawDefending d) 30,
         70 + Intn (drawPhysicality d) 30, 60 + Intn (drawMentality d) 40)
    | Some PosLB | Some PosRB =>
        (60 + Intn (drawSpeed d) 40, 30 + Intn (drawShooting d) 40,
         60 + Intn (drawPassing d) 40, 60 + Intn (drawDefending d) 40,
         50 + Intn (drawPhysicality d) 40, 50 + Intn (drawMentality d) 40)
    | Some PosCDM =>
        (40 + Intn (drawSpeed d) 40, 40 + Intn (drawShooting d) 40,
         70 + Intn (drawPassing d) 30, 70 + Intn (drawDefending d) 30,
         60 + Intn (drawPhysicality d) 40, 60 + Intn (drawMentality d) 40)
    | Some PosCM =>
        (50 + Intn (drawSpeed d) 40, 50 + Intn (drawShooting d) 40,
         70 + Intn (drawPassing d) 30, 50 + Intn (drawDefending d) 40,
         50 + Intn (drawPhysicality d) 40, 60 + Intn (drawMentality d) 40)
    | Some PosCAM =>
        (60 + Intn (drawSpeed d) 40, 70 + Intn (drawShooting d) 30,
         70 + Intn (drawPassing d) 30, 30 + Intn (drawDefending d) 40,
         40 + Intn (drawPhysicality d) 40, 70 + Intn (drawMentality d) 30)
    | Some PosLW | Some PosRW =>
        (70 + Intn (drawSpeed d) 30, 60 + Intn (drawShooting d) 40,
         60 + Intn (drawPassing d) 40, 30 + Intn (drawDefending d) 40,
         40 + Intn (drawPhysicality d) 40, 60 + Intn (drawMentality d) 40)
    | Some PosST =>
        (60 + Intn (drawSpeed d) 40, 80 + Intn (drawShooting d) 20,
         50 + Intn (drawPassing d) 40, 20 + Intn (drawDefending d) 30,
         60 + Intn (drawPhysicality d) 40, 70 + Intn (drawMentality d) 30)
    | None =>
        (50 + Intn (drawSpeed d) 40, 50 + Intn (drawShooting d) 40,
         50 + Intn (drawPassing d) 40, 50 + Intn (drawDefending d) 40,
         50 + Intn (drawPhysicality d) 40, 50 + Intn (drawMentality d) 40)
    end in
  let overall :=
    Z.quot (speed + shooting + passing + defending + physicality + mentality) 6 in
  mkPlayerCharacteristics speed shooting passing defending physicality mentality overall.

(** [calculateMarketValue]; [draw] is the draw of [rand.Intn(30)]. *)
Definition calculateMarketValue (characteristics : PlayerCharacteristics) (draw : nat) : Z :=
  let baseValue := Z.quot (pcOverall characteristics) 2 in
  let variation := Intn draw 30 - 15 in
  maxInt 5 (minInt 200 (baseValue + variation)).

(** *** Player ratings at full time *)

(** [calculateIndividualRating]: the rating and the player after the write
    to [CurrentRating]; [roll] is the draw of [rand.Float64()] of the
    attacker and midfielder cases. *)
Definition calculateIndividualRating (roll : Q) (player : Player) (m : Match)
    (isHome : bool) : Q * Player :=
  let baseRating := 6.0%Q in
  let performanceBonus := (pCurrentRating player - 6.0)%Q in
  let baseRating := (baseRating + Qmax (-2.5) (Qmin 4.0 performanceBonus))%Q in
  let baseRating :=
    match pPosition player with
    | PosGK =>
        let oppScore := if isHome then mAwayScore m else mHomeScore m in
        if oppScore =? 0 then (baseRating + 1.0)%Q
        else if 3 <=? oppScore then (baseRating - 0.5)%Q
        else baseRating
    | PosST | PosLW | PosRW =>
        if (0 <? GoalsThisSeason (pSeasonStats player)) && Qltb roll 0.3
        then (baseRating + 0.8)%Q else baseRating
    | PosCB | PosLB | PosRB =>
        let oppScore := if isHome then mAwayScore m else mHomeScore m in
        if oppScore =? 0 then (baseRating + 0.7)%Q
        else if 2 <=? oppScore then (baseRating - 0.4)%Q
        else baseRating
    | PosCM | PosCAM | PosCDM =>
        if (0 <? AssistsThisSeason (pSeasonStats player)) && Qltb roll 0.2
        then (baseRating + 0.5)%Q else baseRating
    end in
  let teamScore := if isHome then mHomeScore m else mAwayScore m in
  let oppScore := if isHome then mAwayScore m else mHomeScore m in
  let baseRating :=
    if oppScore <? teamScore then (baseRating + 0.4)%Q
    else if teamScore <? oppScore then (baseRating - 0.4)%Q
    else (baseRating + 0.1)%Q in
  let baseRating := if 0 <? pYellowCards player then (baseRating - 0.3)%Q else baseRating in
  let baseRating := if 0 <? pRedCards player then (baseRating - 1.5)%Q else baseRating in
  (Qmax 3.0 (Qmin 10.0 baseRating),
   mkPlayer (pID player) (pName player) (pPosition player) (pTeamID player) (pGoals player)
     (pAssists player) (pYellowCards player) (pRedCards player) (pAppearances player)
     (pSeasonStats player) 6.0).

Definition updatePlayerSeasonStats (player : Player) (rating : Q) (minutesPlayed : Z)
    : Player :=
  let t := pSeasonStats player in
  let matchesPlayed := MatchesPlayed t + 1 in
  let totalRating := (TotalRating t + rating)%Q in
  mkPlayer (pID player) (pName player) (pPosition player) (pTeamID player) (pGoals player)
    (pAssists player) (pYellowCards player) (pRedCards player) (pAppearances player + 1)
    (mkPlayerSeasonStats matchesPlayed (MinutesPlayed t + minutesPlayed)
       (GoalsThisSeason t) (AssistsThisSeason t) (YellowCardsThisSeason t)
       (RedCardsThisSeason t) (totalRating / inject_Z matchesPlayed)%Q totalRating)
    (pCurrentRating player).

(** The body of the two loops of [calculatePlayerRatings]: [acc] is the
    player pool and [match.PlayerRatings], [k] the pointer to the player. *)
Definition ratePlayer (rolls : Z -> Q) (m : Match) (isHome : bool)
    (acc : gmap Z Player * gmap Z Q) (k : Z) : gmap Z Player * gmap Z Q :=
  match acc.1 !! k with
  | None => acc
  | Some player =>
      let '(rating, player) := calculateIndividualRating (rolls k) player m isHome in
      (<[k := updatePlayerSeasonStats player rating 90]> acc.1,
       <[pID player := rating]> acc.2)
  end.

Definition withPlayerRatings (ratings : gmap Z Q) (m : Match) : Match :=
  mkMatch (mID m) (mHomeTeam m) (mAwayTeam m) (mHomeScore m) (mAwayScore m) (mMinute m)
    (mStatus m) (mCompetition m) (mLastUpdate m) (mVenue m) (mAttendance m) (mWeather m)
    (mTemperature m) (mHomeFormation m) (mAwayFormation m) (mSeason m) (mMatchweekNum m)
    (mStartTime m) (mEndTime m) ratings (mInjuryTime m) (mHalftimeEndTime m) (mIsInBreak m).

(** [calculatePlayerRatings(match)] for the match stored under [matchID];
    [homeRolls] and [awayRolls] give the draw of each player of the two
    loops. *)
Definition calculatePlayerRatings (homeRolls awayRolls : Z -> Q) (matchID : Z) (s : State)
    : State :=
  match matches s !! matchID with
  | None => s
  | Some m =>
      let homePlayers := (getPlayersFromTeam s (tiID (mHomeTeam m))).*1 in
      let awayPlayers := (getPlayersFromTeam s (tiID (mAwayTeam m))).*1 in
      let acc := fold_left (ratePlayer homeRolls m true) homePlayers
                   (players s, mPlayerRatings m) in
      let acc := fold_left (ratePlayer awayRolls m false) awayPlayers acc in
      set_players acc.1 (set_matches (<[matchID := withPlayerRatings acc.2 m]> (matches s)) s)
  end.

(** [finishMatch(matchID, match)]. *)
Definition finishMatch (now : Z) (homeRolls awayRolls : Z -> Q) (matchID : Z) (s : State)
    : State :=
  match matches s !! matchID with
  | None => s
  | Some m =>
      let m := withClock (mMinute m) StatusFinished (mStartTime m) (Some now)
                 (mHalftimeEndTime m) (mIsInBreak m) (mLastUpdate m) m in
      let s := set_matches (<[matchID := m]> (matches s)) s in
      let s := calculatePlayerRatings homeRolls awayRolls matchID s in
      addLiveCommentary now matchID (mMinute m)
        ("Full time! " +:+ tiName (mHomeTeam m) +:+ " " +:+ pretty (mHomeScore m) +:+
         " - " +:+ pretty (mAwayScore m) +:+ " " +:+ tiName (mAwayTeam m))
        EventCommentary None s
  end.

(** *** The ball *)



(** The two writes that put the ball back in play. *)
Definition startPlay (possessorID : Z) (ball : BallPosition) : BallPosition :=
  mkBallPosition (bX ball) (bY ball) possessorID (bLastTouchID ball) (bSpeed ball)
    (bDirection ball) (bTimestamp ball) BallEventPlay (bEventStarted ball).

(** [handleKickoffBallEvent(matchID, ball)]; [ball] is
    [ballPositions[matchID]]. *)
Definition handleKickoffBallEvent (now : Z) (matchID : Z) (s : State) : State :=
  match ballPositions s !! matchID with
  | None => s
  | Some ball =>
      if 3 * Second <? now - bEventStarted ball then
        match matches s !! matchID with
        | None => s
        | Some m =>
            match List.find (fun '(_, player) => bool_decide (pPosition player = PosCM))
                            (getPlayersFromTeam s (tiID (mHomeTeam m))) with
            | Some (_, player) =>
                set_ballPositions (<[matchID := startPlay (pID player) ball]> (ballPositions s)) s
            | None => s
            end
        end
      else s
  end.


(** [checkBallOutOfBounds(matchID, ball)]; the throw-in check reads the
    ball as the first check left it. *)
Definition checkBallOutOfBounds (now : Z) (matchID : Z) (s : State) : State :=
  match matches s !! matchID, ballPositions s !! matchID with
  | Some m, Some ball =>
      let s :=
        if (Qle_bool (bX ball) 0 || Qle_bool FieldWidth (bX ball)) &&
           (Qle_bool 0 (bY ball) && Qle_bool (bY ball) FieldHeight)
        then
          let isHomeAttack := Qle_bool (FieldWidth / 2) (bX ball) in
          if Qle_bool (bY ball) 5 || Qle_bool (FieldHeight - 5) (bY ball) then
            if isHomeAttack then
              let s := setBallEvent now matchID BallEventCorner (FieldWidth - 1) (bY ball)
                         0 s in
              addLiveCommentary now matchID (mMinute m) "Corner kick!" EventCorner None s
            else
              let s := setBallEvent now matchID BallEventGoalkick 6 (FieldHeight / 2) 0 s in
              addLiveCommentary now matchID (mMinute m) "Goal kick" EventCommentary None s
          else s
        else s in
      match ballPositions s !! matchID with
      | Some ball =>
          if Qle_bool (bY ball) 0 || Qle_bool FieldHeight (bY ball) then
            let throwY := Qmax 1 (Qmin (FieldHeight - 1) (bY ball)) in
            let s := setBallEvent now matchID BallEventThrowIn (bX ball) throwY 0 s in
            addLiveCommentary now matchID (mMinute m) "Throw-in" EventCommentary None s
          else s
      | None => s
      end
  | _, _ => s
  end.

(** *** Fouls *)

(** [getPlayersNearAction]: pointers to the players within [radius] of the
    ball, each with the record it points to; [radius] is not negative. *)
Definition getPlayersNearAction (s : State) (matchID : Z) (ball : BallPosition) (radius : Q)
    : list (Z * Player) :=
  match playerLocations s !! matchID with
  | None => []
  | Some locations =>
      omap (fun '(playerID, location) =>
              match players s !! playerID with
              | Some player =>
                  let distance2 :=
                    (sq (plX location - bX ball) + sq (plY location - bY ball))%Q in
                  if Qle_bool distance2 (sq radius) then Some (playerID, player) else None
              | None => None
              end)
           (map_to_list locations)
  end.

Definition determineFoulContext (s : State) (ball : BallPosition) : FoulContext :=
  let isInPenaltyArea :=
    (Qle_bool (bX ball) 18 && Qle_bool 20 (bY ball) && Qle_bool (bY ball) 44) ||
    (Qle_bool (FieldWidth - 18) (bX ball) && Qle_bool 20 (bY ball) &&
     Qle_bool (bY ball) 44) in
  (* the square of distanceToGoal *)
  let distanceToGoal2 :=
    Qmin (sq (bX ball) + sq (bY ball - FieldHeight / 2))
         (sq (bX ball - FieldWidth) + sq (bY ball - FieldHeight / 2)) in
  let isNearGoal := Qltb distanceToGoal2 (sq 25) in
  let isDangerousPlay :=
    Qltb 8.0 (bSpeed ball) && (Qltb (bX ball) 30 || Qltb 70 (bX ball)) in
  let ballPossessorTeam :=
    if 0 <? bPossessorID ball then
      match players s !! bPossessorID ball with
      | Some player => pTeamID player
      | None => 0
      end
    else 0 in
  mkFoulContext isInPenaltyArea isNearGoal false isDangerousPlay ballPossessorTeam.

(** The weight [selectFouler] gives a candidate. *)
Definition foulWeight (context : FoulContext) (player : Player) : Q :=
  let weight := 1.0%Q in
  let weight :=
    if negb (BallPossessorTeam context =? 0) &&
       negb (pTeamID player =? BallPossessorTeam context)
    then (weight * 2.0)%Q else weight in
  let weight :=
    match pPosition player with
    | PosCB | PosCDM => (weight * 1.5)%Q
    | PosLB | PosRB => (weight * 1.3)%Q
    | PosCM => (weight * 1.0)%Q
    | PosCAM | PosLW | PosRW => (weight * 0.8)%Q
    | PosST => (weight * 0.6)%Q
    | PosGK => if IsInPenaltyArea context then (weight * 1.8)%Q else (weight * 0.1)%Q
    end in
  let weight := if IsNearGoal context then (weight * 1.4)%Q else weight in
  if IsDangerousPlay context then (weight * 1.6)%Q else weight.

(** The selection loop of [selectFouler]: the first candidate at which the
    running sum of the weights reaches [r]. *)
Fixpoint pickByWeight (context : FoulContext) (r cumulative : Q)
    (candidates : list (Z * Player)) : option (Z * Player) :=
  match candidates with
  | [] => None
  | candidate :: rest =>
      let cumulative := (cumulative + foulWeight context candidate.2)%Q in
      if Qle_bool r cumulative then Some candidate
      else pickByWeight context r cumulative rest
  end.

(** [selectFouler]; [u] is the draw of [rand.Float64()]. *)
Definition selectFouler (candidates : list (Z * Player)) (ball : BallPosition)
    (context : FoulContext) (u : Q) : option (Z * Player) :=
  if (length candidates =? 0)%nat then None
  else
    let totalWeight :=
      fold_left (fun total candidate => (total + foulWeight context candidate.2)%Q)
                candidates 0%Q in
    let r := (u * totalWeight)%Q in
    match pickByWeight context r 0 candidates with
    | Some candidate => Some candidate
    | None => last candidates
    end.

(** The four draws of [determineFoulSeverity], in program order. *)
Record SeverityDraws := mkSeverityDraws {
  drawPenaltyArea : Q;
  drawGoalkeeper : Q;
  drawLastMan : Q;
  drawDangerous : Q
}.

Definition determineFoulSeverity (fouler : Player) (ball : BallPosition)
    (context : FoulContext) (d : SeverityDraws) : string :=
  let baseSeverity := "yellow" in
  let baseSeverity :=
    if IsInPenaltyArea context then
      if Qltb (drawPenaltyArea d) 0.3 then "red" else baseSeverity
    else baseSeverity in
  let baseSeverity :=
    if bool_decide (pPosition fouler = PosGK) && negb (IsInPenaltyArea context) &&
       Qltb 5.0 (bSpeed ball)
    then if Qltb (drawGoalkeeper d) 0.6 then "red" else baseSeverity
    else baseSeverity in
  let baseSeverity :=
    if IsNearGoal context && bool_decide (pPosition fouler = PosCB) then
      if Qltb (drawLastMan d) 0.4 then "red" else baseSeverity
    else baseSeverity in
  if IsDangerousPlay context && Qltb (drawDangerous d) 0.25 then "red" else baseSeverity.

(** [handleFoulEvent(matchID, match)]. *)
Definition handleFoulEvent (now : Z) (u : Q) (d : SeverityDraws) (matchID : Z) (s : State)
    : option State :=
  match ballPositions s !! matchID with
  | None => Some s
  | Some ball =>
      let playersNearBall := getPlayersNearAction s matchID ball 8.0 in
      if (length playersNearBall <? 2)%nat then Some s
      else
        let foulContext := determineFoulContext s ball in
        match selectFouler playersNearBall ball foulContext u with
        | None => Some s
        | Some (fouler, player) =>
            let severity := determineFoulSeverity player ball foulContext d in
            applyFoulConsequences now matchID fouler severity foulContext s
        end
  end.

(** *** League table after a result *)

(** The second half of [updateLeagueTable]: the calls of [updateTeamStats]
    for the result of the match. *)
Definition recordResult (now : Z) (m : Match) (s : State) : State :=
  if mAwayScore m <? mHomeScore m then
    updateTeamStats now (tiID (mAwayTeam m)) 0 0 0 1 m
      (updateTeamStats now (tiID (mHomeTeam m)) 3 1 0 0 m s)
  else if mHomeScore m <? mAwayScore m then
    updateTeamStats now (tiID (mHomeTeam m)) 0 0 0 1 m
      (updateTeamStats now (tiID (mAwayTeam m)) 3 1 0 0 m s)
  else
    updateTeamStats now (tiID (mAwayTeam m)) 1 0 1 0 m
      (updateTeamStats now (tiID (mHomeTeam m)) 1 0 1 0 m s).

(** ** Vocabulary of the further properties *)

(** A list of instants or minutes that never goes back, from [t] on. *)
Fixpoint nondecreasingFrom (t : Z) (l : list Z) : Prop :=
  match l with
  | [] => True
  | u :: rest => t <= u /\ nondecreasingFrom u rest
  end.

(** The clock of a match is consistent at the instant [last] of the latest
    sweep: the minute shown has been played.  During the halftime break
    the played time is measured at the instant the break began. *)
Definition clockOk (last : Z) (m : Match) : Prop :=
  0 <= mMinute m /\
  match mStatus m with
  | StatusLive => mMinute m * Second <= last - mStartTime m
  | StatusHalftime =>
      mMinute m * Second
        <= mHalftimeEndTime m - HalftimeBreakSeconds * Second - mStartTime m /\
      mHalftimeEndTime m - HalftimeBreakSeconds * Second <= last
  | _ => True
  end.

(** The fixtures of both leagues point to stored teams. *)
Definition fixtureTeamsExist (s : State) : Prop :=
  forall league f,
    league ∈ leagueOrder -> f ∈ schedulesOf s league ->
    is_Some (teams s !! ssHomeTeam f) /\ is_Some (teams s !! ssAwayTeam f).

(** Every team is stored under its own id. *)
Definition teamsKeyed (s : State) : Prop :=
  forall (k : Z) (t : TeamInfo), teams s !! k = Some t -> tiID t = k.

(** The commentary feeds are in order: at most 30 entries each, newest
    first with strictly decreasing ids, none above the counter. *)
Definition feedOrdered (s : State) : Prop :=
  forall (matchID : Z) (feed : list LiveCommentary),
    liveCommentary s !! matchID = Some feed ->
    (length feed <= 30)%nat /\
    StronglySorted (fun a b => lcID b < lcID a) feed /\
    Forall (fun c => lcID c <= commentaryCounter s) feed.

(** A standings row adds up. *)
Definition rowConsistent (r : LeagueTable) : Prop :=
  ltPlayed r = ltWon r + ltDrawn r + ltLost r /\
  ltGoalDiff r = ltGoalsFor r - ltGoalsAgainst r.

Definition tablesConsistent (s : State) : Prop :=
  forall (league : string) (table : list LeagueTable),
    leagueTables s !! league = Some table -> Forall rowConsistent table.

(** The points of a table, and the ids of the teams it lists. *)
Definition totalPoints (table : list LeagueTable) : Z :=
  foldr Z.add 0 (ltPoints <$> table).

Definition tableTeams (table : list LeagueTable) : list Z :=
  (fun r => tiID (ltTeam r)) <$> table.

(** The team has a row in the table. *)
Definition hasRow (teamID : Z) (table : list LeagueTable) : bool :=
  existsb (fun r => tiID (ltTeam r) =? teamID) table.

(** The players [findNearestAttackingPlayer] considers, the square of
    the distance of a location from the ball, and the team it takes for the
    attacking side. *)
Definition isAttacker (player : Player) : bool :=
  match pPosition player with
  | PosST | PosCAM | PosLW | PosRW => true
  | _ => false
  end.

Definition distance2 (ball : BallPosition) (location : PlayerLocation) : Q :=
  (sq (plX location - bX ball) + sq (plY location - bY ball))%Q.

Definition attackingTeamOf (m : Match) (ball : BallPosition) : Z :=
  if Qltb 50 (bX ball) then tiID (mHomeTeam m) else tiID (mAwayTeam m).

(** A player of the attacking side in an attacking position, placed at
    [location]. *)
Definition attackerAt (s : State) (locations : gmap Z PlayerLocation) (team : Z)
    (k : Z) (location : PlayerLocation) : Prop :=
  locations !! k = Some location /\
  exists p, players s !! k = Some p /\ pTeamID p = team /\ isAttacker p = true.

(** The fouler of a foul has one card more, yellow or red, and nobody
    else is changed. *)
Definition bookedOnce (s s' : State) (fouler : Z) (p : Player) : Prop :=
  players s' = <[fouler := bookYellow 0.3 p]> (players s) \/
  players s' = <[fouler := bookRed 1.5 p]> (players s).

(** A sequence of calls of [createNextMatch]. *)
Definition createMatches (calls : list (Z * KickoffDraws)) (s : State) : State :=
  fold_left (fun s call => createNextMatch call.1 call.2 s) calls s.

(** The ball lies on the pitch, boundary included. *)
Definition onPitch (ball : BallPosition) : Prop :=
  (0 <= bX ball <= FieldWidth)%Q /\ (0 <= bY ball <= FieldHeight)%Q.

(** The ball of [demoState] put at a given spot, held by nobody. *)
Definition looseBallAt (x y : Q) : BallPosition :=
  mkBallPosition x y 0 0 0 0 0 BallEventPlay 0.

(** [demoState] with the four players placed around the ball at (90, 32)
    and the ball loose. *)
Definition demoLocations : gmap Z PlayerLocation :=
  list_to_map
    [ (1, mkPlayerLocation 1 88 32 0);
      (2, mkPlayerLocation 2 80 30 0);
      (3, mkPlayerLocation 3 91 33 0);
      (4, mkPlayerLocation 4 20 32 0) ].

Definition crowdedState (ball : BallPosition) : State :=
  set_ballPositions {[1 := ball]} (set_playerLocations {[1 := demoLocations]} demoState).

(** [demoState] with a schedule of two Premier League fixtures between its
    two teams, the first of them played as match 1. *)
Definition demoFixtures : list SeasonSchedule :=
  [ mkSeasonSchedule 1 LeaguePremier 1 2 true 1 0;
    mkSeasonSchedule 2 LeaguePremier 2 1 false 0 0 ].

Definition demoSeason : State :=
  set_seasonSchedules {[LeaguePremier := demoFixtures]} demoState.

(** Draws of [determineFoulSeverity] that never give a red card. *)
Definition calmDraws : SeverityDraws := mkSeverityDraws 1 1 1 1.

(** [demoState] with a central midfielder in the home squad. *)
Definition kickoffState : State :=
  set_players (<[5 := demoPlayer 5 "Jack Taylor 5" PosCM 1]> demoPlayers) demoState.

(** The squad [initializeSimulation] gives every team: 19 players with
    these positions, in this order, numbered from [firstID]. *)
Definition squadPositions : list Position :=
  [PosGK; PosGK; PosCB; PosCB; PosCB; PosLB; PosLB; PosRB; PosRB; PosCDM; PosCDM;
   PosCM; PosCM; PosCM; PosCAM; PosLW; PosRW; PosST; PosST].

Definition squadOf (firstID teamID : Z) : list (Z * Player) :=
  imap (fun i position =>
          let id := firstID + Z.of_nat i in
          (id, demoPlayer id ("Harry Clarke " +:+ pretty (i + 1)%nat) position teamID))
       squadPositions.

(** Eleven players a side on the pitch.  The home striker 18 and the away
    centre-back 22 are the only players within 8 units of (90, 32). *)
Definition placed (id : Z) (x y : Q) : Z * PlayerLocation :=
  (id, mkPlayerLocation id x y 0).

Definition matchdayLocations : gmap Z PlayerLocation :=
  list_to_map
    [ placed 1 5 32; placed 3 25 24; placed 4 25 40; placed 6 30 10; placed 8 30 54;
      placed 10 45 32; placed 12 55 22; placed 13 55 42; placed 15 70 32;
      placed 18 88 32; placed 19 80 44;
      placed 20 99 32; placed 22 91 33; placed 23 84 22; placed 25 80 54;
      placed 27 80 10; placed 29 72 30; placed 31 65 20; placed 32 65 44;
      placed 34 50 32; placed 37 40 26; placed 38 40 38 ].

(** The ball at the feet of the home striker 18 in the away penalty area,
    last touched by the playmaker 15. *)
Definition penaltyAreaBall : BallPosition :=
  mkBallPosition 90 32 18 15 1 0 0 BallEventPlay 0.

(** The demo match in minute 10 with full squads: players 1 to 19 for the
    home team, 20 to 38 for the away team. *)
Definition matchdayState : State :=
  set_ballPositions {[1 := penaltyAreaBall]}
    (set_playerLocations {[1 := matchdayLocations]}
       (set_players (list_to_map (squadOf 1 1 ++ squadOf 20 2)) demoState)).

(** Draws of [determineFoulSeverity] that send off for a foul in the
    penalty area: the first is below 0.3, the others decide nothing. *)
Definition redDraws : SeverityDraws := mkSeverityDraws 0.1 0.9 0.9 0.9.



(** Four teams for a small league. *)
Definition fourTeams : list Z := [1; 2; 3; 4].

(** The ratings stored with a match are marks between 3 and 10. *)
Definition ratingsInRange (ratings : gmap Z Q) : Prop :=
  forall (id : Z) (r : Q), ratings !! id = Some r -> (3 <= r <= 10)%Q.

(** What full time does to a player who was rated. *)
Definition ratedFrom (p p' : Player) : Prop :=
  exists rating : Q,
    (3 <= rating <= 10)%Q /\
    pCurrentRating p' = 6.0%Q /\
    pAppearances p' = pAppearances p + 1 /\
    MatchesPlayed (pSeasonStats p') = MatchesPlayed (pSeasonStats p) + 1 /\
    MinutesPlayed (pSeasonStats p') = MinutesPlayed (pSeasonStats p) + 90 /\
    TotalRating (pSeasonStats p') = (TotalRating (pSeasonStats p) + rating)%Q /\
    AverageRating (pSeasonStats p') =
      (TotalRating (pSeasonStats p') / inject_Z (MatchesPlayed (pSeasonStats p')))%Q /\
    pGoals p' = pGoals p /\ pAssists p' = pAssists p /\ pTeamID p' = pTeamID p /\
    pID p' = pID p.

(** * Properties *)

(** ** Momentum and probabilities *)

Lemma Qltb_true (x y : Q) : Qltb x y = true <-> (x < y)%Q.
Proof.
  unfold Qltb. rewrite negb_true_iff. split.
  - intros H. apply Qnot_le_lt. intros Hle. apply Qle_bool_iff in Hle. congruence.
  - intros H. destruct (Qle_bool y x) eqn:E; [|reflexivity].
    apply Qle_bool_iff in E. exfalso. eapply Qlt_not_le; eauto.
Qed.

Lemma Qltb_false (x y : Q) : Qltb x y = false <-> (y <= x)%Q.
Proof.
  unfold Qltb. rewrite negb_false_iff. apply Qle_bool_iff.
Qed.

Lemma clamp_bounds (lo hi x : Q) : (lo <= hi)%Q -> (lo <= clamp lo hi x <= hi)%Q.
Proof.
  intros H. unfold clamp. split.
  - apply Q.le_max_l.
  - apply Q.max_lub; [assumption | apply Q.le_min_l].
Qed.

Lemma clamp_id (lo hi x : Q) : (lo <= x)%Q -> (x <= hi)%Q -> (clamp lo hi x == x)%Q.
Proof.
  intros H1 H2. unfold clamp. rewrite (Q.min_r hi x) by assumption.
  apply Q.max_r. assumption.
Qed.

Lemma share_bounds (x t : Q) : (0 <= x)%Q -> (x <= t)%Q -> (0 < t)%Q -> (0 <= x / t <= 1)%Q.
Proof.
  intros H0 H1 Ht. split.
  - apply Qle_shift_div_l; [assumption | lra].
  - apply Qle_shift_div_r; [assumption | lra].
Qed.

Lemma normalise_shares (h d a : Q) :
  (0 <= h)%Q -> (0 <= d)%Q -> (0 <= a)%Q -> (0 < h + d + a)%Q ->
  normalised ((h / (h + d + a))%Q, (d / (h + d + a))%Q, (a / (h + d + a))%Q).
Proof.
  intros Hh Hd Ha Ht. unfold normalised.
  repeat split; try (apply share_bounds; lra).
  assert (E : (h / (h + d + a) + d / (h + d + a) + a / (h + d + a) - 1 == 0)%Q).
  { field. intros E0. rewrite E0 in Ht. lra. }
  apply Qabs_Qle_condition. split; rewrite E; lra.
Qed.

Lemma calculateTeamStrength_bounds (team : TeamInfo) :
  (0.4 <= calculateTeamStrength team <= 0.7)%Q.
Proof.
  unfold calculateTeamStrength.
  destruct (Qltb _ 0.4) eqn:E1; [lra|].
  destruct (Qltb 0.7 _) eqn:E2; [lra|].
  apply Qltb_false in E1, E2. lra.
Qed.

Lemma calculateMatchProbabilities_normalised (homeTeam awayTeam : TeamInfo) :
  normalised (calculateMatchProbabilities homeTeam awayTeam).
Proof.
  unfold calculateMatchProbabilities.
  pose proof (calculateTeamStrength_bounds homeTeam) as Hh.
  pose proof (calculateTeamStrength_bounds awayTeam) as Ha.
  set (hs := (calculateTeamStrength homeTeam * 1.1)%Q).
  set (as_ := calculateTeamStrength awayTeam) in *.
  assert (Hhs : (0 < hs)%Q) by (unfold hs; lra).
  assert (Has : (0 < as_)%Q) by lra.
  assert (Hw : (0 <= hs / (hs + as_) <= 1)%Q) by (apply share_bounds; lra).
  assert (Hl : (0 <= as_ / (hs + as_) <= 1)%Q) by (apply share_bounds; lra).
  set (hw := (hs / (hs + as_))%Q) in *.
  set (aw := (as_ / (hs + as_))%Q) in *.
  assert (Habs : (Qabs (hw - aw) <= 1)%Q).
  { apply Qabs_Qle_condition. lra. }
  pose proof (Qabs_nonneg (hw - aw)) as Hnn.
  set (dr := (0.3 * (1 - Qabs (hw - aw)))%Q).
  assert (Hdr : (0 <= dr)%Q) by (unfold dr; lra).
  assert (Hsum : (hw + aw == 1)%Q).
  { unfold hw, aw. field. intros E0. assert (0 < hs + as_)%Q by lra. rewrite E0 in *. lra. }
  apply normalise_shares; lra.
Qed.

Lemma adjustedProbabilities_normalised (s : State) (matchID : Z) (m : Match) :
  normalised (adjustedProbabilities s matchID m).
Proof.
  unfold adjustedProbabilities.
  destruct (calculateMatchProbabilities _ _) as [[baseHomeWin baseDraw] baseAwayWin].
  cbv zeta.
  match goal with
  | |- context [Qmax 0.05 (Qmin 0.9 (baseHomeWin + ?adj))] => set (t := adj)
  end.
  set (h := Qmax 0.05 (Qmin 0.9 (baseHomeWin + t))).
  set (a := Qmax 0.05 (Qmin 0.9 (baseAwayWin - t))).
  set (d := Qmax 0.05 (1.0 - h - a)).
  assert (Hh : (0.05 <= h)%Q) by apply Q.le_max_l.
  assert (Ha : (0.05 <= a)%Q) by apply Q.le_max_l.
  assert (Hd : (0.05 <= d)%Q) by apply Q.le_max_l.
  apply normalise_shares; lra.
Qed.

Lemma recalculatedProbabilities_normalised (now : Z) (s : State) (matchID : Z) (m : Match) :
  normalised (winProbabilities (recalculatedProbabilities now s matchID m)).
Proof.
  pose proof (adjustedProbabilities_normalised s matchID m) as H.
  unfold recalculatedProbabilities.
  destruct (adjustedProbabilities s matchID m) as [[h d] a]. exact H.
Qed.

Lemma updatedMomentum_in_range (now : Z) (old : option MatchMomentum) (m : Match)
    (eventType : string) (affectedTeamID : Z) :
  momentumInRange (updatedMomentum now old m eventType affectedTeamID).
Proof.
  unfold updatedMomentum, momentumInRange.
  destruct (momentumSwitch _ _ _ _) as [h a]. simpl.
  split; apply clamp_bounds; lra.
Qed.


(** C6.  After every recalculation the entry of the match holds three win
    probabilities in [0,1] whose sum is within 1e-6 of 1; so do the
    pre-match baseline and the entry [createNextMatch] stores for a new
    match. *)
Theorem probabilities_normalised :
  (forall (now matchID : Z) (m : Match) (s : State),
     exists p,
       dynamicProbabilities (recalculateMatchProbabilities now matchID m s) !! matchID
         = Some p /\
       normalised (winProbabilities p)) /\
  (forall homeTeam awayTeam : TeamInfo,
     normalised (calculateMatchProbabilities homeTeam awayTeam)) /\
  (forall (now : Z) (d : KickoffDraws) (s : State),
     dynamicProbabilities (createNextMatch now d s) = dynamicProbabilities s \/
     exists p,
       dynamicProbabilities (createNextMatch now d s)
         = <[matchCounter s + 1 := p]> (dynamicProbabilities s) /\
       normalised (winProbabilities p)).
Proof.
  split; [|split].
  - intros now matchID m s. eexists. split.
    + unfold recalculateMatchProbabilities. simpl. apply lookup_insert_eq.
    + apply recalculatedProbabilities_normalised.
  - apply calculateMatchProbabilities_normalised.
  - intros now d s. unfold createNextMatch.
    destruct (getNextUnplayedMatch s) as [[league i]|]; [|by left].
    destruct (schedulesOf s league !! i) as [scheduledMatch|]; [|by left].
    destruct (ssIsPlayed scheduledMatch); [by left|].
    destruct (MaxSimultaneousMatches <=? _); [by left|].
    pose proof (calculateMatchProbabilities_normalised
                  (derefTeam s (ssHomeTeam scheduledMatch))
                  (derefTeam s (ssAwayTeam scheduledMatch))) as H.
    destruct (calculateMatchProbabilities _ _) as [[homeWin draw] awayWin].
    right. eexists. split; [reflexivity | exact H].
Qed.

(** C8.  After any event is applied to the momentum of a match, and when a
    match is created, both scalars of the entry lie in [-1, 1]. *)
Theorem momentum_within_bounds :
  (forall (now matchID : Z) (m : Match) (eventType : string) (affectedTeamID : Z)
          (s : State),
     exists mo,
       matchMomentum (updateMatchMomentum now matchID m eventType affectedTeamID s)
         !! matchID = Some mo /\
       momentumInRange mo) /\
  (forall (now : Z) (d : KickoffDraws) (s : State),
     matchMomentum (createNextMatch now d s) = matchMomentum s \/
     exists mo,
       matchMomentum (createNextMatch now d s)
         = <[matchCounter s + 1 := mo]> (matchMomentum s) /\
       momentumInRange mo).
Proof.
  split.
  - intros now matchID m eventType affectedTeamID s. eexists. split.
    + unfold updateMatchMomentum. simpl. apply lookup_insert_eq.
    + apply updatedMomentum_in_range.
  - intros now d s. unfold createNextMatch.
    destruct (getNextUnplayedMatch s) as [[league i]|]; [|by left].
    destruct (schedulesOf s league !! i) as [scheduledMatch|]; [|by left].
    destruct (ssIsPlayed scheduledMatch); [by left|].
    destruct (MaxSimultaneousMatches <=? _); [by left|].
    destruct (calculateMatchProbabilities _ _) as [[homeWin draw] awayWin].
    right. eexists. split; [reflexivity|].
    unfold momentumInRange. simpl. lra.
Qed.

(** ** League tables *)

Lemma ranksBefore_refl (a : LeagueTable) : ranksBefore a a.
Proof. unfold ranksBefore. lia. Qed.

Lemma ranksBefore_trans (a b c : LeagueTable) :
  ranksBefore a b -> ranksBefore b c -> ranksBefore a c.
Proof. unfold ranksBefore. lia. Qed.

Lemma swapNeeded_true (a b : LeagueTable) : swapNeeded a b = true -> ranksBefore b a.
Proof. unfold swapNeeded, ranksBefore. lia. Qed.

Lemma swapNeeded_false (a b : LeagueTable) : swapNeeded a b = false -> ranksBefore a b.
Proof. unfold swapNeeded, ranksBefore. lia. Qed.

(** A pass over [m + 1] rows carries a row that ranks behind all of them
    to the end. *)
Lemma bubblePass_spec (m : nat) (p : list LeagueTable) :
  length p = S m ->
  exists p' w,
    bubblePass m p = p' ++ [w] /\ p ≡ₚ p' ++ [w] /\ Forall (fun x => ranksBefore x w) p.
Proof.
  revert p. induction m as [|m IH]; intros p Hlen.
  - destruct p as [|a [|b rest]]; try discriminate.
    exists [], a. split; [reflexivity|]. split; [reflexivity|].
    constructor; [apply ranksBefore_refl | constructor].
  - destruct p as [|a [|b rest]]; try discriminate. simpl.
    destruct (swapNeeded a b) eqn:E.
    + destruct (IH (a :: rest)) as (p' & w & E1 & E2 & E3); [simpl in *; lia|].
      exists (b :: p'), w. rewrite E1. split; [reflexivity|]. split.
      * rewrite perm_swap. simpl. by rewrite E2.
      * inversion E3 as [|? ? Ha Hrest]; subst.
        constructor; [exact Ha|]. constructor; [|exact Hrest].
        eapply ranksBefore_trans; [apply swapNeeded_true; exact E | exact Ha].
    + destruct (IH (b :: rest)) as (p' & w & E1 & E2 & E3); [simpl in *; lia|].
      exists (a :: p'), w. rewrite E1. split; [reflexivity|]. split.
      * simpl. by rewrite E2.
      * inversion E3 as [|? ? Hb Hrest]; subst.
        constructor; [|constructor; [exact Hb | exact Hrest]].
        eapply ranksBefore_trans; [apply swapNeeded_false; exact E | exact Hb].
Qed.

(** A pass of [m] steps does not touch the rows after index [m]. *)
Lemma bubblePass_app (m : nat) (p q : list LeagueTable) :
  length p = S m -> bubblePass m (p ++ q) = bubblePass m p ++ q.
Proof.
  revert p. induction m as [|m IH]; intros p Hlen.
  - destruct p as [|a [|b rest]]; try discriminate. reflexivity.
  - destruct p as [|a [|b rest]]; try discriminate. simpl.
    destruct (swapNeeded a b); simpl; f_equal.
    + apply (IH (a :: rest)). simpl in *. lia.
    + apply (IH (b :: rest)). simpl in *. lia.
Qed.

Lemma pass_step (table t : list LeagueTable) (i : nat) :
  passInvariant table i t -> (S i < length table)%nat ->
  passInvariant table (S i) (bubblePass (length table - i - 1) t).
Proof.
  intros (pre & suf & -> & Hsuf & Hperm & Hsorted & Hpre) Hi.
  assert (Hlen : length pre = S (length table - i - 1)).
  { apply Permutation_length in Hperm. rewrite length_app in Hperm. lia. }
  rewrite (bubblePass_app _ _ _ Hlen).
  destruct (bubblePass_spec _ _ Hlen) as (p' & w & -> & E2 & E3).
  exists p', (w :: suf).
  assert (Hw : w ∈ pre).
  { rewrite E2. apply elem_of_app. right. by apply list_elem_of_singleton. }
  split; [by rewrite <- app_assoc|].
  split; [simpl; lia|].
  split; [by rewrite <- Hperm, E2|].
  split.
  - constructor; [exact Hsorted|].
    rewrite Forall_forall in Hpre. by apply Hpre.
  - rewrite Forall_forall. intros x Hx.
    assert (Hxpre : x ∈ pre).
    { rewrite E2. apply elem_of_app. by left. }
    constructor.
    + rewrite Forall_forall in E3. by apply E3.
    + rewrite Forall_forall in Hpre. by apply Hpre.
Qed.

Lemma passes_invariant (table : list LeagueTable) (k i : nat) (t : list LeagueTable) :
  passInvariant table i t -> (i + k < length table)%nat ->
  passInvariant table (i + k)
    (fold_left (fun t i => bubblePass (length table - i - 1) t) (seq i k) t).
Proof.
  revert i t. induction k as [|k IH]; intros i t Hinv Hik.
  - by rewrite Nat.add_0_r.
  - simpl. replace (i + S k)%nat with (S i + k)%nat by lia.
    apply IH; [|lia]. apply pass_step; [exact Hinv | lia].
Qed.

Lemma bubbleSort_spec (table : list LeagueTable) :
  bubbleSort table ≡ₚ table /\ StronglySorted ranksBefore (bubbleSort table).
Proof.
  unfold bubbleSort.
  destruct (decide (length table = 0%nat)) as [E|E].
  { destruct table; [|discriminate]. split; [reflexivity | constructor]. }
  assert (H0 : passInvariant table 0 table).
  { exists table, []. rewrite app_nil_r.
    split; [reflexivity|]. split; [reflexivity|]. split; [reflexivity|].
    split; [constructor|]. rewrite Forall_forall. intros; constructor. }
  pose proof (passes_invariant table (length table - 1) 0 table H0 ltac:(lia)) as H.
  rewrite Nat.add_0_l in H.
  destruct H as (pre & suf & Ht & Hsuf & Hperm & Hsorted & Hpre).
  split; [exact Hperm|].
  assert (Hlen : length pre = 1%nat).
  { apply Permutation_length in Hperm. rewrite Ht, length_app in Hperm. lia. }
  rewrite Ht. destruct pre as [|x [|]]; try discriminate. simpl.
  constructor; [exact Hsorted|]. by inversion Hpre.
Qed.

Lemma StronglySorted_lookup (t : list LeagueTable) :
  StronglySorted ranksBefore t ->
  forall (i j : nat) (a b : LeagueTable),
    (i < j)%nat -> t !! i = Some a -> t !! j = Some b -> ranksBefore a b.
Proof.
  induction 1 as [|x t Hs IH Hx]; intros i j a b Hij Ha Hb.
  - discriminate.
  - destruct j as [|j]; [lia|]. simpl in Hb. destruct i as [|i].
    + simpl in Ha. injection Ha as <-.
      rewrite Forall_forall in Hx. apply Hx. eapply list_elem_of_lookup_2; eauto.
    + simpl in Ha. apply (IH i j); [lia | exact Ha | exact Hb].
Qed.

Lemma withPosition_ranks (p q : Z) (a b : LeagueTable) :
  ranksBefore a b -> ranksBefore (withPosition p a) (withPosition q b).
Proof. unfold ranksBefore. simpl. auto. Qed.

Lemma sortLeagueTable_ranked (table : list LeagueTable) :
  tableRanked (sortLeagueTable table).
Proof.
  destruct (bubbleSort_spec table) as [_ Hsorted].
  unfold sortLeagueTable. split.
  - intros i j a b Hij Ha Hb.
    rewrite list_lookup_imap in Ha, Hb.
    destruct (bubbleSort table !! i) as [a'|] eqn:Ea; [|discriminate].
    destruct (bubbleSort table !! j) as [b'|] eqn:Eb; [|discriminate].
    simpl in Ha, Hb. injection Ha as <-. injection Hb as <-.
    apply withPosition_ranks. eapply StronglySorted_lookup; eauto.
  - intros i r Hr. rewrite list_lookup_imap in Hr.
    destruct (bubbleSort table !! i) as [r'|]; [|discriminate].
    simpl in Hr. injection Hr as <-. reflexivity.
Qed.

(** Sorting keeps the rows: up to their position field, the sorted table
    is a rearrangement of the table. *)
Lemma sortLeagueTable_rows (table : list LeagueTable) :
  map (withPosition 0) (sortLeagueTable table) ≡ₚ map (withPosition 0) table.
Proof.
  destruct (bubbleSort_spec table) as [Hperm _].
  unfold sortLeagueTable.
  assert (E : forall (l : list LeagueTable) (k : nat),
            map (withPosition 0) (imap (fun i r => withPosition (Z.of_nat (k + i) + 1) r) l)
            = map (withPosition 0) l).
  { induction l as [|x l IH]; intros k; [reflexivity|].
    simpl. f_equal.
    rewrite <- (IH (S k)). f_equal. apply imap_ext. intros i y _. simpl.
    do 2 f_equal. lia. }
  pose proof (E (bubbleSort table) 0%nat) as E0. simpl in E0. rewrite E0.
  by apply Permutation_map.
Qed.

(** C10.  After the league-table update of a finished match for a team of
    the simulation, every league table is in standings order: points
    non-increasing, goal difference non-increasing among rows with equal
    points, and each row's position equal to its 1-based rank. *)
Theorem updateTeamStats_tables_ranked (now teamID points wins draws losses : Z)
    (m : Match) (s : State) (league : string) (table : list LeagueTable) :
  is_Some (teams s !! teamID) ->
  leagueTables (updateTeamStats now teamID points wins draws losses m s) !! league
    = Some table ->
  tableRanked table.
Proof.
  intros [team Hteam] Htable. unfold updateTeamStats in Htable. rewrite Hteam in Htable.
  simpl in Htable. rewrite lookup_fmap in Htable.
  destruct (leagueTables s !! league) as [old|]; [|discriminate].
  simpl in Htable. injection Htable as <-. apply sortLeagueTable_ranked.
Qed.

(** ** Goal events *)

Lemma setBallEvent_matches (now matchID : Z) (e : BallEvent) (x y : Q) (p : Z) (s : State) :
  matches (setBallEvent now matchID e x y p s) = matches s.
Proof. unfold setBallEvent. by destruct (ballPositions s !! matchID). Qed.

Lemma setBallEvent_players (now matchID : Z) (e : BallEvent) (x y : Q) (p : Z) (s : State) :
  players (setBallEvent now matchID e x y p s) = players s.
Proof. unfold setBallEvent. by destruct (ballPositions s !! matchID). Qed.

Lemma setBallEvent_playerAvailability (now matchID : Z) (e : BallEvent) (x y : Q) (p : Z)
    (s : State) :
  playerAvailability (setBallEvent now matchID e x y p s) = playerAvailability s.
Proof. unfold setBallEvent. by destruct (ballPositions s !! matchID). Qed.

(** The nearest attacker, when there is one, is a player of the pool. *)
Lemma nearerAttacker_player (s : State) (ball : BallPosition) (team : Z)
    (entries : list (Z * PlayerLocation)) (best : option Q * option Z) :
  (forall k, best.2 = Some k -> is_Some (players s !! k)) ->
  forall k, (fold_left (nearerAttacker s ball team) entries best).2 = Some k ->
            is_Some (players s !! k).
Proof.
  revert best. induction entries as [|[playerID location] entries IH]; intros best Hbest.
  - exact Hbest.
  - simpl. apply IH. intros k.
    destruct (players s !! playerID) as [player|] eqn:E; [|apply Hbest].
    destruct (_ && _); [|apply Hbest].
    destruct (_ && _); [|apply Hbest].
    simpl. intros [= <-]. eauto.
Qed.

Lemma goalScorer_player (s : State) (matchID : Z) (ball : BallPosition) (r : Q) (k : Z) :
  goalScorer s matchID ball r = Some k -> is_Some (players s !! k).
Proof.
  unfold goalScorer.
  destruct (0 <? bPossessorID ball).
  - destruct (players s !! bPossessorID ball) as [player|] eqn:E.
    + destruct (_ || _).
      * destruct (_ && _).
        -- intros [= <-]. eauto.
        -- unfold findNearestAttackingPlayer.
           destruct (matches s !! matchID); [|discriminate].
           destruct (playerLocations s !! matchID); [|discriminate].
           apply nearerAttacker_player. discriminate.
      * unfold findNearestAttackingPlayer.
        destruct (matches s !! matchID); [|discriminate].
        destruct (playerLocations s !! matchID); [|discriminate].
        apply nearerAttacker_player. discriminate.
    + unfold findNearestAttackingPlayer.
      destruct (matches s !! matchID); [|discriminate].
      destruct (playerLocations s !! matchID); [|discriminate].
      apply nearerAttacker_player. discriminate.
  - unfold findNearestAttackingPlayer.
    destruct (matches s !! matchID); [|discriminate].
    destruct (playerLocations s !! matchID); [|discriminate].
    apply nearerAttacker_player. discriminate.
Qed.

Lemma addLiveCommentary_matches (now matchID minute : Z) (text : string) (e : EventType)
    (p : option Z) (s : State) :
  matches (addLiveCommentary now matchID minute text e p s) = matches s.
Proof. reflexivity. Qed.

Lemma addLiveCommentary_players (now matchID minute : Z) (text : string) (e : EventType)
    (p : option Z) (s : State) :
  players (addLiveCommentary now matchID minute text e p s) = players s.
Proof. reflexivity. Qed.

Lemma recalculateMatchProbabilities_matches (now matchID : Z) (m : Match) (s : State) :
  matches (recalculateMatchProbabilities now matchID m s) = matches s.
Proof. reflexivity. Qed.

Lemma recalculateMatchProbabilities_players (now matchID : Z) (m : Match) (s : State) :
  players (recalculateMatchProbabilities now matchID m s) = players s.
Proof. reflexivity. Qed.

Lemma updateMatchMomentum_matches (now matchID : Z) (m : Match) (e : string) (t : Z)
    (s : State) :
  matches (updateMatchMomentum now matchID m e t s) = matches s.
Proof. reflexivity. Qed.

Lemma updateMatchMomentum_players (now matchID : Z) (m : Match) (e : string) (t : Z)
    (s : State) :
  players (updateMatchMomentum now matchID m e t s) = players s.
Proof. reflexivity. Qed.

(** The matches and the players a goal by [k] leaves. *)
Lemma handleGoalEvent_result (now : Z) (r : Q) (matchID : Z) (s : State) (m : Match)
    (ball : BallPosition) (k : Z) (scorer : Player) :
  matches s !! matchID = Some m ->
  ballPositions s !! matchID = Some ball ->
  goalScorer s matchID ball r = Some k ->
  players s !! k = Some scorer ->
  let m' := if pTeamID scorer =? tiID (mHomeTeam m)
            then withScore (mHomeScore m + 1) (mAwayScore m) m
            else withScore (mHomeScore m) (mAwayScore m + 1) m in
  let credited := <[k := creditGoal scorer]> (players s) in
  let s1 := set_players credited (set_matches (<[matchID := m']> (matches s)) s) in
  matches (handleGoalEvent now r matchID s) = <[matchID := m']> (matches s) /\
  players (handleGoalEvent now r matchID s) =
    match goalAssister s1 ball scorer with
    | Some a => alter creditAssist a credited
    | None => credited
    end.
Proof.
  intros Hm Hball Hk Hscorer m' credited s1.
  unfold handleGoalEvent. rewrite Hball, Hm, Hk, Hscorer. cbv zeta.
  fold m'.
  change (set_players
            (<[k := creditGoal scorer]>
               (players (set_matches (<[matchID := m']> (matches s)) s)))
            (set_matches (<[matchID := m']> (matches s)) s)) with s1.
  rewrite addLiveCommentary_matches, addLiveCommentary_players.
  rewrite setBallEvent_matches, setBallEvent_players.
  rewrite recalculateMatchProbabilities_matches, recalculateMatchProbabilities_players.
  rewrite updateMatchMomentum_matches, updateMatchMomentum_players.
  by destruct (goalAssister s1 ball scorer).
Qed.

(** C9.  A goal event that finds a scorer raises exactly one score of the
    match by one (the home score exactly when the scorer plays for the
    home team), credits the scorer and no other player with a goal, and
    credits at most the last ball-toucher with an assist, and only when
    that player is not the scorer and plays for the scorer's team; a goal
    event that finds no scorer changes neither the matches nor the
    players. *)
Theorem handleGoalEvent_one_goal (now : Z) (r : Q) (matchID : Z) (s : State) (m : Match)
    (ball : BallPosition) :
  playersKeyed s ->
  matches s !! matchID = Some m ->
  ballPositions s !! matchID = Some ball ->
  match goalScorer s matchID ball r with
  | Some k => goalScoredBy s (handleGoalEvent now r matchID s) matchID m ball k
  | None =>
      matches (handleGoalEvent now r matchID s) = matches s /\
      players (handleGoalEvent now r matchID s) = players s
  end.
Proof.
  intros Hkeyed Hm Hball.
  destruct (goalScorer s matchID ball r) as [k|] eqn:Hk.
  2: { unfold handleGoalEvent. rewrite Hball, Hm, Hk. by split. }
  destruct (goalScorer_player _ _ _ _ _ Hk) as [scorer Hscorer].
  pose proof (Hkeyed _ _ Hscorer) as Hid.
  destruct (handleGoalEvent_result now r matchID s m ball k scorer Hm Hball Hk Hscorer)
    as [Hmatches Hplayers].
  set (m' := if pTeamID scorer =? tiID (mHomeTeam m)
             then withScore (mHomeScore m + 1) (mAwayScore m) m
             else withScore (mHomeScore m) (mAwayScore m + 1) m) in *.
  set (credited := <[k := creditGoal scorer]> (players s)) in *.
  set (s1 := set_players credited (set_matches (<[matchID := m']> (matches s)) s)) in *.
  assert (Hassist : forall a, goalAssister s1 ball scorer = Some a ->
            a = bLastTouchID ball /\ a <> k /\
            pTeamID <$> players s !! a = Some (pTeamID scorer)).
  { intros a. unfold goalAssister.
    destruct (bLastTouchID ball =? 0) eqn:E0; [discriminate|].
    destruct (bLastTouchID ball =? pID scorer) eqn:E1; [discriminate|]. simpl.
    assert (Hne : bLastTouchID ball <> k) by lia.
    unfold credited. rewrite lookup_insert_ne by auto.
    destruct (players s !! bLastTouchID ball) as [player|] eqn:E2; [|discriminate].
    destruct (pTeamID player =? pTeamID scorer) eqn:E3; [|discriminate].
    intros [= <-]. rewrite E2. simpl. repeat split; auto. f_equal. lia. }
  exists scorer, m'.
  split; [exact Hscorer|].
  split; [rewrite Hmatches; apply lookup_insert_eq|].
  split.
  { unfold m'. destruct (pTeamID scorer =? tiID (mHomeTeam m)); simpl; lia. }
  split.
  { unfold m'. destruct (pTeamID scorer =? tiID (mHomeTeam m)) eqn:E; simpl; lia. }
  rewrite Hplayers. unfold credited.
  destruct (goalAssister s1 ball scorer) as [a|] eqn:Ha.
  - destruct (Hassist a eq_refl) as (-> & Hne & Hteam).
    split; [|split].
    + rewrite lookup_alter_ne by auto. rewrite lookup_insert_eq. reflexivity.
    + intros j Hj. destruct (decide (j = bLastTouchID ball)) as [->|Hja].
      * rewrite lookup_alter_eq, lookup_insert_ne by auto.
        by destruct (players s !! bLastTouchID ball).
      * rewrite lookup_alter_ne, lookup_insert_ne by auto. reflexivity.
    + intros j. destruct (decide (j = bLastTouchID ball)) as [->|Hja].
      * right. repeat split; auto.
        rewrite lookup_alter_eq, lookup_insert_ne by auto.
        by destruct (players s !! bLastTouchID ball).
      * left. rewrite lookup_alter_ne by auto.
        destruct (decide (j = k)) as [->|Hjk].
        -- rewrite lookup_insert_eq, Hscorer. reflexivity.
        -- rewrite lookup_insert_ne by auto. reflexivity.
  - split; [|split].
    + rewrite lookup_insert_eq. reflexivity.
    + intros j Hj. rewrite lookup_insert_ne by auto. reflexivity.
    + intros j. left. destruct (decide (j = k)) as [->|Hjk].
      * rewrite lookup_insert_eq, Hscorer. reflexivity.
      * rewrite lookup_insert_ne by auto. reflexivity.
Qed.

(** ** Fixture selection and the concurrency cap *)

Lemma pointers_lookup (l : list SeasonSchedule) (i : nat) (f : SeasonSchedule) :
  (i, f) ∈ pointers l -> l !! i = Some f.
Proof.
  unfold pointers. intros H. apply elem_of_lookup_imap in H.
  destruct H as (j & x & [= -> ->] & Hx). exact Hx.
Qed.

Lemma firstPointer_some (p : SeasonSchedule -> bool) (l : list (nat * SeasonSchedule))
    (i : nat) :
  firstPointer p l = Some i -> exists f, (i, f) ∈ l /\ p f = true.
Proof.
  unfold firstPointer. destruct (List.find _ l) as [[j f]|] eqn:E; [|discriminate].
  intros [= <-]. apply find_some in E as [Hin Hp]. exists f.
  split; [by apply list_elem_of_In | exact Hp].
Qed.

Lemma firstLeague_some (leagues : list string) (f : string -> option nat)
    (league : string) (i : nat) :
  firstLeague leagues f = Some (league, i) -> f league = Some i.
Proof.
  induction leagues as [|lg rest IH]; [discriminate|]. simpl.
  destruct (f lg) as [j|] eqn:E; [|exact IH]. by intros [= <- <-].
Qed.

Lemma getMatchForLeastPlayedTeams_unplayed (s : State) (league : string) (i : nat) :
  getMatchForLeastPlayedTeams s = Some (league, i) ->
  exists f, schedulesOf s league !! i = Some f /\ ssIsPlayed f = false.
Proof.
  unfold getMatchForLeastPlayedTeams. intros H.
  apply firstLeague_some in H. apply firstPointer_some in H as (f & Hin & Hp).
  exists f. split; [by apply pointers_lookup|].
  apply andb_true_iff in Hp as [Hp _]. by apply negb_true_iff.
Qed.

(** The fixture selected is one that has not been played. *)
Lemma getNextUnplayedMatch_unplayed (s : State) (league : string) (i : nat) :
  getNextUnplayedMatch s = Some (league, i) ->
  exists f, schedulesOf s league !! i = Some f /\ ssIsPlayed f = false.
Proof.
  unfold getNextUnplayedMatch.
  destruct (2 <? _).
  - destruct (getMatchForLeastPlayedTeams s) as [[lg j]|] eqn:E.
    + intros [= <- <-]. by apply getMatchForLeastPlayedTeams_unplayed.
    + intros H. apply firstLeague_some in H.
      apply firstPointer_some in H as (f & Hin & Hp).
      exists f. split; [by apply pointers_lookup | by apply negb_true_iff].
  - intros H. apply firstLeague_some in H.
    apply firstPointer_some in H as (f & Hin & _).
    rewrite sortSlice_perm in Hin.
    apply list_elem_of_In, filter_In in Hin as [Hin Hp].
    exists f. split; [by apply pointers_lookup, list_elem_of_In|].
    by apply negb_true_iff.
Qed.

Lemma filter_length_perm {A} (p : A -> bool) (l l' : list A) :
  l ≡ₚ l' -> length (List.filter p l) = length (List.filter p l').
Proof.
  induction 1 as [|x l l' _ IH|x y l|l l' l'' _ IH1 _ IH2]; simpl.
  - reflexivity.
  - destruct (p x); simpl; lia.
  - destruct (p x), (p y); reflexivity.
  - lia.
Qed.

(** Storing a match adds at most one to the active count of its own
    competition and nothing to the other counts. *)
Lemma leagueActiveCount_insert (ms : gmap Z Match) (id : Z) (m : Match) (league : string) :
  leagueActiveCount (<[id := m]> ms) league
  <= leagueActiveCount ms league +
     (if isActive m && String.eqb (mCompetition m) league then 1 else 0).
Proof.
  unfold leagueActiveCount.
  set (p := fun '(_, m0) => isActive m0 && String.eqb (mCompetition m0) league).
  assert (Hcons : forall (e : Z * Match) l,
            Z.of_nat (length (List.filter p (e :: l)))
            = Z.of_nat (length (List.filter p l)) + (if p e then 1 else 0)).
  { intros e l. simpl. destruct (p e); simpl; lia. }
  destruct (ms !! id) as [old|] eqn:E.
  - rewrite <- (insert_delete_eq ms).
    rewrite (filter_length_perm p _ _
               (map_to_list_insert (delete id ms) id m (lookup_delete_eq ms id))).
    rewrite <- (filter_length_perm p _ _ (map_to_list_delete ms id old E)).
    rewrite !Hcons. change (p (id, m)) with (isActive m && String.eqb (mCompetition m) league).
    destruct (p (id, old)); lia.
  - rewrite (filter_length_perm p _ _ (map_to_list_insert ms id m E)).
    rewrite Hcons. change (p (id, m)) with (isActive m && String.eqb (mCompetition m) league).
    lia.
Qed.

(** The matches [createNextMatch] leaves: the old ones, or the old ones
    and the new match, stored only below the cap of its league. *)
Lemma createNextMatch_matches (now : Z) (d : KickoffDraws) (s : State) :
  createNextMatch now d s = s \/
  exists m,
    matches (createNextMatch now d s) = <[matchCounter s + 1 := m]> (matches s) /\
    leagueActiveCount (matches s) (mCompetition m) < MaxSimultaneousMatches.
Proof.
  unfold createNextMatch.
  destruct (getNextUnplayedMatch s) as [[league i]|]; [|by left].
  destruct (schedulesOf s league !! i) as [scheduledMatch|]; [|by left].
  destruct (ssIsPlayed scheduledMatch); [by left|].
  destruct (MaxSimultaneousMatches <=? _) eqn:E; [by left|].
  destruct (calculateMatchProbabilities _ _) as [[homeWin draw] awayWin].
  right. eexists. split; [reflexivity|]. simpl. lia.
Qed.

(** C2.  The fixture that next-fixture selection returns has its played
    flag unset; [createNextMatch] never takes the number of active (LIVE,
    HALFTIME or BREAK) matches of a league above [MaxSimultaneousMatches];
    and an attempt made while the league of the selected fixture is at the
    cap leaves the state as it was: no match object is created. *)
Theorem next_fixture_unplayed_and_capped :
  (forall (s : State) (league : string) (i : nat),
     getNextUnplayedMatch s = Some (league, i) ->
     exists f, schedulesOf s league !! i = Some f /\ ssIsPlayed f = false) /\
  (forall (now : Z) (d : KickoffDraws) (s : State) (league : string),
     leagueActiveCount (matches s) league <= MaxSimultaneousMatches ->
     leagueActiveCount (matches (createNextMatch now d s)) league
       <= MaxSimultaneousMatches) /\
  (forall (now : Z) (d : KickoffDraws) (s : State) (league : string) (i : nat)
          (f : SeasonSchedule),
     getNextUnplayedMatch s = Some (league, i) ->
     schedulesOf s league !! i = Some f ->
     MaxSimultaneousMatches <= leagueActiveCount (matches s) (ssLeague f) ->
     createNextMatch now d s = s).
Proof.
  split; [|split].
  - apply getNextUnplayedMatch_unplayed.
  - intros now d s league Hcap.
    destruct (createNextMatch_matches now d s) as [-> | (m & -> & Hm)]; [exact Hcap|].
    pose proof (leagueActiveCount_insert (matches s) (matchCounter s + 1) m league) as H.
    destruct (isActive m && String.eqb (mCompetition m) league) eqn:E; [|lia].
    apply andb_true_iff in E as [_ E]. apply String.eqb_eq in E. subst league. lia.
  - intros now d s league i f Hnext Hf Hcap. unfold createNextMatch.
    rewrite Hnext, Hf. destruct (ssIsPlayed f); [reflexivity|].
    destruct (MaxSimultaneousMatches <=? _) eqn:E; [reflexivity | lia].
Qed.

(** ** Match clock *)

(** A sweep whose time falls in the 46th second of play sends a live
    match to HALFTIME in minute 45, with the break scheduled. *)
Lemma halftime_at_minute_45 (now : Z) (eventRoll : bool) (m : Match) :
  mStatus m = StatusLive ->
  45 * Second <= elapsedAt now m < 46 * Second ->
  let m' := (updateLiveMatchWithBreaks now eventRoll m).1 in
  mStatus m' = StatusHalftime /\ mMinute m' = 45 /\ mIsInBreak m' = true /\
  mHalftimeEndTime m' = now + HalftimeBreakSeconds * Second /\
  mStartTime m' = mStartTime m.
Proof.
  unfold elapsedAt, Second. intros Hlive Helapsed.
  unfold updateLiveMatchWithBreaks. rewrite Hlive.
  assert (E : Z.quot (now - mStartTime m) Second = 45).
  { unfold Second. rewrite Z.quot_div_nonneg by lia.
    symmetry. apply Z.div_unique with (r := now - mStartTime m - 45 * 1000000000); lia. }
  rewrite E. simpl. auto.
Qed.

(** A live match swept at any other time stays out of HALFTIME. *)
Lemma no_halftime_outside_minute_45 (now : Z) (eventRoll : bool) (m : Match) :
  mStatus m = StatusLive ->
  ~ (45 * Second <= elapsedAt now m < 46 * Second) ->
  mStatus (updateLiveMatchWithBreaks now eventRoll m).1 <> StatusHalftime.
Proof.
  unfold elapsedAt. intros Hlive Helapsed.
  unfold updateLiveMatchWithBreaks. rewrite Hlive.
  destruct ((45 <=? _) && (_ <? 46)) eqn:E.
  - exfalso. apply Helapsed. apply andb_true_iff in E as [E1 E2].
    unfold Second in *.
    destruct (Z.le_gt_cases 0 (now - mStartTime m)) as [Hnn|Hneg].
    + rewrite Z.quot_div_nonneg in E1, E2 by lia.
      pose proof (Z.div_mod (now - mStartTime m) 1000000000 ltac:(lia)).
      pose proof (Z.mod_pos_bound (now - mStartTime m) 1000000000 ltac:(lia)). lia.
    + pose proof (Z.quot_opp_l (- (now - mStartTime m)) 1000000000 ltac:(lia)) as Hq.
      rewrite Z.opp_involutive in Hq.
      pose proof (Z.quot_pos (- (now - mStartTime m)) 1000000000 ltac:(lia) ltac:(lia)).
      lia.
  - destruct ((MatchDurationSeconds + mInjuryTime m) * Second <=? _); simpl; congruence.
Qed.

(** The first sweep after the break resumes play and moves the start time
    by the time spent in the break, so that the elapsed match time at any
    later instant leaves the break out. *)
Lemma second_half_resumes (now : Z) (eventRoll : bool) (m : Match) :
  mStatus m = StatusHalftime ->
  mHalftimeEndTime m < now ->
  let m' := (updateLiveMatchWithBreaks now eventRoll m).1 in
  mStatus m' = StatusLive /\ mIsInBreak m' = false /\ mMinute m' = mMinute m /\
  forall later : Z,
    elapsedAt later m' =
    (later - now) + elapsedAt (mHalftimeEndTime m - HalftimeBreakSeconds * Second) m.
Proof.
  intros Hht Hnow. unfold updateLiveMatchWithBreaks. rewrite Hht.
  apply Z.ltb_lt in Hnow. rewrite Hnow. simpl.
  repeat split; auto. intros later. unfold elapsedAt. simpl. lia.
Qed.

(** With a sweep every second from kickoff, the match is in minute 45 at
    the sweep 45 s after kickoff and goes to HALFTIME there, stays in the
    break for 15 s, resumes at the sweep after the break, and its minutes
    from the next sweep on run 46, 47, ... one by one. *)
Lemma halftime_scenario_every_second :
  let trace := traceTicks (tickerSweeps 0 Second 80) (kickedOffAt 0 3) in
  (fun m => (mMinute m, mStatus m)) <$> (trace !! 43%nat) = Some (44, StatusLive) /\
  (fun m => (mMinute m, mStatus m)) <$> (trace !! 44%nat) = Some (45, StatusHalftime) /\
  (fun m => (mMinute m, mStatus m)) <$> (trace !! 59%nat) = Some (45, StatusHalftime) /\
  (fun m => (mMinute m, mStatus m)) <$> (trace !! 60%nat) = Some (45, StatusLive) /\
  (fun m => (mMinute m, mStatus m)) <$> drop 61 trace
    = (fun k => (46 + Z.of_nat k, StatusLive)) <$> seq 0 19.
Proof. intros trace. repeat split; vm_compute; reflexivity. Qed.

(** C3 at its failing input.  A match kicked off 1 ms before the ticker
    starts is swept every 2 s at 2.001 s, 4.001 s, ...: its minute goes
    from 44 straight to 46, no sweep ever finds it in HALFTIME, and it
    plays through to FINISHED. *)
Theorem halftime_skipped_by_two_second_sweeps :
  let trace := traceTicks (tickerSweeps 1000000 (2 * Second) 47) (kickedOffAt 0 3) in
  (fun m => (mMinute m, mStatus m)) <$> (trace !! 21%nat) = Some (44, StatusLive) /\
  (fun m => (mMinute m, mStatus m)) <$> (trace !! 22%nat) = Some (46, StatusLive) /\
  ~ (StatusHalftime ∈ (mStatus <$> trace)) /\
  mStatus <$> last trace = Some StatusFinished.
Proof.
  intros trace. split; [|split; [|split]]; try (vm_compute; reflexivity).
  apply (bool_decide_unpack _). vm_compute. exact I.
Qed.

(** ** Season schedule generation *)

Lemma roundMatchAt_fmap (g : Z -> Z) (ts : list Z) (round i : Z) :
  roundMatchAt (g <$> ts) round i = relabelRound g <$> roundMatchAt ts round i.
Proof.
  unfold roundMatchAt. rewrite length_fmap.
  destruct (_ && _); [|reflexivity].
  rewrite !list_lookup_fmap.
  destruct (ts !! _) as [h|]; [|reflexivity].
  destruct (ts !! _) as [a|]; reflexivity.
Qed.

Lemma flat_map_fmap {A B C} (h : B -> C) (k k' : A -> list B) (l : list A) :
  (forall x, k' x = k x) ->
  flat_map (fun x => h <$> k x) l = h <$> flat_map k' l.
Proof.
  intros E. induction l as [|x l IH]; [reflexivity|].
  simpl. rewrite fmap_app, IH, E. reflexivity.
Qed.

Lemma generateRoundMatches_fmap (g : Z -> Z) (ts : list Z) (round : Z) :
  generateRoundMatches (g <$> ts) round = relabelRound g <$> generateRoundMatches ts round.
Proof.
  unfold generateRoundMatches. rewrite length_fmap.
  destruct (negb _); [reflexivity|].
  rewrite <- (flat_map_fmap (relabelRound g)
                (fun i => roundMatchAt ts round (Z.of_nat i))
                (fun i => roundMatchAt ts round (Z.of_nat i))) by reflexivity.
  apply flat_map_ext. intros i. apply roundMatchAt_fmap.
Qed.

Lemma generateLeg_fmap (g : Z -> Z) (now : Z) (league : string) (ts : list Z)
    (swap : bool) (matchday0 : Z) (totalRounds : nat) :
  generateLeg now league (g <$> ts) swap matchday0 totalRounds
  = relabel g <$> generateLeg now league ts swap matchday0 totalRounds.
Proof.
  unfold generateLeg.
  rewrite <- (flat_map_fmap (relabel g)
                (fun round => map (legFixture now league swap (matchday0 + Z.of_nat round))
                                  (generateRoundMatches ts (Z.of_nat round)))
                (fun round => map (legFixture now league swap (matchday0 + Z.of_nat round))
                                  (generateRoundMatches ts (Z.of_nat round)))) by reflexivity.
  apply flat_map_ext. intros round. rewrite generateRoundMatches_fmap.
  rewrite <- !list_fmap_compose. apply list_fmap_ext. intros _ m _.
  unfold legFixture, relabel. simpl. by destruct swap.
Qed.

(** The schedule only depends on the positions of the teams in the slice:
    renaming the teams renames the fixtures. *)
Lemma seasonFixtures_fmap (g : Z -> Z) (now : Z) (league : string) (ts : list Z) :
  (seasonFixtures now league (g <$> ts)).1
  = relabel g <$> (seasonFixtures now league ts).1.
Proof.
  unfold seasonFixtures. simpl. rewrite length_fmap, !generateLeg_fmap, fmap_app.
  reflexivity.
Qed.

Lemma ten_teams_positions (ts : list Z) :
  length ts = 10%nat -> ts = teamAt ts <$> tenPositions.
Proof.
  intros H. do 11 (destruct ts as [|? ts]; try discriminate). reflexivity.
Qed.

Lemma teamAt_injective (ts : list Z) (x y : Z) :
  length ts = 10%nat -> NoDup ts -> 0 <= x <= 9 -> 0 <= y <= 9 ->
  (teamAt ts x =? teamAt ts y) = (x =? y).
Proof.
  intros Hlen Hnd Hx Hy. unfold teamAt.
  destruct (lookup_lt_is_Some_2 ts (Z.to_nat x) ltac:(lia)) as [a Ha].
  destruct (lookup_lt_is_Some_2 ts (Z.to_nat y) ltac:(lia)) as [b Hb].
  rewrite Ha, Hb. simpl.
  destruct (Z.eqb_spec a b) as [->|Hab], (Z.eqb_spec x y) as [->|Hxy]; try reflexivity.
  - pose proof (NoDup_lookup _ _ _ _ Hnd Ha Hb). lia.
  - congruence.
Qed.

Lemma countWhere_relabel (g : Z -> Z) (p p' : SeasonSchedule -> bool)
    (F : list SeasonSchedule) :
  (forall f, f ∈ F -> p (relabel g f) = p' f) ->
  countWhere p (relabel g <$> F) = countWhere p' F.
Proof.
  unfold countWhere. intros H. f_equal.
  induction F as [|f F IH]; [reflexivity|].
  assert (IH' : length (List.filter p (relabel g <$> F)) = length (List.filter p' F)).
  { apply IH. intros f' Hf'. apply H. by apply list_elem_of_further. }
  rewrite fmap_cons. cbn [List.filter].
  rewrite (H f) by apply list_elem_of_here.
  destruct (p' f); cbn [length]; rewrite IH'; reflexivity.
Qed.

(** Whatever the order in which the range over [teams] hands the ten teams
    of a league to [generateSeasonSchedule], the 90 fixtures are not a
    double round robin: the team at the head of the slice plays 26 of
    them and the team in sixth position 10; the first two teams meet four
    times, the sixth and the seventh never. *)
Lemma seasonFixtures_unbalanced (now : Z) (league : string) (ts : list Z) :
  length ts = 10%nat -> NoDup ts ->
  let fixtures := (seasonFixtures now league ts).1 in
  length fixtures = 90%nat /\
  fixturesOfTeam (teamAt ts 0) fixtures = 26 /\
  fixturesOfTeam (teamAt ts 5) fixtures = 10 /\
  fixturesBetween (teamAt ts 0) (teamAt ts 1) fixtures = 4 /\
  fixturesBetween (teamAt ts 5) (teamAt ts 6) fixtures = 0.
Proof.
  intros Hlen Hnd fixtures.
  assert (E : fixtures = relabel (teamAt ts) <$> (seasonFixtures now league tenPositions).1).
  { unfold fixtures. rewrite (ten_teams_positions ts Hlen) at 1.
    apply seasonFixtures_fmap. }
  assert (Hrange : forall f, f ∈ (seasonFixtures now league tenPositions).1 ->
                             inTenPositions f = true).
  { intros f Hf. apply list_elem_of_In in Hf. revert f Hf.
    apply forallb_forall. vm_compute. reflexivity. }
  assert (Hin : forall f x, inTenPositions f = true -> 0 <= x <= 9 ->
            ((teamAt ts (ssHomeTeam f) =? teamAt ts x) = (ssHomeTeam f =? x)) /\
            ((teamAt ts (ssAwayTeam f) =? teamAt ts x) = (ssAwayTeam f =? x))).
  { intros f x Hf Hx. unfold inTenPositions in Hf.
    split; apply teamAt_injective; auto; lia. }
  assert (Hteam : forall x, 0 <= x <= 9 ->
            fixturesOfTeam (teamAt ts x) fixtures
            = fixturesOfTeam x (seasonFixtures now league tenPositions).1).
  { intros x Hx. rewrite E. apply countWhere_relabel. intros f Hf. simpl.
    by destruct (Hin f x (Hrange f Hf) Hx) as [-> ->]. }
  assert (Hhost : forall x y, 0 <= x <= 9 -> 0 <= y <= 9 ->
            fixturesHosting (teamAt ts x) (teamAt ts y) fixtures
            = fixturesHosting x y (seasonFixtures now league tenPositions).1).
  { intros x y Hx Hy. rewrite E. apply countWhere_relabel. intros f Hf. simpl.
    destruct (Hin f x (Hrange f Hf) Hx) as [-> _].
    by destruct (Hin f y (Hrange f Hf) Hy) as [_ ->]. }
  split; [rewrite E, length_fmap; vm_compute; reflexivity|].
  unfold fixturesBetween. rewrite !Hteam, !Hhost by lia.
  repeat split; vm_compute; reflexivity.
Qed.

(** C1 at its failing input.  For the ten Premier League teams the
    generated schedule has the 90 fixtures and the 18 matchdays of a double
    round robin, but it is none: the five teams the range yields first
    play 26 fixtures each and the other five 10 each; teams 7 and 9 meet
    four times, teams 6 and 8 never. *)
Theorem generateSeasonSchedule_not_round_robin :
  let fixtures := schedulesOf (generateSeasonSchedule 0 LeaguePremier teamsOnly)
                    LeaguePremier in
  Z.of_nat (length fixtures) = 10 * (10 - 1) /\
  matchdaysOf fixtures = Z.of_nat <$> seq 1 18 /\
  getTeamsByLeague teamsOnly LeaguePremier = [7; 9; 5; 3; 10; 6; 8; 4; 2; 1] /\
  (fun t => fixturesOfTeam t fixtures) <$> [7; 9; 5; 3; 10; 6; 8; 4; 2; 1]
    = [26; 26; 26; 26; 26; 10; 10; 10; 10; 10] /\
  fixturesHosting 7 9 fixtures = 2 /\ fixturesHosting 9 7 fixtures = 2 /\
  fixturesBetween 6 8 fixtures = 0.
Proof. intros fixtures. repeat split; vm_compute; reflexivity. Qed.

(** ** Season end *)

(** The season is over exactly when every fixture of both leagues has been
    played. *)
Lemma shouldEndSeason_spec (s : State) :
  shouldEndSeason s = true <->
  forall league f, league ∈ leagueOrder -> f ∈ schedulesOf s league -> ssIsPlayed f = true.
Proof.
  unfold shouldEndSeason. rewrite forallb_forall. split.
  - intros H league f Hl Hf. apply list_elem_of_In in Hl, Hf.
    specialize (H league Hl). rewrite forallb_forall in H. by apply H.
  - intros H league Hl. apply forallb_forall. intros f Hf.
    apply (H league f); by apply list_elem_of_In.
Qed.

(** [endSeason] appends one history record, resets the season statistics of
    every player and moves to the next season; it leaves the fixtures as
    they are. *)
Lemma endSeason_effect (now : Z) (s s' : State) :
  endSeason now s = Some s' ->
  seasonSchedules s' = seasonSchedules s /\
  currentSeason s' = currentSeason s + 1 /\
  currentMatchweek s' = 1 /\
  players s' = resetPlayer <$> players s /\
  (exists record,
     shSeason record = currentSeason s /\
     seasonHistory s' =
       if MaxSeasonHistory <? Z.of_nat (length (seasonHistory s ++ [record]))
       then drop 1 (seasonHistory s ++ [record]) else seasonHistory s ++ [record]).
Proof.
  unfold endSeason. intros H.
  destruct (findTopScorer s) as [topScorer|]; [|discriminate].
  destruct (findTopAssists s) as [topAssists|]; [|discriminate].
  destruct (findMostFouls s) as [mostFouls|]; [|discriminate].
  destruct (findPlayerOfSeason s) as [playerOfSeason|]; [|discriminate].
  simpl in H. injection H as <-. simpl.
  repeat split; auto. eexists. split; [|reflexivity]. reflexivity.
Qed.

(** The season transition as the program runs it, [endSeason] and then
    [startNewSeason]: the season counter goes up by two and the fixtures
    stay as they were, so the season is over again right away. *)
Lemma seasonTransition_effect (now : Z) (s s' : State) :
  seasonTransition now s = Some s' ->
  seasonSchedules s' = seasonSchedules s /\
  currentSeason s' = currentSeason s + 2 /\
  shouldEndSeason s' = shouldEndSeason s.
Proof.
  unfold seasonTransition. intros H.
  destruct (endSeason now s) as [s1|] eqn:E; [|discriminate].
  simpl in H. injection H as <-.
  destruct (endSeason_effect _ _ _ E) as (H1 & H2 & _).
  unfold startNewSeason. simpl.
  split; [exact H1|]. split; [lia|].
  unfold shouldEndSeason, schedulesOf. simpl. by rewrite H1.
Qed.

(** C4 at its failing input.  With every fixture of both leagues played
    the season is over; the transition appends the history record, but it
    leaves every fixture played, so that the season is over again at once,
    and it takes the season counter from 1 to 3. *)
Theorem season_transition_keeps_played_fixtures :
  shouldEndSeason seasonOver = true /\
  exists s',
    seasonTransition 0 seasonOver = Some s' /\
    length (seasonHistory s') = S (length (seasonHistory seasonOver)) /\
    seasonSchedules s' = seasonSchedules seasonOver /\
    shouldEndSeason s' = true /\
    currentSeason seasonOver = 1 /\ currentSeason s' = 3.
Proof.
  assert (Hover : shouldEndSeason seasonOver = true) by (vm_compute; reflexivity).
  split; [exact Hover|].
  destruct (seasonTransition 0 seasonOver) as [s'|] eqn:E;
    [|vm_compute in E; discriminate].
  exists s'. split; [reflexivity|].
  destruct (seasonTransition_effect _ _ _ E) as (H1 & H2 & H3).
  split.
  { clear H1 H2 H3. vm_compute in E. injection E as <-. vm_compute. reflexivity. }
  split; [exact H1|]. split; [by rewrite H3|].
  split; [reflexivity|]. rewrite H2. reflexivity.
Qed.

(** ** Red cards and availability *)

Lemma updateStats_playerAvailability (matchID : Z) (f : MatchStats -> MatchStats)
    (s s' : State) :
  updateStats matchID f s = Some s' -> playerAvailability s' = playerAvailability s.
Proof.
  unfold updateStats. destruct (matchStats s !! matchID); [|discriminate].
  by intros [= <-].
Qed.

(** A red card shown by [handleCardEvent] makes the player unavailable:
    the entry of the match records the status, the minute and the reason,
    and the player is no longer among the available players. *)
Lemma handleCardEvent_red_unavailable (now : Z) (pick : nat) (matchID : Z) (s s' : State)
    (m : Match) (k : Z) (player : Player) :
  matches s !! matchID = Some m ->
  getAvailablePlayersForMatch s matchID
    !! (pick `mod` length (getAvailablePlayersForMatch s matchID))%nat = Some (k, player) ->
  handleCardEvent now pick true matchID s = Some s' ->
  (playerAvailability s' !! matchID ≫= fun avail => avail !! pID player)
    = Some (mkPlayerAvailability (pID player) PlayerRedCard (mMinute m) "Direct red card") /\
  isPlayerAvailable s' matchID (pID player) = false.
Proof.
  intros Hm Hpick H. unfold handleCardEvent in H. rewrite Hm, Hpick in H.
  apply updateStats_playerAvailability in H. simpl in H.
  unfold isPlayerAvailable. rewrite H, lookup_insert_eq. simpl.
  rewrite lookup_insert_eq. split; reflexivity.
Qed.

(** [applyFoulConsequences] never writes [playerAvailability]. *)
Lemma applyFoulConsequences_availability (now matchID fouler : Z) (severity : string)
    (context : FoulContext) (s s' : State) :
  applyFoulConsequences now matchID fouler severity context s = Some s' ->
  playerAvailability s' = playerAvailability s.
Proof.
  unfold applyFoulConsequences.
  destruct (matches s !! matchID) as [m|]; [|by intros [= <-]].
  destruct (players s !! fouler) as [p|]; [|by intros [= <-]].
  destruct (ballPositions s !! matchID) as [ball|]; [|by intros [= <-]].
  destruct (updateStats matchID _ s) as [s1|] eqn:E1; [|discriminate]. simpl.
  apply updateStats_playerAvailability in E1.
  destruct (String.eqb severity "yellow").
  - destruct (updateStats matchID _ _) as [s2|] eqn:E2; [|discriminate]. simpl.
    apply updateStats_playerAvailability in E2. simpl in E2.
    destruct (_ && _); intros [= <-]; simpl;
      rewrite setBallEvent_playerAvailability; simpl; congruence.
  - destruct (String.eqb severity "red").
    + destruct (updateStats matchID _ _) as [s2|] eqn:E2; [|discriminate]. simpl.
      apply updateStats_playerAvailability in E2. simpl in E2.
      destruct (_ && _); intros [= <-]; simpl;
        rewrite setBallEvent_playerAvailability; simpl; congruence.
    + simpl. destruct (_ && _); intros [= <-]; simpl;
        rewrite setBallEvent_playerAvailability; simpl; congruence.
Qed.

(** C5 at its failing input.  In the demo match with full squads the
    away centre-back 22 fouls the home striker, who has the ball in the
    away penalty area, and is sent off: the foul event counts the red card
    for the player and for the away team and awards the penalty, but the
    player stays available, is missing from the unavailable-players list
    and is still in the pool the next card is drawn from - the card
    event that follows books him. *)
Theorem foul_red_card_leaves_player_available :
  exists s',
    handleFoulEvent 5 0.5 redDraws 1 matchdayState = Some s' /\
    pRedCards <$> players s' !! 22 = Some 1 /\
    AwayRedCards <$> matchStats s' !! 1 = Some 1 /\
    bEventType <$> ballPositions s' !! 1 = Some BallEventPenalty /\
    isPlayerAvailable s' 1 22 = true /\
    unavailablePlayers s' 1 = [] /\
    22 ∈ (getAvailablePlayersForMatch s' 1).*1 /\
    exists s'',
      handleCardEvent 6 30 false 1 s' = Some s'' /\
      pYellowCards <$> players s'' !! 22 = Some 1 /\
      pRedCards <$> players s'' !! 22 = Some 1.
Proof.
  pose (s' := default matchdayState (handleFoulEvent 5 0.5 redDraws 1 matchdayState)).
  pose (s'' := default s' (handleCardEvent 6 30 false 1 s')).
  exists s'. split; [vm_compute; reflexivity|].
  split; [vm_compute; reflexivity|].
  split; [vm_compute; reflexivity|].
  split; [vm_compute; reflexivity|].
  split; [vm_compute; reflexivity|].
  split; [vm_compute; reflexivity|].
  split; [apply (list_elem_of_lookup_2 _ 30%nat); vm_compute; reflexivity|].
  exists s''. split; [vm_compute; reflexivity|].
  split; vm_compute; reflexivity.
Qed.

(** The sibling path: a direct red card for the centre-back 22 in the
    same state makes him unavailable, with status, minute and reason, and
    takes him out of the pool of the card handler; yet the foul event that
    follows picks him again and sends him off a second time.  And a goal
    event that follows a direct red card for the striker 18, who has the
    ball, still picks him as its scorer. *)
Lemma direct_red_card_marks_player :
  (exists s',
     handleCardEvent 5 30 true 1 matchdayState = Some s' /\
     isPlayerAvailable s' 1 22 = false /\
     (fun '(p, status, minute, reason) => (pID p, status, minute, reason))
       <$> unavailablePlayers s' 1 = [(22, "red_card", 10, "Direct red card")] /\
     (22 ∉ (getAvailablePlayersForMatch s' 1).*1) /\
     exists s'',
       handleFoulEvent 6 0.5 redDraws 1 s' = Some s'' /\
       pRedCards <$> players s'' !! 22 = Some 2) /\
  (exists s',
     handleCardEvent 5 10 true 1 matchdayState = Some s' /\
     isPlayerAvailable s' 1 18 = false /\
     goalScorer s' 1 penaltyAreaBall 0.5 = Some 18).
Proof.
  split.
  - pose (s' := default matchdayState (handleCardEvent 5 30 true 1 matchdayState)).
    pose (s'' := default s' (handleFoulEvent 6 0.5 redDraws 1 s')).
    exists s'. split; [vm_compute; reflexivity|].
    split; [vm_compute; reflexivity|].
    split; [vm_compute; reflexivity|].
    split; [apply (bool_decide_unpack _); vm_compute; exact I|].
    exists s''. split; vm_compute; reflexivity.
  - pose (s' := default matchdayState (handleCardEvent 5 10 true 1 matchdayState)).
    exists s'. split; [vm_compute; reflexivity|].
    split; vm_compute; reflexivity.
Qed.


(** ** The match clock over a whole match *)

Lemma quot_second_bounds (e minute : Z) :
  0 <= minute -> minute * Second <= e ->
  minute <= Z.quot e Second /\ Z.quot e Second * Second <= e /\ 0 <= Z.quot e Second.
Proof.
  intros Hm He. unfold Second in *.
  assert (0 <= e) by lia.
  rewrite Z.quot_div_nonneg by lia.
  pose proof (Z.mul_div_le e 1000000000 ltac:(lia)).
  assert (minute <= e / 1000000000) by (apply Z.div_le_lower_bound; lia).
  lia.
Qed.

(** One sweep keeps the clock consistent and does not turn the minute
    back. *)
Lemma engineTick_clock (last now : Z) (roll : bool) (m : Match) :
  clockOk last m -> last <= now ->
  clockOk now (engineTick m (now, roll)) /\
  mMinute m <= mMinute (engineTick m (now, roll)) /\
  (mStatus m = StatusHalftime -> mMinute (engineTick m (now, roll)) = mMinute m).
Proof.
  intros [Hmin Hok] Hle. unfold engineTick, isActive, updateLiveMatchWithBreaks.
  destruct (mStatus m) eqn:Est; simpl.
  - (* LIVE *)
    destruct (quot_second_bounds (now - mStartTime m) (mMinute m)) as (H1 & H2 & H3);
      [lia | lia |].
    destruct ((45 <=? _) && (_ <? 46)) eqn:E45; simpl.
    + repeat split; unfold clockOk; simpl; try lia. discriminate.
    + destruct ((MatchDurationSeconds + mInjuryTime m) * Second <=? now - mStartTime m)
        eqn:Eend; simpl.
      * repeat split; unfold clockOk; simpl; try lia. discriminate.
      * repeat split; unfold clockOk; simpl; try lia. discriminate.
  - (* HALFTIME *)
    destruct Hok as [H1 H2].
    destruct (mHalftimeEndTime m <? now) eqn:Eover; simpl.
    + repeat split; unfold clockOk; simpl; try lia.
    + repeat split; unfold clockOk; rewrite ?Est; try lia.
  - repeat split; unfold clockOk; rewrite ?Est; try lia; discriminate.
  - repeat split; unfold clockOk; rewrite ?Est; try lia; discriminate.
  - repeat split; unfold clockOk; rewrite ?Est; try lia; discriminate.
  - repeat split; unfold clockOk; rewrite ?Est; try lia; discriminate.
Qed.

(** X1. Over any sequence of sweeps at instants that do not go back, the
    minute of a match never decreases - not at the halftime whistle, not
    when the second half starts with a shifted start time, not at full
    time. *)
Theorem match_minute_never_decreases (t0 : Z) (ticks : list (Z * bool)) (m : Match) :
  clockOk t0 m ->
  nondecreasingFrom t0 ticks.*1 ->
  nondecreasingFrom (mMinute m) (mMinute <$> traceTicks ticks m).
Proof.
  revert t0 m. induction ticks as [|[now roll] ticks IH]; intros t0 m Hok Hts; [exact I|].
  destruct Hts as [Hle Hts]. simpl.
  destruct (engineTick_clock t0 now roll m Hok Hle) as (Hok' & Hmono & _).
  split; [exact Hmono|]. by apply (IH now).
Qed.


(** ** The season schedule for any number of teams *)

Lemma flat_map_length_const {A B} (f : A -> list B) (l : list A) (c : nat) :
  (forall x, x ∈ l -> length (f x) = c) -> length (flat_map f l) = (c * length l)%nat.
Proof.
  induction l as [|x l IH]; intros H; simpl; [lia|].
  rewrite length_app, H, IH; [lia | | by left].
  intros y Hy. apply H. by right.
Qed.

(** The pairing of index [i] in a round, for an index of the loop. *)
Lemma roundMatchAt_one (ts : list Z) (round i : Z) :
  0 <= round -> 0 <= i -> 2 * i + 2 <= Z.of_nat (length ts) ->
  exists (a b : nat) (home away : Z),
    roundMatchAt ts round i = [mkRoundMatch home away] /\
    a <> b /\ ts !! a = Some home /\ ts !! b = Some away.
Proof.
  intros Hr Hi Hn. unfold roundMatchAt.
  set (n := Z.of_nat (length ts)) in *.
  set (raw := Z.rem (n - 1 - i + round) (n - 1)).
  assert (0 <= raw < n - 1) as Hraw by (apply Z.rem_bound_pos; lia).
  set (t2 := if i <=? raw then raw + 1 else raw).
  assert (0 <= t2 < n /\ t2 <> i) as [Ht2 Hne].
  { unfold t2. destruct (i <=? raw) eqn:E; [apply Z.leb_le in E | apply Z.leb_gt in E]; lia. }
  assert ((i <? n) && (t2 <? n) && negb (i =? t2) = true) as ->.
  { rewrite !andb_true_iff, negb_true_iff. repeat split; [apply Z.ltb_lt | apply Z.ltb_lt | apply Z.eqb_neq]; lia. }
  destruct (lookup_lt_is_Some_2 ts (Z.to_nat i)) as [home Hhome]; [lia|].
  destruct (lookup_lt_is_Some_2 ts (Z.to_nat t2)) as [away Haway]; [lia|].
  exists (Z.to_nat i), (Z.to_nat t2), home, away.
  rewrite Hhome, Haway. repeat split; try done. lia.
Qed.

Lemma rem_quot_even (h : nat) :
  Z.rem (Z.of_nat (2 * h)) 2 = 0 /\ Z.quot (Z.of_nat (2 * h)) 2 = Z.of_nat h.
Proof.
  replace (Z.of_nat (2 * h)) with (Z.of_nat h * 2) by lia.
  rewrite Z.rem_mod_nonneg, Z.quot_div_nonneg by lia.
  rewrite Z_mod_mult, Z_div_mult by lia. done.
Qed.

Lemma generateRoundMatches_length (ts : list Z) (h : nat) (round : Z) :
  length ts = (2 * h)%nat -> 0 <= round -> length (generateRoundMatches ts round) = h.
Proof.
  intros Hlen Hr. unfold generateRoundMatches. rewrite Hlen.
  destruct (rem_quot_even h) as [-> ->]. simpl.
  rewrite (flat_map_length_const _ _ 1%nat).
  - rewrite length_seq. lia.
  - intros i Hi. apply elem_of_seq in Hi.
    destruct (roundMatchAt_one ts round (Z.of_nat i)) as (a & b & home & away & -> & _);
      [lia | lia | lia | done].
Qed.

Lemma generateRoundMatches_elem (ts : list Z) (round : Z) (m : RoundMatch) :
  0 <= round -> m ∈ generateRoundMatches ts round ->
  exists a b : nat, a <> b /\ ts !! a = Some (rmHome m) /\ ts !! b = Some (rmAway m).
Proof.
  intros Hr. unfold generateRoundMatches.
  destruct (negb _) eqn:Eodd; [by intros ?%elem_of_nil|].
  apply negb_false_iff, Z.eqb_eq in Eodd.
  intros Hm. apply list_elem_of_In, in_flat_map in Hm. destruct Hm as (i & Hi & Hm).
  apply list_elem_of_In, elem_of_seq in Hi. apply list_elem_of_In in Hm.
  assert (0 <= Z.of_nat (length ts)) as Hn0 by lia.
  pose proof (Z.quot_rem' (Z.of_nat (length ts)) 2) as Hqr. rewrite Eodd in Hqr.
  destruct (roundMatchAt_one ts round (Z.of_nat i)) as (a & b & home & away & E & Hab & Ha & Hb);
    [lia | lia | lia |].
  rewrite E in Hm. apply list_elem_of_singleton in Hm. subst m. by exists a, b.
Qed.

Lemma legFixture_filter (now : Z) (league : string) (swap : bool) (md d : Z)
    (rs : list RoundMatch) :
  List.filter (fun f => ssMatchday f =? d) (map (legFixture now league swap md) rs)
  = if md =? d then map (legFixture now league swap md) rs else [].
Proof.
  induction rs as [|r rs IH]; simpl; [by destruct (md =? d)|].
  rewrite IH. by destruct (md =? d).
Qed.

(** The fixtures of a leg that fall on matchday [d]. *)
Lemma generateLeg_matchday (now : Z) (league : string) (ts : list Z) (swap : bool)
    (md0 d : Z) (h R a : nat) :
  length ts = (2 * h)%nat ->
  length (List.filter (fun f => ssMatchday f =? d)
            (flat_map (fun round =>
                         map (legFixture now league swap (md0 + Z.of_nat round))
                             (generateRoundMatches ts (Z.of_nat round)))
                      (seq a R)))
  = if (md0 + Z.of_nat a <=? d) && (d <? md0 + Z.of_nat a + Z.of_nat R) then h else 0%nat.
Proof.
  intros Hlen. revert a. induction R as [|R IH]; intros a; simpl.
  - destruct (_ <=? _) eqn:E1; destruct (_ <? _) eqn:E2; simpl; try done.
    apply Z.leb_le in E1. apply Z.ltb_lt in E2. lia.
  - rewrite List.filter_app, length_app, IH, legFixture_filter.
    destruct (md0 + Z.of_nat a =? d) eqn:E0;
      [apply Z.eqb_eq in E0 | apply Z.eqb_neq in E0].
    + rewrite length_map, (generateRoundMatches_length ts h) by (done || lia).
      assert ((md0 + Z.of_nat (S a) <=? d) = false) as -> by (apply Z.leb_gt; lia).
      assert ((md0 + Z.of_nat a <=? d) = true) as -> by (apply Z.leb_le; lia).
      assert ((d <? md0 + Z.of_nat a + Z.of_nat (S R)) = true) as -> by (apply Z.ltb_lt; lia).
      simpl. lia.
    + simpl.
      destruct (md0 + Z.of_nat (S a) <=? d) eqn:E1;
        [apply Z.leb_le in E1 | apply Z.leb_gt in E1].
      * assert ((md0 + Z.of_nat a <=? d) = true) as -> by (apply Z.leb_le; lia).
        replace (md0 + Z.of_nat (S a) + Z.of_nat R) with (md0 + Z.of_nat a + Z.of_nat (S R))
          by lia.
        done.
      * assert ((md0 + Z.of_nat a <=? d) = false) as -> by (apply Z.leb_gt; lia).
        done.
Qed.

Lemma generateLeg_length (now : Z) (league : string) (ts : list Z) (swap : bool)
    (md0 : Z) (h R : nat) :
  length ts = (2 * h)%nat ->
  length (generateLeg now league ts swap md0 R) = (h * R)%nat.
Proof.
  intros Hlen. unfold generateLeg. rewrite (flat_map_length_const _ _ h).
  - by rewrite length_seq.
  - intros round _. rewrite length_map. apply generateRoundMatches_length; [done | lia].
Qed.

Lemma seasonFixtures_matchday (now : Z) (league : string) (ts : list Z) (h : nat) (d : Z) :
  length ts = (2 * h)%nat -> (1 <= h)%nat ->
  length (List.filter (fun f => ssMatchday f =? d) (seasonFixtures now league ts).1)
  = if (1 <=? d) && (d <=? 2 * (Z.of_nat (length ts) - 1)) then h else 0%nat.
Proof.
  intros Hlen Hh. unfold seasonFixtures, generateLeg. simpl.
  rewrite List.filter_app, length_app.
  rewrite !(generateLeg_matchday _ _ _ _ _ _ h) by done.
  rewrite Hlen.
  set (R := Z.to_nat (Z.of_nat (2 * h) - 1)).
  assert (Z.of_nat R = 2 * Z.of_nat h - 1) as HR by (unfold R; lia).
  rewrite HR.
  repeat match goal with
         | |- context [?x <=? ?y] =>
             let E := fresh in destruct (x <=? y) eqn:E;
             [apply Z.leb_le in E | apply Z.leb_gt in E]
         | |- context [?x <? ?y] =>
             let E := fresh in destruct (x <? y) eqn:E;
             [apply Z.ltb_lt in E | apply Z.ltb_ge in E]
         end; simpl; lia.
Qed.

(** X2. For a league with an even number [n = 2h] of teams, every round
    pairs [h] couples, the season has [n(n-1)] fixtures, and every matchday
    from 1 to [2(n-1)] holds exactly [h] of them, no other matchday any. *)
Theorem schedule_size_for_even_leagues (now : Z) (league : string) (ts : list Z) (h : nat) :
  length ts = (2 * h)%nat -> (1 <= h)%nat ->
  let n := Z.of_nat (length ts) in
  let fixtures := (seasonFixtures now league ts).1 in
  (forall round, 0 <= round -> length (generateRoundMatches ts round) = h) /\
  Z.of_nat (length fixtures) = n * (n - 1) /\
  (forall d, countWhere (fun f => ssMatchday f =? d) fixtures
             = if (1 <=? d) && (d <=? 2 * (n - 1)) then Z.of_nat h else 0).
Proof.
  intros Hlen Hh n fixtures. split; [|split].
  - intros round Hr. by apply generateRoundMatches_length.
  - unfold fixtures, seasonFixtures. simpl.
    rewrite length_app, !(generateLeg_length _ _ _ _ _ h) by done.
    unfold n. rewrite Hlen. nia.
  - intros d. unfold countWhere, fixtures.
    rewrite (seasonFixtures_matchday now league ts h d Hlen Hh).
    fold n. by destruct ((1 <=? d) && (d <=? 2 * (n - 1))).
Qed.

Lemma generateLeg_elem (now : Z) (league : string) (ts : list Z) (swap : bool)
    (md0 : Z) (R : nat) (f : SeasonSchedule) :
  f ∈ generateLeg now league ts swap md0 R ->
  exists (round : nat) (m : RoundMatch),
    (round < R)%nat /\ m ∈ generateRoundMatches ts (Z.of_nat round) /\
    f = legFixture now league swap (md0 + Z.of_nat round) m.
Proof.
  unfold generateLeg. intros Hf.
  apply list_elem_of_In, in_flat_map in Hf. destruct Hf as (round & Hround & Hf).
  apply list_elem_of_In, elem_of_seq in Hround.
  apply in_map_iff in Hf. destruct Hf as (m & <- & Hm). apply list_elem_of_In in Hm.
  exists round, m. repeat split; [lia | done].
Qed.

(** The fixtures of a generated season, one by one. *)
Lemma seasonFixtures_elem (now : Z) (league : string) (ts : list Z) (f : SeasonSchedule) :
  NoDup ts ->
  f ∈ (seasonFixtures now league ts).1 ->
  ssLeague f = league /\ ssIsPlayed f = false /\ ssMatchID f = 0 /\
  1 <= ssMatchday f <= 2 * (Z.of_nat (length ts) - 1) /\
  ssScheduledAt f = now + ssMatchday f * 24 * 3600 * Second /\
  ssHomeTeam f ∈ ts /\ ssAwayTeam f ∈ ts /\ ssHomeTeam f <> ssAwayTeam f.
Proof.
  intros Hnd. unfold seasonFixtures. simpl. intros Hf.
  apply elem_of_app in Hf.
  assert (exists (swap : bool) (md0 : Z) (round : nat) (m : RoundMatch),
            (md0 = 1 \/ md0 = 1 + Z.of_nat (Z.to_nat (Z.of_nat (length ts) - 1))) /\
            (round < Z.to_nat (Z.of_nat (length ts) - 1))%nat /\
            m ∈ generateRoundMatches ts (Z.of_nat round) /\
            f = legFixture now league swap (md0 + Z.of_nat round) m)
    as (swap & md0 & round & m & Hmd & Hround & Hm & ->).
  { destruct Hf as [Hf|Hf]; apply generateLeg_elem in Hf;
      destruct Hf as (round & m & ? & ? & ?).
    - exists false, 1, round, m. repeat split; try done. by left.
    - exists true, (1 + Z.of_nat (Z.to_nat (Z.of_nat (length ts) - 1))), round, m.
      repeat split; try done. by right. }
  apply generateRoundMatches_elem in Hm; [|lia].
  destruct Hm as (a & b & Hab & Ha & Hb).
  simpl. repeat split; try lia.
  - destruct swap; [by eapply list_elem_of_lookup_2 | by eapply list_elem_of_lookup_2].
  - destruct swap; [by eapply list_elem_of_lookup_2 | by eapply list_elem_of_lookup_2].
  - destruct swap; intros E.
    + apply Hab. eapply NoDup_lookup; [done | exact Ha |]. by rewrite <- E.
    + apply Hab. eapply NoDup_lookup; [done | exact Ha |]. by rewrite E.
Qed.

(** X3. Every fixture of a generated season is unplayed, carries the
    league and a matchday between 1 and [2(n-1)] with its date, and pairs
    two different teams of the league: no team is drawn against itself. *)
Theorem fixtures_pair_two_teams_of_the_league (now : Z) (league : string) (ts : list Z)
    (f : SeasonSchedule) :
  NoDup ts ->
  f ∈ (seasonFixtures now league ts).1 ->
  ssLeague f = league /\ ssIsPlayed f = false /\ ssMatchID f = 0 /\
  1 <= ssMatchday f <= 2 * (Z.of_nat (length ts) - 1) /\
  ssScheduledAt f = now + ssMatchday f * 24 * 3600 * Second /\
  ssHomeTeam f ∈ ts /\ ssAwayTeam f ∈ ts /\ ssHomeTeam f <> ssAwayTeam f.
Proof. apply seasonFixtures_elem. Qed.

Lemma pointers_filter_length (p : SeasonSchedule -> bool) (l : list SeasonSchedule) :
  length (List.filter (fun e : nat * SeasonSchedule => p e.2) (pointers l))
  = length (List.filter p l).
Proof.
  unfold pointers.
  assert (forall i x, (@pair nat SeasonSchedule i x).2 = x) as Hg by done.
  revert Hg. generalize (@pair nat SeasonSchedule) as g.
  induction l as [|x l IH]; intros g Hg; simpl; [done|].
  rewrite Hg. destruct (p x); simpl; rewrite IH; try done; intros i y; apply Hg.
Qed.

(** X4. After [generateSeasonSchedule] for a league with its ten teams,
    [getScheduledMatches] returns five fixtures for each of the matchdays
    1 to 18 and none for any other; with another number of teams the
    schedules are left as they were. *)
Theorem every_matchday_has_five_fixtures (now : Z) (league : string) (s : State) (d : Z) :
  league ∈ leagueOrder ->
  (length (getTeamsByLeague s league) = 10%nat ->
   length (getScheduledMatches (generateSeasonSchedule now league s) league d)
   = if (1 <=? d) && (d <=? 18) then 5%nat else 0%nat) /\
  (length (getTeamsByLeague s league) <> 10%nat ->
   generateSeasonSchedule now league s = s).
Proof.
  intros Hleague.
  assert (lgTeamCount (leagueConfig league) = 10) as Hcount.
  { unfold leagueOrder in Hleague.
    apply elem_of_cons in Hleague as [->|Hleague]; [by vm_compute|].
    apply list_elem_of_singleton in Hleague as ->. by vm_compute. }
  split; intros Hlen; unfold generateSeasonSchedule; rewrite Hcount.
  - rewrite Hlen. change (negb (Z.of_nat 10 =? 10)) with false. cbv iota.
    unfold getScheduledMatches, schedulesOf, set_seasonSchedules. cbn [seasonSchedules].
    rewrite lookup_insert_eq. cbn [default from_option]. unfold id.
    rewrite (pointers_filter_length (fun f => ssMatchday f =? d)).
    rewrite (seasonFixtures_matchday now league _ 5 d) by (done || lia).
    by rewrite Hlen.
  - destruct (Z.of_nat (length (getTeamsByLeague s league)) =? 10) eqn:E; [|done].
    apply Z.eqb_eq in E. lia.
Qed.

(** ** Fixture selection and booking over a season *)

Lemma firstLeague_league (leagues : list string) (f : string -> option nat)
    (league : string) (i : nat) :
  firstLeague leagues f = Some (league, i) -> league ∈ leagues.
Proof.
  induction leagues as [|lg rest IH]; [discriminate|]. simpl.
  destruct (f lg) as [j|] eqn:E.
  - intros [= <- <-]. by left.
  - intros H. right. by apply IH.
Qed.

Lemma firstLeague_none (leagues : list string) (f : string -> option nat) :
  firstLeague leagues f = None -> forall league, league ∈ leagues -> f league = None.
Proof.
  induction leagues as [|lg rest IH]; intros H league Hin; [by apply elem_of_nil in Hin|].
  simpl in H. destruct (f lg) as [j|] eqn:E; [discriminate|].
  apply elem_of_cons in Hin as [->|Hin]; [done | by apply IH].
Qed.

Lemma firstPointer_none (p : SeasonSchedule -> bool) (l : list (nat * SeasonSchedule)) :
  firstPointer p l = None -> forall e, e ∈ l -> p e.2 = false.
Proof.
  unfold firstPointer. destruct (List.find _ l) as [e0|] eqn:E; [discriminate|].
  intros _ e He. apply list_elem_of_In in He. by apply (find_none _ _ E).
Qed.

Lemma pointers_elem (l : list SeasonSchedule) (f : SeasonSchedule) :
  f ∈ l -> exists i, (i, f) ∈ pointers l.
Proof.
  intros Hf. apply list_elem_of_lookup_1 in Hf as [i Hi]. exists i.
  unfold pointers. apply elem_of_lookup_imap. by exists i, f.
Qed.

Lemma forallb_false {A} (p : A -> bool) (l : list A) :
  forallb p l = false -> exists x, x ∈ l /\ p x = false.
Proof.
  induction l as [|x l IH]; [discriminate|]. simpl.
  destruct (p x) eqn:E; simpl.
  - intros H. destruct (IH H) as (y & Hy & Hp). exists y. split; [by right | done].
  - intros _. exists x. split; [by left | done].
Qed.

Lemma getNextUnplayedMatch_league (s : State) (league : string) (i : nat) :
  getNextUnplayedMatch s = Some (league, i) -> league ∈ leagueOrder.
Proof.
  unfold getNextUnplayedMatch, getMatchForLeastPlayedTeams.
  destruct (2 <? _).
  - destruct (firstLeague leagueOrder _) as [[lg j]|] eqn:E.
    + intros [= <- <-]. by apply firstLeague_league in E.
    + apply firstLeague_league.
  - apply firstLeague_league.
Qed.

(** The scans for the largest and the smallest number of matches played
    bound the number of every stored team. *)
Lemma max_scan_ge (s : State) (l : list (Z * TeamInfo)) (acc : Z) :
  acc <= fold_left (fun maxMatches '(_, team) =>
                      let matchesPlayed := getTeamMatchesPlayed s (tiID team) in
                      if maxMatches <? matchesPlayed then matchesPlayed else maxMatches)
                   l acc /\
  forall e, e ∈ l ->
    getTeamMatchesPlayed s (tiID e.2)
    <= fold_left (fun maxMatches '(_, team) =>
                    let matchesPlayed := getTeamMatchesPlayed s (tiID team) in
                    if maxMatches <? matchesPlayed then matchesPlayed else maxMatches)
                 l acc.
Proof.
  revert acc. induction l as [|[k t] l IH]; intros acc; simpl; cbv zeta in *.
  - split; [lia|]. intros e He. by apply elem_of_nil in He.
  - destruct (acc <? getTeamMatchesPlayed s (tiID t)) eqn:E;
      [apply Z.ltb_lt in E | apply Z.ltb_ge in E].
    + destruct (IH (getTeamMatchesPlayed s (tiID t))) as [H1 H2].
      split; [lia|].
      intros e He. apply elem_of_cons in He as [->|He]; [done | by apply H2].
    + destruct (IH acc) as [H1 H2].
      split; [lia|].
      intros e He. apply elem_of_cons in He as [->|He]; [simpl; lia | by apply H2].
Qed.

Lemma min_scan_le (s : State) (l : list (Z * TeamInfo)) (acc : Z) :
  fold_left (fun minMatches '(_, team) =>
               let matchesPlayed := getTeamMatchesPlayed s (tiID team) in
               if matchesPlayed <? minMatches then matchesPlayed else minMatches)
            l acc <= acc /\
  forall e, e ∈ l ->
    fold_left (fun minMatches '(_, team) =>
                 let matchesPlayed := getTeamMatchesPlayed s (tiID team) in
                 if matchesPlayed <? minMatches then matchesPlayed else minMatches)
              l acc
    <= getTeamMatchesPlayed s (tiID e.2).
Proof.
  revert acc. induction l as [|[k t] l IH]; intros acc; simpl; cbv zeta in *.
  - split; [lia|]. intros e He. by apply elem_of_nil in He.
  - destruct (getTeamMatchesPlayed s (tiID t) <? acc) eqn:E;
      [apply Z.ltb_lt in E | apply Z.ltb_ge in E].
    + destruct (IH (getTeamMatchesPlayed s (tiID t))) as [H1 H2].
      split; [lia|].
      intros e He. apply elem_of_cons in He as [->|He]; [done | by apply H2].
    + destruct (IH acc) as [H1 H2].
      split; [lia|].
      intros e He. apply elem_of_cons in He as [->|He]; [simpl; lia | by apply H2].
Qed.

Lemma getMaximumMatchesPlayed_ge (s : State) (k : Z) (t : TeamInfo) :
  teams s !! k = Some t -> getTeamMatchesPlayed s (tiID t) <= getMaximumMatchesPlayed s.
Proof.
  intros H. apply elem_of_map_to_list in H.
  by apply (proj2 (max_scan_ge s (map_to_list (teams s)) 0) (k, t)).
Qed.

Lemma getMinimumMatchesPlayed_le (s : State) (k : Z) (t : TeamInfo) :
  teams s !! k = Some t -> getMinimumMatchesPlayed s <= getTeamMatchesPlayed s (tiID t).
Proof.
  intros H. apply elem_of_map_to_list in H.
  by apply (proj2 (min_scan_le s (map_to_list (teams s)) 999) (k, t)).
Qed.

(** While a fixture of one of the two leagues is unplayed, the selection
    returns a fixture. *)
Lemma getNextUnplayedMatch_progress (s : State) (league : string) (f : SeasonSchedule) :
  fixtureTeamsExist s ->
  league ∈ leagueOrder -> f ∈ schedulesOf s league -> ssIsPlayed f = false ->
  getNextUnplayedMatch s <> None.
Proof.
  intros Hteams Hleague Hf Hunplayed.
  destruct (pointers_elem _ _ Hf) as [i Hi].
  unfold getNextUnplayedMatch.
  destruct (2 <? getMaximumMatchesPlayed s - getMinimumMatchesPlayed s) eqn:Espread.
  - destruct (getMatchForLeastPlayedTeams s); [done|].
    intros Hnone.
    pose proof (firstLeague_none _ _ Hnone league Hleague) as Hnone'.
    pose proof (firstPointer_none _ _ Hnone' (i, f) Hi) as Hp. simpl in Hp.
    by rewrite Hunplayed in Hp.
  - apply Z.ltb_ge in Espread. intros Hnone.
    pose proof (firstLeague_none _ _ Hnone league Hleague) as Hnone'. simpl in Hnone'.
    assert ((i, f) ∈ sortSlice _ (fun a b : nat * SeasonSchedule =>
                                      ssMatchday a.2 <? ssMatchday b.2)
              (List.filter (fun e : nat * SeasonSchedule => negb (ssIsPlayed e.2))
                 (pointers (schedulesOf s league)))) as Hin.
    { rewrite sortSlice_perm. apply list_elem_of_In, filter_In.
      split; [by apply list_elem_of_In|]. simpl. by rewrite Hunplayed. }
    pose proof (firstPointer_none _ _ Hnone' (i, f) Hin) as Hp. simpl in Hp.
    destruct (Hteams league f Hleague Hf) as [[home Hhome] [away Haway]].
    pose proof (getMaximumMatchesPlayed_ge s _ _ Hhome) as Hh.
    pose proof (getMaximumMatchesPlayed_ge s _ _ Haway) as Ha.
    unfold derefTeam in Hp. rewrite Hhome, Haway in Hp. simpl in Hp.
    apply andb_false_iff in Hp as [Hp|Hp]; apply Z.leb_gt in Hp; lia.
Qed.

(** X5. With the fixtures pointing to stored teams, the selection comes
    back empty exactly when every fixture of both leagues is played: no
    unplayed fixture is ever stranded by the fairness rule, and a fixture is
    returned only from one of the two leagues. *)
Theorem selection_is_empty_only_when_season_is_played (s : State) :
  fixtureTeamsExist s ->
  (getNextUnplayedMatch s = None <-> shouldEndSeason s = true) /\
  (forall league i, getNextUnplayedMatch s = Some (league, i) -> league ∈ leagueOrder).
Proof.
  intros Hteams. split; [split|].
  - intros Hnone. destruct (shouldEndSeason s) eqn:E; [done|]. exfalso.
    unfold shouldEndSeason in E.
    apply forallb_false in E as (league & Hleague & E).
    apply forallb_false in E as (f & Hf & E).
    by apply (getNextUnplayedMatch_progress s league f).
  - intros Hend. destruct (getNextUnplayedMatch s) as [[league i]|] eqn:E; [|done].
    exfalso.
    pose proof (getNextUnplayedMatch_league _ _ _ E) as Hleague.
    apply getNextUnplayedMatch_unplayed in E as (f & Hf & Hunplayed).
    apply list_elem_of_lookup_2 in Hf.
    rewrite (proj1 (shouldEndSeason_spec s) Hend league f Hleague Hf) in Hunplayed.
    discriminate.
  - apply getNextUnplayedMatch_league.
Qed.

(** What [createNextMatch] writes when it starts a match. *)
Lemma createNextMatch_effect (now : Z) (d : KickoffDraws) (s : State) :
  createNextMatch now d s = s \/
  exists league i f,
    getNextUnplayedMatch s = Some (league, i) /\
    schedulesOf s league !! i = Some f /\ ssIsPlayed f = false /\
    leagueActiveCount (matches s) (ssLeague f) < MaxSimultaneousMatches /\
    seasonSchedules (createNextMatch now d s)
      = <[league := <[i := markPlayed (matchCounter s + 1) f]> (schedulesOf s league)]>
          (seasonSchedules s) /\
    matchCounter (createNextMatch now d s) = matchCounter s + 1 /\
    matches (createNextMatch now d s)
      = <[matchCounter s + 1 := kickoffMatch now d s f (matchCounter s + 1)]> (matches s) /\
    matchStats (createNextMatch now d s)
      = <[matchCounter s + 1 := generateInitialMatchStats now (matchCounter s + 1)]>
          (matchStats s) /\
    liveCommentary (createNextMatch now d s) !! (matchCounter s + 1)
      = Some [mkLiveCommentary (commentaryCounter s + 1) (matchCounter s + 1) 0
                ("Kickoff! " +:+ tiName (derefTeam s (ssHomeTeam f)) +:+ " vs " +:+
                 tiName (derefTeam s (ssAwayTeam f)) +:+ " at " +:+
                 tiStadium (derefTeam s (ssHomeTeam f)))
                EventKickoff None now] /\
    finishedMatches (createNextMatch now d s) = finishedMatches s /\
    teams (createNextMatch now d s) = teams s /\
    players (createNextMatch now d s) = players s.
Proof.
  unfold createNextMatch.
  destruct (getNextUnplayedMatch s) as [[league i]|] eqn:Enext; [|by left].
  destruct (schedulesOf s league !! i) as [f|] eqn:Ef; [|by left].
  destruct (ssIsPlayed f) eqn:Eplayed; [by left|].
  destruct (MaxSimultaneousMatches <=? _) eqn:E; [by left|].
  apply Z.leb_gt in E.
  destruct (calculateMatchProbabilities _ _) as [[homeWin draw] awayWin].
  right. exists league, i, f. repeat split; try done.
  unfold addLiveCommentary. cbn [liveCommentary set_commentary set_playerAvailability
    set_dynamicProbabilities set_matchMomentum set_playerLocations set_matchStats
    set_matches set_matchCounter set_seasonSchedules commentaryCounter].
  rewrite !lookup_insert_eq. done.
Qed.

Lemma createNextMatch_keeps_played (now : Z) (d : KickoffDraws) (s : State)
    (league : string) (i : nat) (f : SeasonSchedule) :
  schedulesOf s league !! i = Some f -> ssIsPlayed f = true ->
  schedulesOf (createNextMatch now d s) league !! i = Some f.
Proof.
  intros Hf Hplayed.
  destruct (createNextMatch_effect now d s)
    as [-> | (lg & j & g & _ & Hg & Hunplayed & _ & Hs & _)]; [done|].
  unfold schedulesOf at 1. rewrite Hs.
  destruct (decide (lg = league)) as [->|Hne].
  - rewrite lookup_insert_eq. simpl.
    destruct (decide (j = i)) as [->|Hji].
    + rewrite Hf in Hg. injection Hg as <-. congruence.
    + by rewrite list_lookup_insert_ne.
  - by rewrite lookup_insert_ne.
Qed.

(** X6. A fixture that is marked played keeps its flag and its match id
    through any number of calls of [createNextMatch], and the selection
    never returns it again: no fixture is started twice. *)
Theorem played_fixture_is_never_started_again (calls : list (Z * KickoffDraws)) (s : State)
    (league : string) (i : nat) (f : SeasonSchedule) :
  schedulesOf s league !! i = Some f -> ssIsPlayed f = true ->
  schedulesOf (createMatches calls s) league !! i = Some f /\
  getNextUnplayedMatch (createMatches calls s) <> Some (league, i).
Proof.
  intros Hf Hplayed.
  assert (schedulesOf (createMatches calls s) league !! i = Some f) as Hkept.
  { revert s Hf. unfold createMatches.
    induction calls as [|[now d] calls IH]; intros s Hf; [done|]. simpl.
    apply IH. by apply createNextMatch_keeps_played. }
  split; [done|]. intros Hnext.
  apply getNextUnplayedMatch_unplayed in Hnext as (g & Hg & Hunplayed).
  rewrite Hkept in Hg. injection Hg as <-. congruence.
Qed.

(** X7. When the selected fixture's league is below its cap,
    [createNextMatch] stamps the fixture as played with the id of a new
    match, and that match starts LIVE at 0-0 in minute 0 between the two
    teams of the fixture, with a consistent clock, 0 to 6 minutes of injury
    time, a kickoff line as its only commentary and fresh statistics. *)
Theorem createNextMatch_starts_the_selected_fixture (now : Z) (d : KickoffDraws)
    (s : State) (league : string) (i : nat) (f : SeasonSchedule) :
  getNextUnplayedMatch s = Some (league, i) ->
  schedulesOf s league !! i = Some f ->
  leagueActiveCount (matches s) (ssLeague f) < MaxSimultaneousMatches ->
  let s' := createNextMatch now d s in
  let id := matchCounter s + 1 in
  matchCounter s' = id /\
  schedulesOf s' league !! i = Some (markPlayed id f) /\
  getNextUnplayedMatch s' <> Some (league, i) /\
  (exists m,
     matches s' !! id = Some m /\
     mID m = id /\ mStatus m = StatusLive /\ mMinute m = 0 /\
     mHomeScore m = 0 /\ mAwayScore m = 0 /\ mCompetition m = ssLeague f /\
     mHomeTeam m = derefTeam s (ssHomeTeam f) /\ mAwayTeam m = derefTeam s (ssAwayTeam f) /\
     mMatchweekNum m = ssMatchday f /\ mSeason m = currentSeason s /\
     0 <= mInjuryTime m <= 6 /\ 20000 <= mAttendance m <= 99999 /\
     5 <= mTemperature m <= 29 /\ clockOk now m) /\
  matchStats s' !! id = Some (generateInitialMatchStats now id) /\
  (exists line, liveCommentary s' !! id = Some [line] /\ lcEventType line = EventKickoff).
Proof.
  intros Hnext Hf Hcap s' id.
  destruct (createNextMatch_effect now d s)
    as [Hsame | (lg & j & g & Hnext' & Hg & Hunplayed & _ & Hs & Hc & Hm & Hst & Hlc & _)].
  - exfalso. revert Hsame. unfold createNextMatch. rewrite Hnext, Hf.
    destruct (getNextUnplayedMatch_unplayed s league i Hnext) as (g & Hg & Hunplayed).
    rewrite Hf in Hg. injection Hg as <-. rewrite Hunplayed.
    destruct (MaxSimultaneousMatches <=? _) eqn:E; [apply Z.leb_le in E; lia|].
    destruct (calculateMatchProbabilities _ _) as [[homeWin draw] awayWin].
    intros Hsame. apply (f_equal matchCounter) in Hsame. simpl in Hsame. lia.
  - rewrite Hnext in Hnext'. injection Hnext' as <- <-.
    rewrite Hf in Hg. injection Hg as <-.
    assert (schedulesOf s' league !! i = Some (markPlayed id f)) as Hbooked.
    { unfold schedulesOf at 1. unfold s'. rewrite Hs, lookup_insert_eq. simpl.
      apply list_lookup_insert_eq. by eapply lookup_lt_Some. }
    repeat split; try done.
    + intros Hagain. apply getNextUnplayedMatch_unplayed in Hagain as (g & Hg & Hun).
      rewrite Hbooked in Hg. injection Hg as <-. discriminate.
    + exists (kickoffMatch now d s f id). unfold s'. rewrite Hm, lookup_insert_eq.
      unfold kickoffMatch, clockOk. simpl.
      pose proof (Z.mod_pos_bound (Z.of_nat (drawInjuryTime d)) 7 ltac:(lia)).
      pose proof (Z.mod_pos_bound (Z.of_nat (drawAttendance d)) 80000 ltac:(lia)).
      pose proof (Z.mod_pos_bound (Z.of_nat (drawTemperature d)) 25 ltac:(lia)).
      repeat split; try done; lia.
    + unfold s'. by rewrite Hst, lookup_insert_eq.
    + eexists. unfold s'. split; [exact Hlc | done].
Qed.

Lemma leagueActiveCount_delete (ms : gmap Z Match) (id : Z) (league : string) :
  leagueActiveCount (delete id ms) league <= leagueActiveCount ms league.
Proof.
  unfold leagueActiveCount.
  set (p := fun '(_, m0) => isActive m0 && String.eqb (mCompetition m0) league).
  destruct (ms !! id) as [old|] eqn:E.
  - rewrite <- (filter_length_perm p _ _ (map_to_list_delete ms id old E)). simpl.
    destruct (isActive old && String.eqb (mCompetition old) league); simpl; lia.
  - by rewrite delete_id.
Qed.

(** X8. When the post-match break is over, the finished match is moved
    from [matches] to [finishedMatches] unchanged, every other match stays
    where it is, and the match that replaces it keeps every league within
    its cap. *)
Theorem break_over_archives_match_and_respects_cap (now : Z) (d : KickoffDraws)
    (finishedMatchID : Z) (s : State) (m : Match) :
  matches s !! finishedMatchID = Some m ->
  let s' := startCooldownAndCreateNext now d finishedMatchID s in
  finishedMatches s' = <[finishedMatchID := m]> (finishedMatches s) /\
  (finishedMatchID <> matchCounter s + 1 -> matches s' !! finishedMatchID = None) /\
  (forall k, k <> finishedMatchID -> k <> matchCounter s + 1 ->
             matches s' !! k = matches s !! k) /\
  (forall league,
     leagueActiveCount (matches s) league <= MaxSimultaneousMatches ->
     leagueActiveCount (matches s') league <= MaxSimultaneousMatches).
Proof.
  intros Hm s'. unfold s', startCooldownAndCreateNext. rewrite Hm.
  set (s1 := set_matches _ _).
  assert (matches s1 = delete finishedMatchID (matches s)) as Hms by done.
  assert (finishedMatches s1 = <[finishedMatchID := m]> (finishedMatches s)) as Hfs by done.
  assert (matchCounter s1 = matchCounter s) as Hc by done.
  destruct (createNextMatch_effect now d s1)
    as [-> | (lg & j & g & _ & _ & _ & Hbelow & _ & _ & Hmatches & _ & _ & Hfin & _)].
  - rewrite Hms, Hfs. repeat split; try done.
    + intros _. apply lookup_delete_eq.
    + intros k Hk _. by apply lookup_delete_ne.
    + intros league Hcap. pose proof (leagueActiveCount_delete (matches s) finishedMatchID league).
      lia.
  - rewrite Hfin, Hmatches, Hfs, Hms, Hc. repeat split; try done.
    + intros Hne. rewrite lookup_insert_ne by done. apply lookup_delete_eq.
    + intros k Hk Hk'. rewrite lookup_insert_ne by done. by apply lookup_delete_ne.
    + intros league Hcap.
      pose proof (leagueActiveCount_delete (matches s) finishedMatchID league) as Hdel.
      pose proof (leagueActiveCount_insert (delete finishedMatchID (matches s))
                    (matchCounter s + 1)
                    (kickoffMatch now d s1 g (matchCounter s + 1)) league) as Hins.
      rewrite Hms in Hbelow.
      destruct (isActive _ && String.eqb _ league) eqn:E; [|lia].
      apply andb_true_iff in E as [_ E]. apply String.eqb_eq in E.
      change (mCompetition (kickoffMatch now d s1 g (matchCounter s + 1)))
        with (ssLeague g) in E.
      subst league. lia.
Qed.

(** ** Commentary feed, card candidates, team form *)

Lemma StronglySorted_take {A} (R : relation A) (n : nat) (l : list A) :
  StronglySorted R l -> StronglySorted R (take n l).
Proof.
  intros H. rewrite <- (take_drop n l) in H. by apply StronglySorted_app_1_l in H.
Qed.

(** X9. [addLiveCommentary] puts the new line, with the next id of the
    counter, in front of the feed of its match and keeps the 29 newest old
    lines; every feed stays at most 30 lines long, newest first with
    strictly decreasing ids, and the feeds of other matches are not
    touched. *)
Theorem commentary_feed_stays_newest_first (now matchID minute : Z) (text : string)
    (e : EventType) (p : option Z) (s : State) :
  feedOrdered s ->
  let s' := addLiveCommentary now matchID minute text e p s in
  feedOrdered s' /\
  commentaryCounter s' = commentaryCounter s + 1 /\
  liveCommentary s' !! matchID
    = Some (mkLiveCommentary (commentaryCounter s + 1) matchID minute text e p now
              :: take 29 (default [] (liveCommentary s !! matchID))) /\
  (forall other, other <> matchID -> liveCommentary s' !! other = liveCommentary s !! other).
Proof.
  intros Hs s'. unfold s', addLiveCommentary.
  set (c := mkLiveCommentary _ _ _ _ _ _ _). set (old := default [] _).
  assert ((length old <= 30)%nat /\
          StronglySorted (fun a b => lcID b < lcID a) old /\
          Forall (fun c => lcID c <= commentaryCounter s) old) as (Hlen & Hsorted & Hids).
  { unfold old. destruct (liveCommentary s !! matchID) as [feed|] eqn:E; simpl.
    - by apply (Hs matchID).
    - repeat split; [lia | constructor | constructor]. }
  cbn [liveCommentary set_commentary commentaryCounter].
  change (take 30 (c :: old)) with (c :: take 29 old).
  split; [|split; [done|split]].
  - intros k feed. cbn [liveCommentary set_commentary commentaryCounter].
    destruct (decide (k = matchID)) as [->|Hne].
    + rewrite lookup_insert_eq. intros [= <-].
      split; [simpl; rewrite length_take; lia|]. split.
      * constructor; [by apply StronglySorted_take|]. apply Forall_take.
        eapply Forall_impl; [exact Hids|]. intros x Hx. simpl in *. lia.
      * constructor; [simpl; lia|]. apply Forall_take.
        eapply Forall_impl; [exact Hids|]. intros x Hx. simpl in *. lia.
    + rewrite lookup_insert_ne by done. intros Hfeed.
      destruct (Hs k feed Hfeed) as (H1 & H2 & H3). repeat split; try done.
      eapply Forall_impl; [exact H3|]. intros x Hx. simpl in *. lia.
  - by rewrite lookup_insert_eq.
  - intros other Hne. by rewrite lookup_insert_ne.
Qed.

Lemma getAvailablePlayersForMatch_elem (s : State) (matchID k : Z) (p : Player) :
  (k, p) ∈ getAvailablePlayersForMatch s matchID ->
  exists m,
    matches s !! matchID = Some m /\ players s !! k = Some p /\
    (pTeamID p = tiID (mHomeTeam m) \/ pTeamID p = tiID (mAwayTeam m)) /\
    isPlayerAvailable s matchID (pID p) = true.
Proof.
  unfold getAvailablePlayersForMatch.
  destruct (matches s !! matchID) as [m|]; [|by intros ?%elem_of_nil].
  intros H. apply list_elem_of_In, filter_In in H as [H Havail].
  exists m. split; [done|].
  apply in_app_or in H. unfold getPlayersFromTeam in H.
  destruct H as [H|H]; apply filter_In in H as [H Hteam];
    apply list_elem_of_In, elem_of_map_to_list in H; apply Z.eqb_eq in Hteam;
    repeat split; auto.
Qed.

(** X10. The players [handleCardEvent] chooses from are stored players of
    the two teams of the match who are marked available; and right after a
    direct red card the player it sent off is no longer among them, so
    that the card handler cannot pick him in the state it leaves.  (Only
    this pool is meant: the foul handler draws from the players near the
    ball and does not consult availability.) *)
Theorem card_candidates_are_available_squad_players :
  (forall (s : State) (matchID k : Z) (p : Player),
     (k, p) ∈ getAvailablePlayersForMatch s matchID ->
     exists m,
       matches s !! matchID = Some m /\ players s !! k = Some p /\
       (pTeamID p = tiID (mHomeTeam m) \/ pTeamID p = tiID (mAwayTeam m)) /\
       isPlayerAvailable s matchID (pID p) = true) /\
  (forall (now : Z) (pick : nat) (matchID : Z) (s s' : State) (m : Match) (k : Z)
          (player : Player),
     matches s !! matchID = Some m ->
     getAvailablePlayersForMatch s matchID
       !! (pick `mod` length (getAvailablePlayersForMatch s matchID))%nat
       = Some (k, player) ->
     handleCardEvent now pick true matchID s = Some s' ->
     forall (k' : Z) (p' : Player),
       (k', p') ∈ getAvailablePlayersForMatch s' matchID -> pID p' <> pID player).
Proof.
  split; [apply getAvailablePlayersForMatch_elem|].
  intros now pick matchID s s' m k player Hm Hpick Hcard k' p' Hin Heq.
  destruct (handleCardEvent_red_unavailable now pick matchID s s' m k player Hm Hpick Hcard)
    as [_ Hun].
  apply getAvailablePlayersForMatch_elem in Hin as (m' & _ & _ & _ & Havail).
  rewrite Heq in Havail. congruence.
Qed.

Lemma formPoints_bounds (form : list string) (acc : Z) :
  acc <= fold_left (fun points r =>
                      if String.eqb r "W" then points + 3
                      else if String.eqb r "D" then points + 1
                      else points) form acc
      <= acc + 3 * Z.of_nat (length form).
Proof.
  revert acc. induction form as [|r form IH]; intros acc; simpl; [lia|].
  destruct (String.eqb r "W"); [|destruct (String.eqb r "D")].
  - specialize (IH (acc + 3)). lia.
  - specialize (IH (acc + 1)). lia.
  - specialize (IH acc). lia.
Qed.

(** X11. [updateTeamForm] keeps the last five results: the form stays at
    most five entries long and ends with the new result, its points lie
    between 0 and 15, and for such a team the strength is exactly
    [0.4 + points / 50], without either clamp. *)
Theorem team_form_keeps_last_five (team : TeamInfo) (result : string) (isHome : bool) :
  (length (tiForm team) <= 5)%nat ->
  let team' := updateTeamForm team result isHome in
  (length (tiForm team') <= 5)%nat /\
  last (tiForm team') = Some result /\
  tiFormPoints team' = formPoints (tiForm team') /\
  0 <= tiFormPoints team' <= 15 /\
  (calculateTeamStrength team' == 0.4 + inject_Z (tiFormPoints team') / 50)%Q /\
  tiID team' = tiID team.
Proof.
  intros Hlen team'. unfold team', updateTeamForm. cbn [tiForm tiFormPoints tiID].
  set (form := (if (5 <=? length (tiForm team))%nat then drop 1 (tiForm team)
                else tiForm team) ++ [result]).
  assert (length form <= 5)%nat as Hform.
  { unfold form. rewrite length_app. change (length [result]) with 1%nat.
    destruct (5 <=? length (tiForm team))%nat eqn:E.
    - rewrite length_drop. lia.
    - apply Nat.leb_gt in E. lia. }
  assert (0 <= formPoints form <= 15) as Hpoints.
  { pose proof (formPoints_bounds form 0) as H. unfold formPoints. lia. }
  repeat split; try done; try lia.
  - unfold form. apply last_snoc.
  - unfold calculateTeamStrength. cbn [tiFormPoints].
    set (x := inject_Z (formPoints form)).
    assert (0 <= x <= 15)%Q as Hx.
    { unfold x. split.
      - change 0%Q with (inject_Z 0). rewrite <- Zle_Qle. lia.
      - change 15%Q with (inject_Z 15). rewrite <- Zle_Qle. lia. }
    assert (x / 15 * 0.3 == x * (1 # 50))%Q as Hq by field.
    assert (Qltb (0.4 + x / 15 * 0.3) 0.4 = false) as ->.
    { apply Qltb_false. rewrite Hq. lra. }
    assert (Qltb 0.7 (0.4 + x / 15 * 0.3) = false) as ->.
    { apply Qltb_false. rewrite Hq. lra. }
    field.
Qed.

(** ** Season end: history, awards, career totals *)

(** X12. [endSeason] keeps the last ten seasons: a history of at most
    ten records stays at most ten records long, the record of the season
    that ended is its last entry, and it is the oldest record that is
    dropped when the history was full. *)
Theorem season_history_keeps_last_ten (now : Z) (s s' : State) :
  endSeason now s = Some s' ->
  (length (seasonHistory s) <= 10)%nat ->
  (length (seasonHistory s') <= 10)%nat /\
  exists record,
    last (seasonHistory s') = Some record /\
    shSeason record = currentSeason s /\
    ((length (seasonHistory s) < 10)%nat /\
     seasonHistory s' = seasonHistory s ++ [record] \/
     length (seasonHistory s) = 10%nat /\
     seasonHistory s' = drop 1 (seasonHistory s) ++ [record]).
Proof.
  intros Hend Hlen.
  destruct (endSeason_effect now s s' Hend) as (_ & _ & _ & _ & record & Hseason & Hhist).
  rewrite length_app in Hhist. change (length [record]) with 1%nat in Hhist.
  unfold MaxSeasonHistory in Hhist.
  destruct (10 <? Z.of_nat (length (seasonHistory s) + 1)) eqn:E;
    [apply Z.ltb_lt in E | apply Z.ltb_ge in E].
  - assert (length (seasonHistory s) = 10%nat) as Hfull by lia.
    assert (drop 1 (seasonHistory s ++ [record]) = drop 1 (seasonHistory s) ++ [record])
      as Hdrop.
    { destruct (seasonHistory s); [discriminate | done]. }
    rewrite Hdrop in Hhist. rewrite Hhist. split.
    + rewrite length_app, length_drop. simpl. lia.
    + exists record. split; [apply last_snoc|]. split; [done|]. by right.
  - rewrite Hhist. split.
    + rewrite length_app. simpl. lia.
    + exists record. split; [apply last_snoc|]. split; [done|]. left. split; [lia | done].
Qed.

Lemma scanPlayers_none {K} (better : Player -> K -> bool) (key : Player -> K) (zero : K)
    (s : State) :
  scanPlayers better key zero s = None <-> players s = ∅.
Proof.
  unfold scanPlayers. rewrite <- (map_to_list_empty_iff (players s)).
  destruct (map_to_list (players s)) as [|e l] eqn:E.
  - simpl. done.
  - destruct (fold_left _ _ _).2; simpl; split; discriminate.
Qed.

(** X13. [endSeason] stops on a nil dereference exactly when the player
    pool is empty; with at least one player stored it completes, moves to
    the next season and resets every player. *)
Theorem endSeason_fails_only_on_empty_pool (now : Z) (s : State) :
  (endSeason now s = None <-> players s = ∅) /\
  (players s <> ∅ ->
   exists s', endSeason now s = Some s' /\
              currentSeason s' = currentSeason s + 1 /\ currentMatchweek s' = 1 /\
              players s' = resetPlayer <$> players s).
Proof.
  assert (players s <> ∅ -> exists s', endSeason now s = Some s') as Hsome.
  { intros Hne. unfold endSeason.
    destruct (findTopScorer s) as [p1|] eqn:E1;
      [|by apply scanPlayers_none in E1].
    destruct (findTopAssists s) as [p2|] eqn:E2;
      [|by apply scanPlayers_none in E2].
    destruct (findMostFouls s) as [p3|] eqn:E3;
      [|by apply scanPlayers_none in E3].
    destruct (findPlayerOfSeason s) as [p4|] eqn:E4;
      [|by apply scanPlayers_none in E4].
    simpl. by eexists. }
  split; [split|].
  - intros Hnone. destruct (decide (players s = ∅)) as [|Hne]; [done|].
    destruct (Hsome Hne) as [s' Hs']. congruence.
  - intros Hempty. unfold endSeason.
    assert (findTopScorer s = None) as -> by by apply scanPlayers_none.
    done.
  - intros Hne. destruct (Hsome Hne) as [s' Hs']. exists s'. split; [done|].
    destruct (endSeason_effect now s s' Hs') as (_ & H1 & H2 & H3 & _). done.
Qed.

(** The scan for the largest integer score. *)
Lemma scan_max (better : Player -> Z -> bool) (key : Player -> Z)
    (l : list (Z * Player)) (best : Z) (top : option Player) :
  (forall p b, better p b = (b <? key p)) ->
  exists best' top',
    fold_left (fun '(best, top) '(_, player) =>
                 if better player best then (key player, Some player) else (best, top))
              l (best, top) = (best', top') /\
    best <= best' /\
    (forall e, e ∈ l -> key e.2 <= best') /\
    (top' = top /\ best' = best \/
     exists e, e ∈ l /\ top' = Some e.2 /\ key e.2 = best').
Proof.
  intros Hbetter. revert best top.
  induction l as [|[k p] l IH]; intros best top; simpl.
  - exists best, top. split; [done|]. split; [lia|]. split; [|by left].
    intros e He. by apply elem_of_nil in He.
  - rewrite Hbetter. destruct (best <? key p) eqn:E;
      [apply Z.ltb_lt in E | apply Z.ltb_ge in E].
    + destruct (IH (key p) (Some p)) as (best' & top' & -> & H1 & H2 & H3).
      exists best', top'. split; [done|]. split; [lia|]. split.
      * intros e He. apply elem_of_cons in He as [->|He]; [done | by apply H2].
      * right. destruct H3 as [[-> ->] | (e & He & -> & Hkey)].
        -- exists (k, p). split; [by left | done].
        -- exists e. split; [by right | done].
    + destruct (IH best top) as (best' & top' & -> & H1 & H2 & H3).
      exists best', top'. split; [done|]. split; [lia|]. split.
      * intros e He. apply elem_of_cons in He as [->|He]; [simpl; lia | by apply H2].
      * destruct H3 as [[-> ->] | (e & He & -> & Hkey)]; [by left|].
        right. exists e. split; [by right | done].
Qed.

Lemma scanPlayers_leader (better : Player -> Z -> bool) (key : Player -> Z) (s : State)
    (p : Player) :
  (forall p b, better p b = (b <? key p)) ->
  scanPlayers better key 0 s = Some p ->
  (exists k, players s !! k = Some p) /\
  (forall k q, players s !! k = Some q -> key q <= Z.max 0 (key p)).
Proof.
  intros Hbetter. unfold scanPlayers.
  destruct (scan_max better key (map_to_list (players s)) 0 None Hbetter)
    as (best' & top' & -> & H1 & H2 & H3).
  simpl. destruct H3 as [[-> ->] | ([k0 p0] & He & -> & Hkey)].
  - destruct (map_to_list (players s)) as [|[k0 p0] l] eqn:E; [discriminate|].
    simpl. intros [= <-]. split.
    + exists k0. apply elem_of_map_to_list. rewrite E. by left.
    + intros k q Hq. apply elem_of_map_to_list in Hq. rewrite E in Hq.
      specialize (H2 (k, q) Hq). simpl in H2. lia.
  - intros [= <-]. simpl in *. split.
    + exists k0. by apply elem_of_map_to_list.
    + intros k q Hq. apply elem_of_map_to_list in Hq.
      specialize (H2 (k, q) Hq). simpl in H2. lia.
Qed.

(** X14. The season awards go to stored players with the best record:
    nobody has more season goals than the top scorer, more season assists
    than the top assister, or a higher foul count (yellow cards plus twice
    the red cards) than the player named for most fouls.  When nobody has a
    positive score the award still goes to a stored player. *)
Theorem season_awards_go_to_the_leaders (s : State) (p : Player) :
  (findTopScorer s = Some p ->
   (exists k, players s !! k = Some p) /\
   forall k q, players s !! k = Some q ->
     GoalsThisSeason (pSeasonStats q) <= Z.max 0 (GoalsThisSeason (pSeasonStats p))) /\
  (findTopAssists s = Some p ->
   (exists k, players s !! k = Some p) /\
   forall k q, players s !! k = Some q ->
     AssistsThisSeason (pSeasonStats q) <= Z.max 0 (AssistsThisSeason (pSeasonStats p))) /\
  (findMostFouls s = Some p ->
   (exists k, players s !! k = Some p) /\
   forall k q, players s !! k = Some q -> totalFouls q <= Z.max 0 (totalFouls p)).
Proof.
  split; [|split].
  - by apply (scanPlayers_leader _ (fun p => GoalsThisSeason (pSeasonStats p))).
  - by apply (scanPlayers_leader _ (fun p => AssistsThisSeason (pSeasonStats p))).
  - by apply (scanPlayers_leader _ totalFouls).
Qed.

(** X15. A goal is entered twice in the career total: [handleGoalEvent]
    adds it to the career goals and to the season goals of the scorer, and
    the season reset of [endSeason] adds the season goals to the career
    goals once more. *)
Theorem goal_counts_twice_in_career_total (now now' : Z) (r : Q) (matchID : Z)
    (s s' : State) (m : Match) (ball : BallPosition) (k : Z) (scorer : Player) :
  playersKeyed s ->
  matches s !! matchID = Some m ->
  ballPositions s !! matchID = Some ball ->
  goalScorer s matchID ball r = Some k ->
  players s !! k = Some scorer ->
  endSeason now' (handleGoalEvent now r matchID s) = Some s' ->
  pGoals <$> players (handleGoalEvent now r matchID s) !! k = Some (pGoals scorer + 1) /\
  pGoals <$> players s' !! k
    = Some (pGoals scorer + GoalsThisSeason (pSeasonStats scorer) + 2) /\
  (GoalsThisSeason ∘ pSeasonStats) <$> players s' !! k = Some 0.
Proof.
  intros Hkeyed Hm Hball Hscorer Hk Hend.
  destruct (handleGoalEvent_result now r matchID s m ball k scorer Hm Hball Hscorer Hk)
    as [_ Hplayers].
  destruct (endSeason_effect _ _ _ Hend) as (_ & _ & _ & Hreset & _).
  assert (players (handleGoalEvent now r matchID s) !! k = Some (creditGoal scorer)) as Hafter.
  { rewrite Hplayers. unfold goalAssister.
    destruct (negb (bLastTouchID ball =? 0) && negb (bLastTouchID ball =? pID scorer))
      eqn:E; [|by rewrite lookup_insert_eq].
    apply andb_true_iff in E as [_ E]. apply negb_true_iff, Z.eqb_neq in E.
    rewrite (Hkeyed k scorer Hk) in E.
    cbn [players set_players].
    destruct (<[k:=creditGoal scorer]> (players s) !! bLastTouchID ball) as [a|];
      [|by rewrite lookup_insert_eq].
    destruct (pTeamID a =? pTeamID scorer); [|by rewrite lookup_insert_eq].
    rewrite lookup_alter_ne by done. by rewrite lookup_insert_eq. }
  rewrite Hreset, lookup_fmap, Hafter. simpl. repeat split. f_equal. lia.
Qed.

(** ** League tables: teams, points and row sums *)

Lemma sortLeagueTable_fmap_perm {B} (g : LeagueTable -> B) (table : list LeagueTable) :
  (forall p r, g (withPosition p r) = g r) ->
  g <$> sortLeagueTable table ≡ₚ g <$> table.
Proof.
  intros Hg.
  assert (forall l : list LeagueTable, g <$> l = g <$> map (withPosition 0) l) as E.
  { induction l as [|x l IH]; csimpl; [done|]. by rewrite Hg, IH. }
  rewrite (E (sortLeagueTable table)), (E table).
  apply fmap_Permutation, sortLeagueTable_rows.
Qed.

Lemma updateFirst_fmap {A B} (g : A -> B) (p : A -> bool) (f : A -> A) (l : list A) :
  (forall x, p x = true -> g (f x) = g x) -> g <$> updateFirst p f l = g <$> l.
Proof.
  intros Hg. induction l as [|x l IH]; csimpl; [done|].
  destruct (p x) eqn:E; csimpl; [by rewrite Hg | by rewrite IH].
Qed.

Lemma updateFirst_Forall {A} (P : A -> Prop) (p : A -> bool) (f : A -> A) (l : list A) :
  Forall P l -> (forall x, P (f x)) -> Forall P (updateFirst p f l).
Proof.
  intros Hl Hf. induction Hl as [|x l Hx Hl IH]; simpl; [constructor|].
  destruct (p x); constructor; auto.
Qed.

Lemma updateFirst_points (p : LeagueTable -> bool) (f : LeagueTable -> LeagueTable)
    (l : list LeagueTable) (points : Z) :
  (forall x, ltPoints (f x) = ltPoints x + points) ->
  totalPoints (updateFirst p f l) = totalPoints l + (if existsb p l then points else 0).
Proof.
  intros Hf. unfold totalPoints. induction l as [|x l IH]; csimpl; [done|].
  destruct (p x) eqn:E; csimpl; [rewrite Hf; lia | rewrite IH; lia].
Qed.

Lemma foldr_add_perm (l l' : list Z) : l ≡ₚ l' -> foldr Z.add 0 l = foldr Z.add 0 l'.
Proof. induction 1; simpl; lia. Qed.

Lemma rowConsistent_withPosition (p : Z) (r : LeagueTable) :
  rowConsistent (withPosition p r) <-> rowConsistent r.
Proof. unfold rowConsistent. simpl. tauto. Qed.

Lemma sortLeagueTable_consistent (table : list LeagueTable) :
  Forall rowConsistent table -> Forall rowConsistent (sortLeagueTable table).
Proof.
  intros H. apply Forall_forall. intros x Hx.
  assert (withPosition 0 x ∈ map (withPosition 0) (sortLeagueTable table)) as Hin.
  { apply list_elem_of_fmap. by exists x. }
  rewrite sortLeagueTable_rows in Hin. apply list_elem_of_fmap in Hin as (y & Hxy & Hy).
  rewrite Forall_forall in H. specialize (H y Hy).
  assert (rowConsistent (withPosition 0 x)) as Hc.
  { rewrite Hxy. by apply (proj2 (rowConsistent_withPosition 0 y)). }
  by apply (proj1 (rowConsistent_withPosition 0 x)).
Qed.

Lemma updateTeamStats_consistent (now teamID points wins draws losses : Z) (m : Match)
    (s : State) :
  tablesConsistent s ->
  tablesConsistent (updateTeamStats now teamID points wins draws losses m s).
Proof.
  intros Hs. unfold updateTeamStats.
  destruct (teams s !! teamID) as [team|]; [|done].
  intros league table. cbn [leagueTables set_leagueTables set_teams].
  rewrite lookup_fmap.
  destruct (leagueTables s !! league) as [old|] eqn:E; [|discriminate].
  simpl. intros [= <-]. apply sortLeagueTable_consistent, updateFirst_Forall.
  - by apply (Hs league).
  - intros r. unfold rowConsistent, updateEntry. simpl. lia.
Qed.

Lemma freshTable_consistent (now : Z) (s : State) (league : string) :
  Forall rowConsistent (freshTable now s league).
Proof.
  apply Forall_forall. intros r Hr. unfold freshTable in Hr.
  apply elem_of_lookup_imap in Hr as (i & team & -> & _).
  unfold rowConsistent. simpl. lia.
Qed.

(** X16. Every standings row adds up - played is won plus drawn plus
    lost, and the goal difference is goals for minus goals against - in
    the fresh tables of [initializeLeagueTables], and it stays so through
    [updateTeamStats] and through the table update for a finished match. *)
Theorem standings_rows_add_up (now : Z) (s : State) :
  tablesConsistent s ->
  tablesConsistent (initializeLeagueTables now s) /\
  (forall teamID points wins draws losses m,
     tablesConsistent (updateTeamStats now teamID points wins draws losses m s)) /\
  (forall m, tablesConsistent (recordResult now m s)).
Proof.
  intros Hs. split; [|split].
  - intros league table. unfold initializeLeagueTables, leagueOrder.
    cbn [leagueTables set_leagueTables fold_left].
    destruct (decide (league = LeagueCommunityLeague)) as [->|Hc].
    { rewrite lookup_insert_eq. intros [= <-]. apply freshTable_consistent. }
    rewrite lookup_insert_ne by done.
    destruct (decide (league = LeaguePremier)) as [->|Hp].
    { rewrite lookup_insert_eq. intros [= <-]. apply freshTable_consistent. }
    rewrite lookup_insert_ne by done. apply Hs.
  - intros. by apply updateTeamStats_consistent.
  - intros m. unfold recordResult.
    destruct (mAwayScore m <? mHomeScore m); [|destruct (mHomeScore m <? mAwayScore m)];
      by do 2 apply updateTeamStats_consistent.
Qed.

(** X17. [updateTeamStats] for a stored team changes one row at most in
    each table: the table lists the same teams as before, as many rows,
    and its points grow by the points awarded when the team has a row in it
    and not at all otherwise. *)
Theorem result_adds_points_to_one_row (now teamID points wins draws losses : Z)
    (m : Match) (s : State) (league : string) (table : list LeagueTable)
    (team : TeamInfo) :
  teamsKeyed s ->
  teams s !! teamID = Some team ->
  leagueTables s !! league = Some table ->
  exists table',
    leagueTables (updateTeamStats now teamID points wins draws losses m s) !! league
      = Some table' /\
    tableTeams table' ≡ₚ tableTeams table /\
    length table' = length table /\
    totalPoints table' = totalPoints table + (if hasRow teamID table then points else 0).
Proof.
  intros Hkeyed Hteam Htable. unfold updateTeamStats. rewrite Hteam.
  cbn [leagueTables set_leagueTables set_teams]. rewrite lookup_fmap, Htable. simpl.
  eexists. split; [reflexivity|].
  set (team' := updateTeamForm team _ _).
  set (p := fun r : LeagueTable => tiID (ltTeam r) =? teamID).
  set (f := updateEntry now team' points wins draws losses _ m).
  assert (tableTeams (sortLeagueTable (updateFirst p f table)) ≡ₚ tableTeams table)
    as Hteams.
  { unfold tableTeams. rewrite sortLeagueTable_fmap_perm by done.
    rewrite updateFirst_fmap; [done|].
    intros r Hr. unfold p in Hr. apply Z.eqb_eq in Hr. unfold f, updateEntry. simpl.
    rewrite Hr. apply (Hkeyed teamID team Hteam). }
  split; [exact Hteams|]. split.
  - apply Permutation_length in Hteams. unfold tableTeams in Hteams.
    by rewrite !length_fmap in Hteams.
  - unfold totalPoints at 1.
    rewrite (foldr_add_perm _ _ (sortLeagueTable_fmap_perm ltPoints _ ltac:(done))).
    apply (updateFirst_points p f table points). intros r. done.
Qed.

(** ** Nearest attacker, ratings at full time, generated players *)

Lemma nearerAttacker_scan (s : State) (ball : BallPosition) (team : Z)
    (entries : list (Z * PlayerLocation)) (best : option Q * option Z) :
  (fold_left (nearerAttacker s ball team) entries best = best \/
   exists k location p,
     (k, location) ∈ entries /\ players s !! k = Some p /\ pTeamID p = team /\
     isAttacker p = true /\ (distance2 ball location < sq 15)%Q /\
     fold_left (nearerAttacker s ball team) entries best
       = (Some (distance2 ball location), Some k)) /\
  (forall k location p,
     (k, location) ∈ entries -> players s !! k = Some p -> pTeamID p = team ->
     isAttacker p = true -> (distance2 ball location < sq 15)%Q ->
     exists d, (fold_left (nearerAttacker s ball team) entries best).1 = Some d /\
               (d <= distance2 ball location)%Q) /\
  (forall d0, best.1 = Some d0 ->
     exists d, (fold_left (nearerAttacker s ball team) entries best).1 = Some d /\
               (d <= d0)%Q).
Proof.
  revert best. induction entries as [|[k0 loc0] entries IH]; intros best.
  - simpl. split; [by left|]. split.
    + intros k location p Hin. by apply elem_of_nil in Hin.
    + intros d0 Hd0. exists d0. split; [done | apply Qle_refl].
  - cbn [fold_left].
    set (b1 := nearerAttacker s ball team best (k0, loc0)).
    destruct (IH b1) as (IH1 & IH2 & IH3).
    (* what the step did *)
    assert (b1 = best \/
            exists p, players s !! k0 = Some p /\ pTeamID p = team /\ isAttacker p = true /\
                      (distance2 ball loc0 < sq 15)%Q /\
                      (forall d0, best.1 = Some d0 -> (distance2 ball loc0 < d0)%Q) /\
                      b1 = (Some (distance2 ball loc0), Some k0)) as Hstep.
    { unfold b1, nearerAttacker.
      destruct (players s !! k0) as [p|] eqn:Ep; [|by left].
      destruct ((pTeamID p =? team) && _) eqn:Eel; [|by left].
      fold (distance2 ball loc0).
      destruct (_ && Qltb (distance2 ball loc0) (sq 15)) eqn:Ec; [|by left].
      right. exists p. apply andb_true_iff in Eel as [Et Ea]. apply Z.eqb_eq in Et.
      apply andb_true_iff in Ec as [Ec1 Ec2]. apply Qltb_true in Ec2.
      repeat split; try done.
      intros d0 Hd0. rewrite Hd0 in Ec1. by apply Qltb_true. }
    (* the step never loses a bound *)
    assert (forall d0, best.1 = Some d0 -> exists d, b1.1 = Some d /\ (d <= d0)%Q) as Hmono.
    { intros d0 Hd0. destruct Hstep as [-> | (p & _ & _ & _ & _ & Hlt & ->)].
      - exists d0. split; [done | apply Qle_refl].
      - eexists. split; [done|]. apply Qlt_le_weak. by apply Hlt. }
    split; [|split].
    + destruct IH1 as [IH1 | (k & location & p & Hin & Hp & Ht & Ha & Hd & Hr)].
      * rewrite IH1. destruct Hstep as [-> | (p & Hp & Ht & Ha & Hd & _ & ->)]; [by left|].
        right. exists k0, loc0, p. repeat split; try done. by left.
      * right. exists k, location, p. repeat split; try done. by right.
    + intros k location p Hin Hp Ht Ha Hd.
      apply elem_of_cons in Hin as [[= -> ->] | Hin]; [|by apply (IH2 k location p)].
      assert (exists d, b1.1 = Some d /\ (d <= distance2 ball loc0)%Q) as (d & Hd1 & Hle).
      { destruct Hstep as [Hsame | (p' & _ & _ & _ & _ & _ & ->)].
        - (* not taken although eligible and in range: the bound was smaller *)
          revert Hsame. unfold b1, nearerAttacker. rewrite Hp.
          assert ((pTeamID p =? team) &&
                  match pPosition p with
                  | PosST | PosCAM | PosLW | PosRW => true
                  | _ => false
                  end = true) as ->.
          { apply andb_true_iff. split; [by apply Z.eqb_eq | exact Ha]. }
          fold (distance2 ball loc0).
          assert (Qltb (distance2 ball loc0) (sq 15) = true) as -> by by apply Qltb_true.
          destruct best as [[min2|] top]; simpl.
          + destruct (Qltb (distance2 ball loc0) min2) eqn:E; simpl.
            * intros _. exists (distance2 ball loc0). split; [done | apply Qle_refl].
            * intros _. exists min2. split; [done | by apply Qltb_false].
          + discriminate.
        - eexists. split; [done | apply Qle_refl]. }
      destruct (IH3 d Hd1) as (d' & Hd' & Hle').
      exists d'. split; [done | by eapply Qle_trans].
    + intros d0 Hd0. destruct (Hmono d0 Hd0) as (d & Hd & Hle).
      destruct (IH3 d Hd) as (d' & Hd' & Hle').
      exists d'. split; [done | by eapply Qle_trans].
Qed.

(** X18. The fallback scorer of a goal, [findNearestAttackingPlayer], is
    a striker, attacking midfielder or winger of the side attacking the
    half the ball is in, located less than 15 units from the ball, and no
    such player is strictly nearer; it finds nobody only when no such
    player is within 15 units. *)
Theorem nearest_attacker_is_the_nearest (s : State) (matchID : Z) (ball : BallPosition)
    (m : Match) (locations : gmap Z PlayerLocation) :
  matches s !! matchID = Some m ->
  playerLocations s !! matchID = Some locations ->
  let team := attackingTeamOf m ball in
  (forall k, findNearestAttackingPlayer s matchID ball = Some k ->
     exists location,
       attackerAt s locations team k location /\
       (distance2 ball location < sq 15)%Q /\
       forall k' location', attackerAt s locations team k' location' ->
                            (distance2 ball location <= distance2 ball location')%Q) /\
  (findNearestAttackingPlayer s matchID ball = None ->
   forall k' location', attackerAt s locations team k' location' ->
                        (sq 15 <= distance2 ball location')%Q).
Proof.
  intros Hm Hloc team. unfold findNearestAttackingPlayer. rewrite Hm, Hloc.
  fold (attackingTeamOf m ball). fold team.
  destruct (nearerAttacker_scan s ball team (map_to_list locations) (None, None))
    as (H1 & H2 & _).
  split.
  - intros k Hk.
    destruct H1 as [H1 | (k1 & location & p & Hin & Hp & Ht & Ha & Hd & Hr)];
      [rewrite H1 in Hk; discriminate|].
    rewrite Hr in Hk. injection Hk as <-.
    apply elem_of_map_to_list in Hin.
    exists location. split; [split; [done | by exists p]|]. split; [done|].
    intros k' location' (Hl' & p' & Hp' & Ht' & Ha').
    destruct (Qlt_le_dec (distance2 ball location') (sq 15)) as [Hin'|Hout].
    + apply elem_of_map_to_list in Hl'.
      destruct (H2 k' location' p' Hl' Hp' Ht' Ha' Hin') as (d & Hd' & Hle).
      rewrite Hr in Hd'. simpl in Hd'. by injection Hd' as <-.
    + eapply Qle_trans; [apply Qlt_le_weak, Hd | exact Hout].
  - intros Hnone k' location' (Hl' & p' & Hp' & Ht' & Ha').
    destruct (Qlt_le_dec (distance2 ball location') (sq 15)) as [Hin'|Hout]; [|done].
    apply elem_of_map_to_list in Hl'.
    destruct (H2 k' location' p' Hl' Hp' Ht' Ha' Hin') as (d & Hd' & _).
    destruct H1 as [H1 | (k1 & location & p & _ & _ & _ & _ & _ & Hr)].
    + rewrite H1 in Hd'. discriminate.
    + rewrite Hr in Hnone. discriminate.
Qed.

Lemma Intn_bounds (draw : nat) (n : Z) : 0 < n -> 0 <= Intn draw n < n.
Proof. intros Hn. unfold Intn. by apply Z.mod_pos_bound. Qed.

Lemma quot_bounds (a b : Z) : 0 <= a -> 0 < b -> b * Z.quot a b <= a < b * Z.quot a b + b.
Proof.
  intros Ha Hb. rewrite Z.quot_div_nonneg by lia.
  pose proof (Z.mul_div_le a b Hb). pose proof (Z.mul_succ_div_gt a b Hb). lia.
Qed.

(** X19. A generated player has every attribute between 10 and 99 and an
    overall value, the truncated mean of the six, between 43 and 92; his
    market value is half the overall value plus the variation of -15 to 14
    and lies between 6 and 60, so that neither bound of the clamp to
    [5, 200] is ever reached. *)
Theorem generated_player_values_in_range (position : option Position)
    (d : CharacteristicDraws) (draw : nat) :
  let c := generatePlayerCharacteristics position d in
  (10 <= pcSpeed c <= 99 /\ 10 <= pcShooting c <= 99 /\ 10 <= pcPassing c <= 99 /\
   10 <= pcDefending c <= 99 /\ 10 <= pcPhysicality c <= 99 /\
   10 <= pcMentality c <= 99) /\
  pcOverall c
    = Z.quot (pcSpeed c + pcShooting c + pcPassing c + pcDefending c + pcPhysicality c +
              pcMentality c) 6 /\
  43 <= pcOverall c <= 92 /\
  calculateMarketValue c draw = Z.quot (pcOverall c) 2 + Intn draw 30 - 15 /\
  6 <= calculateMarketValue c draw <= 60.
Proof.
  intros c.
  pose proof (Intn_bounds (drawSpeed d) 30 ltac:(lia)).
  pose proof (Intn_bounds (drawSpeed d) 40 ltac:(lia)).
  pose proof (Intn_bounds (drawShooting d) 20 ltac:(lia)).
  pose proof (Intn_bounds (drawShooting d) 30 ltac:(lia)).
  pose proof (Intn_bounds (drawShooting d) 40 ltac:(lia)).
  pose proof (Intn_bounds (drawPassing d) 30 ltac:(lia)).
  pose proof (Intn_bounds (drawPassing d) 40 ltac:(lia)).
  pose proof (Intn_bounds (drawDefending d) 30 ltac:(lia)).
  pose proof (Intn_bounds (drawDefending d) 40 ltac:(lia)).
  pose proof (Intn_bounds (drawPhysicality d) 30 ltac:(lia)).
  pose proof (Intn_bounds (drawPhysicality d) 40 ltac:(lia)).
  pose proof (Intn_bounds (drawMentality d) 30 ltac:(lia)).
  pose proof (Intn_bounds (drawMentality d) 40 ltac:(lia)).
  pose proof (Intn_bounds draw 30 ltac:(lia)) as Hdraw.
  assert ((10 <= pcSpeed c <= 99 /\ 10 <= pcShooting c <= 99 /\ 10 <= pcPassing c <= 99 /\
           10 <= pcDefending c <= 99 /\ 10 <= pcPhysicality c <= 99 /\
           10 <= pcMentality c <= 99) /\
          pcOverall c
            = Z.quot (pcSpeed c + pcShooting c + pcPassing c + pcDefending c +
                      pcPhysicality c + pcMentality c) 6 /\
          260 <= pcSpeed c + pcShooting c + pcPassing c + pcDefending c +
                 pcPhysicality c + pcMentality c <= 554) as (Hattr & Hoverall & Hsum).
  { unfold c, generatePlayerCharacteristics.
    destruct position as [[]|]; cbv beta iota zeta delta [pcSpeed pcShooting pcPassing
      pcDefending pcPhysicality pcMentality pcOverall]; lia. }
  set (total := pcSpeed c + pcShooting c + pcPassing c + pcDefending c + pcPhysicality c +
                pcMentality c) in *.
  assert (0 <= total) as Htotal by lia.
  pose proof (quot_bounds total 6 Htotal ltac:(lia)) as Hq.
  rewrite <- Hoverall in Hq.
  assert (43 <= pcOverall c <= 92) as Hrange by lia.
  pose proof (quot_bounds (pcOverall c) 2 ltac:(lia) ltac:(lia)) as Hhalf.
  assert (calculateMarketValue c draw = Z.quot (pcOverall c) 2 + Intn draw 30 - 15) as Hvalue.
  { unfold calculateMarketValue, maxInt, minInt.
    destruct (200 <? _) eqn:E1; [apply Z.ltb_lt in E1; lia | apply Z.ltb_ge in E1].
    destruct (_ <? 5) eqn:E2; [apply Z.ltb_lt in E2; lia | lia]. }
  split; [exact Hattr|]. split; [exact Hoverall|]. split; [exact Hrange|].
  split; [exact Hvalue|]. rewrite Hvalue. lia.
Qed.

(** ** Full time: player ratings *)

Lemma calculateIndividualRating_spec (roll : Q) (p : Player) (m : Match) (isHome : bool) :
  (3 <= (calculateIndividualRating roll p m isHome).1 <= 10)%Q /\
  (calculateIndividualRating roll p m isHome).2
  = mkPlayer (pID p) (pName p) (pPosition p) (pTeamID p) (pGoals p) (pAssists p)
      (pYellowCards p) (pRedCards p) (pAppearances p) (pSeasonStats p) 6.0.
Proof.
  unfold calculateIndividualRating. cbv zeta. cbn [fst snd]. split; [|done]. split.
  - apply Q.max_le_iff. left. unfold Qle. simpl. lia.
  - apply Q.max_lub; [unfold Qle; simpl; lia|].
    eapply Qle_trans; [apply Q.le_min_l | unfold Qle; simpl; lia].
Qed.

Lemma ratePlayer_step (rolls : Z -> Q) (m : Match) (isHome : bool)
    (acc : gmap Z Player * gmap Z Q) (k0 : Z) :
  (forall k, k <> k0 -> (ratePlayer rolls m isHome acc k0).1 !! k = acc.1 !! k) /\
  (forall p, acc.1 !! k0 = Some p ->
     exists p', (ratePlayer rolls m isHome acc k0).1 !! k0 = Some p' /\ ratedFrom p p') /\
  (ratingsInRange acc.2 -> ratingsInRange (ratePlayer rolls m isHome acc k0).2).
Proof.
  unfold ratePlayer.
  destruct (acc.1 !! k0) as [p|] eqn:Ep.
  - destruct (calculateIndividualRating_spec (rolls k0) p m isHome) as [Hrange Hplayer].
    destruct (calculateIndividualRating (rolls k0) p m isHome) as [rating player'].
    simpl in Hrange, Hplayer. subst player'. cbn [fst snd].
    split; [|split].
    + intros k Hk. by rewrite lookup_insert_ne.
    + intros p0 [= <-]. rewrite lookup_insert_eq. eexists. split; [done|].
      destruct Hrange as [Hlo Hhi].
      exists rating. unfold updatePlayerSeasonStats. simpl. repeat split; done.
    + intros Hacc id r. simpl.
      destruct (decide (pID p = id)) as [->|Hne].
      * rewrite lookup_insert_eq. by intros [= <-].
      * rewrite lookup_insert_ne by done. apply Hacc.
  - split; [done|]. split; [discriminate | done].
Qed.

Lemma ratePlayer_fold (rolls : Z -> Q) (m : Match) (isHome : bool) (keys : list Z)
    (acc : gmap Z Player * gmap Z Q) :
  NoDup keys ->
  (forall k, ~ (k ∈ keys) ->
     (fold_left (ratePlayer rolls m isHome) keys acc).1 !! k = acc.1 !! k) /\
  (forall k p, k ∈ keys -> acc.1 !! k = Some p ->
     exists p', (fold_left (ratePlayer rolls m isHome) keys acc).1 !! k = Some p' /\
                ratedFrom p p') /\
  (ratingsInRange acc.2 ->
   ratingsInRange (fold_left (ratePlayer rolls m isHome) keys acc).2).
Proof.
  intros Hnd. revert acc.
  induction Hnd as [|k0 keys Hk0 Hnd IH]; intros acc.
  - simpl. split; [done|]. split; [|done]. intros k p Hk. by apply elem_of_nil in Hk.
  - cbn [fold_left].
    destruct (ratePlayer_step rolls m isHome acc k0) as (S1 & S2 & S3).
    destruct (IH (ratePlayer rolls m isHome acc k0)) as (I1 & I2 & I3).
    split; [|split].
    + intros k Hk. rewrite I1; [apply S1|]; intros Hin; apply Hk.
      * subst k. by left.
      * by right.
    + intros k p Hk Hp. apply elem_of_cons in Hk as [->|Hk].
      * destruct (S2 p Hp) as (p' & Hp' & Hrated). exists p'. split; [|done].
        by rewrite I1.
      * apply I2; [done|]. rewrite S1; [done|]. intros ->. done.
    + intros Hacc. by apply I3, S3.
Qed.

Lemma NoDup_fst_filter {A} (p : Z * A -> bool) (l : list (Z * A)) :
  NoDup l.*1 -> NoDup (List.filter p l).*1.
Proof.
  induction l as [|x l IH]; csimpl; [done|].
  intros Hnd. apply NoDup_cons in Hnd as [Hx Hnd].
  destruct (p x); csimpl; [|by apply IH].
  apply NoDup_cons. split; [|by apply IH].
  intros Hin. apply Hx. apply list_elem_of_fmap in Hin as (y & Hy & Hin).
  apply list_elem_of_fmap. exists y. split; [done|].
  apply list_elem_of_In, filter_In in Hin as [Hin _]. by apply list_elem_of_In.
Qed.

Lemma getPlayersFromTeam_keys (s : State) (teamID : Z) :
  NoDup (getPlayersFromTeam s teamID).*1 /\
  forall k, k ∈ (getPlayersFromTeam s teamID).*1 <->
            exists p, players s !! k = Some p /\ pTeamID p = teamID.
Proof.
  unfold getPlayersFromTeam. split.
  - apply NoDup_fst_filter, NoDup_fst_map_to_list.
  - intros k. rewrite list_elem_of_fmap. split.
    + intros ([k' p] & -> & Hin). apply list_elem_of_In, filter_In in Hin as [Hin Hteam].
      apply list_elem_of_In, elem_of_map_to_list in Hin. apply Z.eqb_eq in Hteam.
      by exists p.
    + intros (p & Hp & Hteam). exists (k, p). split; [done|].
      apply list_elem_of_In, filter_In. split.
      * by apply list_elem_of_In, elem_of_map_to_list.
      * by apply Z.eqb_eq.
Qed.

(** X20. [finishMatch] closes the match - FINISHED, end time set, score
    and minute as they were - and rates both squads: every stored player
    of the home or the away team gets a mark between 3 and 10 added to his
    season total, one more match and appearance, 90 more minutes, an
    average equal to total over matches, and his in-match rating reset to
    6.0; players of other teams are untouched, and the marks stored with
    the match stay between 3 and 10. *)
Theorem full_time_rates_both_squads (now : Z) (homeRolls awayRolls : Z -> Q)
    (matchID : Z) (s : State) (m : Match) :
  matches s !! matchID = Some m ->
  tiID (mHomeTeam m) <> tiID (mAwayTeam m) ->
  let s' := finishMatch now homeRolls awayRolls matchID s in
  (exists m',
     matches s' !! matchID = Some m' /\
     mStatus m' = StatusFinished /\ mEndTime m' = Some now /\
     mHomeScore m' = mHomeScore m /\ mAwayScore m' = mAwayScore m /\
     mMinute m' = mMinute m /\
     (ratingsInRange (mPlayerRatings m) -> ratingsInRange (mPlayerRatings m'))) /\
  (forall k p, players s !! k = Some p ->
     (pTeamID p = tiID (mHomeTeam m) \/ pTeamID p = tiID (mAwayTeam m) ->
      exists p', players s' !! k = Some p' /\ ratedFrom p p') /\
     (pTeamID p <> tiID (mHomeTeam m) -> pTeamID p <> tiID (mAwayTeam m) ->
      players s' !! k = Some p)).
Proof.
  intros Hm Hteams s'. unfold s', finishMatch. rewrite Hm.
  rewrite addLiveCommentary_matches, addLiveCommentary_players.
  set (m1 := withClock _ _ _ _ _ _ _ m).
  set (s1 := set_matches _ s).
  unfold calculatePlayerRatings.
  assert (matches s1 !! matchID = Some m1) as -> by apply lookup_insert_eq.
  change (players s1) with (players s).
  change (getPlayersFromTeam s1) with (getPlayersFromTeam s).
  change (tiID (mHomeTeam m1)) with (tiID (mHomeTeam m)).
  change (tiID (mAwayTeam m1)) with (tiID (mAwayTeam m)).
  change (mPlayerRatings m1) with (mPlayerRatings m).
  set (home := (getPlayersFromTeam s (tiID (mHomeTeam m))).*1).
  set (away := (getPlayersFromTeam s (tiID (mAwayTeam m))).*1).
  destruct (getPlayersFromTeam_keys s (tiID (mHomeTeam m))) as [Hnd1 Hkeys1].
  destruct (getPlayersFromTeam_keys s (tiID (mAwayTeam m))) as [Hnd2 Hkeys2].
  fold home in Hnd1, Hkeys1. fold away in Hnd2, Hkeys2.
  set (acc1 := fold_left (ratePlayer homeRolls m1 true) home (players s, mPlayerRatings m)).
  destruct (ratePlayer_fold homeRolls m1 true home (players s, mPlayerRatings m) Hnd1)
    as (A1 & A2 & A3).
  destruct (ratePlayer_fold awayRolls m1 false away acc1 Hnd2) as (B1 & B2 & B3).
  fold acc1 in A1, A2, A3.
  cbn [matches players set_players set_matches].
  split.
  - eexists. split; [apply lookup_insert_eq|]. do 5 (split; [done|]).
    intros Hr. by apply B3, A3.
  - intros k p Hp. split.
    + intros [Hhome|Haway].
      * assert (k ∈ home) as Hin by (apply Hkeys1; by exists p).
        assert (~ (k ∈ away)) as Hout.
        { intros Hin'. apply Hkeys2 in Hin' as (q & Hq & Hteam). congruence. }
        rewrite (B1 k Hout). by apply A2.
      * assert (k ∈ away) as Hin by (apply Hkeys2; by exists p).
        assert (~ (k ∈ home)) as Hout.
        { intros Hin'. apply Hkeys1 in Hin' as (q & Hq & Hteam). congruence. }
        apply B2; [done|]. by rewrite (A1 k Hout).
    + intros Hn1 Hn2.
      assert (~ (k ∈ home)) as Hout1.
      { intros Hin'. apply Hkeys1 in Hin' as (q & Hq & Hteam). congruence. }
      assert (~ (k ∈ away)) as Hout2.
      { intros Hin'. apply Hkeys2 in Hin' as (q & Hq & Hteam). congruence. }
      by rewrite (B1 k Hout2), (A1 k Hout1).
Qed.

(** ** Fouls *)

Lemma pickByWeight_elem (context : FoulContext) (r cumulative : Q)
    (candidates : list (Z * Player)) (x : Z * Player) :
  pickByWeight context r cumulative candidates = Some x -> x ∈ candidates.
Proof.
  revert cumulative. induction candidates as [|c l IH]; intros cumulative; simpl;
    [discriminate|].
  destruct (Qle_bool r _).
  - intros [= <-]. by left.
  - intros H. right. by eapply IH.
Qed.

Lemma selectFouler_spec (candidates : list (Z * Player)) (ball : BallPosition)
    (context : FoulContext) (u : Q) :
  (forall x, selectFouler candidates ball context u = Some x -> x ∈ candidates) /\
  (candidates <> [] -> is_Some (selectFouler candidates ball context u)).
Proof.
  unfold selectFouler. destruct candidates as [|c l]; [by split|].
  change (length (c :: l) =? 0)%nat with false. cbv iota.
  destruct (pickByWeight _ _ _ _) as [x0|] eqn:E.
  - split; [|by eexists]. intros x [= <-]. by eapply pickByWeight_elem.
  - split; [apply last_Some_elem_of | by apply last_is_Some].
Qed.

Lemma getPlayersNearAction_elem (s : State) (matchID : Z) (ball : BallPosition)
    (radius : Q) (k : Z) (p : Player) :
  (k, p) ∈ getPlayersNearAction s matchID ball radius ->
  players s !! k = Some p /\
  exists locations location,
    playerLocations s !! matchID = Some locations /\ locations !! k = Some location /\
    (distance2 ball location <= sq radius)%Q.
Proof.
  unfold getPlayersNearAction.
  destruct (playerLocations s !! matchID) as [locations|]; [|by intros ?%elem_of_nil].
  intros H. apply list_elem_of_omap in H as ([k' location] & Hin & H).
  apply elem_of_map_to_list in Hin.
  destruct (players s !! k') as [p'|] eqn:Ep; [|discriminate].
  fold (distance2 ball location) in H.
  destruct (Qle_bool (distance2 ball location) (sq radius)) eqn:Ed; [|discriminate].
  injection H as <- <-. split; [done|].
  exists locations, location. repeat split; try done. by apply Qle_bool_iff.
Qed.

Lemma determineFoulSeverity_cases (fouler : Player) (ball : BallPosition)
    (context : FoulContext) (d : SeverityDraws) :
  determineFoulSeverity fouler ball context d = "yellow" \/
  determineFoulSeverity fouler ball context d = "red".
Proof.
  unfold determineFoulSeverity.
  repeat match goal with
         | |- context [if ?b then _ else _] => destruct b
         end; auto.
Qed.

Lemma updateStats_some (matchID : Z) (f : MatchStats -> MatchStats) (s : State)
    (stats : MatchStats) :
  matchStats s !! matchID = Some stats ->
  updateStats matchID f s = Some (set_matchStats (<[matchID := f stats]> (matchStats s)) s).
Proof. intros H. unfold updateStats. by rewrite H. Qed.

Lemma updateStats_none (matchID : Z) (f : MatchStats -> MatchStats) (s : State) :
  matchStats s !! matchID = None -> updateStats matchID f s = None.
Proof. intros H. unfold updateStats. by rewrite H. Qed.

(** The restart of play after a foul. *)
Lemma foul_restart (now matchID : Z) (context : FoulContext) (s1 s' : State) (m : Match)
    (p : Player) (ball : BallPosition) :
  ballPositions s1 !! matchID = Some ball ->
  (if IsInPenaltyArea context && negb (pTeamID p =? BallPossessorTeam context) then
     Some (addLiveCommentary now matchID (mMinute m) "PENALTY!" EventPenalty None
             (setBallEvent now matchID BallEventPenalty
                (if Qltb (bX ball) (FieldWidth / 2) then (FieldWidth - 11.0)%Q
                 else 11.0%Q)
                (FieldHeight / 2) 0 s1))
   else
     Some (addLiveCommentary now matchID (mMinute m) "Free kick awarded" EventFreekick
             None (setBallEvent now matchID BallEventFreekick (bX ball) (bY ball) 0 s1)))
  = Some s' ->
  players s' = players s1 /\ matchStats s' = matchStats s1 /\
  exists ball',
    ballPositions s' !! matchID = Some ball' /\ bPossessorID ball' = 0 /\
    (bEventType ball' = BallEventFreekick /\ bX ball' = bX ball /\ bY ball' = bY ball \/
     bEventType ball' = BallEventPenalty /\
     IsInPenaltyArea context = true /\ pTeamID p <> BallPossessorTeam context /\
     bX ball' = (if Qltb (bX ball) (FieldWidth / 2) then (FieldWidth - 11.0)%Q
                 else 11.0%Q) /\
     bY ball' = (FieldHeight / 2)%Q).
Proof.
  intros Hball.
  destruct (IsInPenaltyArea context && negb (pTeamID p =? BallPossessorTeam context))
    eqn:Epen; intros [= <-]; unfold addLiveCommentary, setBallEvent; rewrite Hball;
    cbn [ballPositions set_commentary set_playerLocations set_ballPositions
         players matchStats];
    (split; [done|]); (split; [done|]);
    (eexists; split; [apply lookup_insert_eq|]; split; [done|]).
  - apply andb_true_iff in Epen as [Epa Eteam].
    apply negb_true_iff, Z.eqb_neq in Eteam. right. done.
  - left. done.
Qed.

(** What a carded foul leaves behind. *)
Lemma applyFoulConsequences_booked (now matchID fouler : Z) (severity : string)
    (context : FoulContext) (s s' : State) (m : Match) (p : Player) (ball : BallPosition) :
  matches s !! matchID = Some m ->
  players s !! fouler = Some p ->
  ballPositions s !! matchID = Some ball ->
  severity = "yellow" \/ severity = "red" ->
  applyFoulConsequences now matchID fouler severity context s = Some s' ->
  bookedOnce s s' fouler p /\
  (exists stats stats',
     matchStats s !! matchID = Some stats /\ matchStats s' !! matchID = Some stats' /\
     HomeFouls stats' + AwayFouls stats' = HomeFouls stats + AwayFouls stats + 1 /\
     HomeYellowCards stats' + AwayYellowCards stats' + HomeRedCards stats' +
       AwayRedCards stats'
     = HomeYellowCards stats + AwayYellowCards stats + HomeRedCards stats +
       AwayRedCards stats + 1) /\
  (exists ball',
     ballPositions s' !! matchID = Some ball' /\ bPossessorID ball' = 0 /\
     (bEventType ball' = BallEventFreekick /\ bX ball' = bX ball /\ bY ball' = bY ball \/
      bEventType ball' = BallEventPenalty /\
      IsInPenaltyArea context = true /\ pTeamID p <> BallPossessorTeam context /\
      bX ball' = (if Qltb (bX ball) (FieldWidth / 2) then (FieldWidth - 11.0)%Q
                  else 11.0%Q) /\
      bY ball' = (FieldHeight / 2)%Q)).
Proof.
  intros Hm Hp Hball Hsev. unfold applyFoulConsequences. rewrite Hm, Hp, Hball.
  destruct (matchStats s !! matchID) as [stats|] eqn:Estats;
    [|rewrite (updateStats_none _ _ _ Estats); discriminate].
  rewrite (updateStats_some _ _ _ stats Estats). cbn [mbind option_bind].
  set (fouls := if pTeamID p =? tiID (mHomeTeam m) then incHomeFouls else incAwayFouls).
  destruct Hsev as [-> | ->].
  - change (String.eqb "yellow" "yellow") with true. cbv iota.
    erewrite updateStats_some; [|apply lookup_insert_eq]. cbn [mbind option_bind].
    intros Hrestart. apply foul_restart in Hrestart as (Hplayers & Hstats & Hb); [|done].
    split; [left; by rewrite Hplayers|]. split; [|exact Hb].
    exists stats. eexists. split; [done|]. rewrite Hstats. split; [apply lookup_insert_eq|].
    unfold fouls. destruct (pTeamID p =? tiID (mHomeTeam m)); simpl; lia.
  - change (String.eqb "red" "yellow") with false.
    change (String.eqb "red" "red") with true. cbv iota.
    erewrite updateStats_some; [|apply lookup_insert_eq]. cbn [mbind option_bind].
    intros Hrestart. apply foul_restart in Hrestart as (Hplayers & Hstats & Hb); [|done].
    split; [right; by rewrite Hplayers|]. split; [|exact Hb].
    exists stats. eexists. split; [done|]. rewrite Hstats. split; [apply lookup_insert_eq|].
    unfold fouls. destruct (pTeamID p =? tiID (mHomeTeam m)); simpl; lia.
Qed.

(** A foul event either changes nothing or cards a player near the ball. *)
Lemma handleFoulEvent_effect (now : Z) (u : Q) (d : SeverityDraws) (matchID : Z)
    (s s' : State) (m : Match) :
  matches s !! matchID = Some m ->
  handleFoulEvent now u d matchID s = Some s' ->
  s' = s \/
  exists fouler p ball,
    ballPositions s !! matchID = Some ball /\
    (fouler, p) ∈ getPlayersNearAction s matchID ball 8.0 /\
    players s !! fouler = Some p /\
    (exists severity,
       (severity = "yellow" \/ severity = "red") /\
       applyFoulConsequences now matchID fouler severity (determineFoulContext s ball) s
       = Some s').
Proof.
  intros Hm. unfold handleFoulEvent.
  destruct (ballPositions s !! matchID) as [ball|] eqn:Eball; [|intros [= <-]; by left].
  destruct (length _ <? 2)%nat; [intros [= <-]; by left|].
  destruct (selectFouler _ ball _ u) as [[fouler p]|] eqn:Esel; [|intros [= <-]; by left].
  apply (proj1 (selectFouler_spec _ _ _ _)) in Esel.
  intros Happly. right. exists fouler, p, ball. split; [done|]. split; [done|].
  split; [by apply getPlayersNearAction_elem in Esel as [? _]|].
  eexists. split; [apply determineFoulSeverity_cases | exact Happly].
Qed.

(** X21. A foul event that goes through cards the fouler: a player
    within 8 units of the ball gets exactly one card, yellow or red, nobody
    else is changed, the match statistics count one foul and one card more,
    the ball is put down for a free kick or a penalty with no possessor -
    and no availability entry is written, whatever the card. *)
Theorem every_foul_is_carded (now : Z) (u : Q) (d : SeverityDraws) (matchID : Z)
    (s s' : State) (m : Match) :
  matches s !! matchID = Some m ->
  handleFoulEvent now u d matchID s = Some s' ->
  s' = s \/
  exists fouler p ball locations location,
    ballPositions s !! matchID = Some ball /\
    players s !! fouler = Some p /\
    playerLocations s !! matchID = Some locations /\
    locations !! fouler = Some location /\
    (distance2 ball location <= sq 8.0)%Q /\
    bookedOnce s s' fouler p /\
    playerAvailability s' = playerAvailability s /\
    (exists stats stats',
       matchStats s !! matchID = Some stats /\ matchStats s' !! matchID = Some stats' /\
       HomeFouls stats' + AwayFouls stats' = HomeFouls stats + AwayFouls stats + 1 /\
       HomeYellowCards stats' + AwayYellowCards stats' + HomeRedCards stats' +
         AwayRedCards stats'
       = HomeYellowCards stats + AwayYellowCards stats + HomeRedCards stats +
         AwayRedCards stats + 1) /\
    (exists ball',
       ballPositions s' !! matchID = Some ball' /\ bPossessorID ball' = 0 /\
       (bEventType ball' = BallEventFreekick \/ bEventType ball' = BallEventPenalty)).
Proof.
  intros Hm Hfoul.
  destruct (handleFoulEvent_effect now u d matchID s s' m Hm Hfoul)
    as [-> | (fouler & p & ball & Hball & Hnear & Hp & severity & Hsev & Happly)];
    [by left|].
  right.
  apply getPlayersNearAction_elem in Hnear as (_ & locations & location & Hl & Hk & Hd).
  destruct (applyFoulConsequences_booked now matchID fouler severity _ s s' m p ball
              Hm Hp Hball Hsev Happly) as (Hbooked & Hstats & ball' & Hb' & Hposs & Hev).
  exists fouler, p, ball, locations, location.
  repeat (split; [done|]).
  split; [by eapply applyFoulConsequences_availability|].
  split; [exact Hstats|].
  exists ball'. split; [done|]. split; [done|].
  destruct Hev as [(? & _) | (? & _)]; [by left | by right].
Qed.

(** X22. The penalty a foul event awards is taken at the far end: for a
    foul in the penalty area at the left goal line ([X <= 18]) the ball is
    put on the spot at [X = 89], for one at the right goal line
    ([X >= 82]) on the spot at [X = 11], in both cases at mid-height. *)
Theorem penalty_spot_is_at_the_far_end (now : Z) (u : Q) (d : SeverityDraws) (matchID : Z)
    (s s' : State) (m : Match) (ball ball' : BallPosition) :
  matches s !! matchID = Some m ->
  ballPositions s !! matchID = Some ball ->
  bEventType ball <> BallEventPenalty ->
  handleFoulEvent now u d matchID s = Some s' ->
  ballPositions s' !! matchID = Some ball' ->
  bEventType ball' = BallEventPenalty ->
  (20 <= bY ball <= 44)%Q /\ (bY ball' == 32)%Q /\
  ((bX ball <= 18)%Q /\ (bX ball' == 89)%Q \/ (82 <= bX ball)%Q /\ (bX ball' == 11)%Q).
Proof.
  intros Hm Hball Hnot Hfoul Hball' Hpen.
  destruct (handleFoulEvent_effect now u d matchID s s' m Hm Hfoul)
    as [-> | (fouler & p & ball0 & Hball0 & Hnear & Hp & severity & Hsev & Happly)].
  { rewrite Hball in Hball'. injection Hball' as <-. done. }
  rewrite Hball in Hball0. injection Hball0 as <-.
  destruct (applyFoulConsequences_booked now matchID fouler severity _ s s' m p ball
              Hm Hp Hball Hsev Happly) as (_ & _ & ball1 & Hb1 & _ & Hev).
  rewrite Hball' in Hb1. injection Hb1 as <-.
  destruct Hev as [(Hfree & _) | (_ & Harea & _ & HX & HY)]; [congruence|].
  unfold determineFoulContext in Harea. cbn [IsInPenaltyArea] in Harea.
  rewrite HX, HY. unfold FieldWidth, FieldHeight in *.
  apply orb_true_iff in Harea as [Harea|Harea];
    apply andb_true_iff in Harea as [Harea H44];
    apply andb_true_iff in Harea as [Hx H20];
    apply Qle_bool_iff in Hx, H20, H44.
  - split; [done|]. split; [reflexivity|]. left. split; [done|].
    assert (Qltb (bX ball) (100 / 2) = true) as ->; [|reflexivity].
    apply Qltb_true. eapply Qle_lt_trans; [exact Hx | reflexivity].
  - split; [done|]. split; [reflexivity|]. right.
    split; [eapply Qle_trans; [|exact Hx]; unfold Qle; simpl; lia|].
    assert (Qltb (bX ball) (100 / 2) = false) as ->; [|reflexivity].
    apply Qltb_false. eapply Qle_trans; [|exact Hx]. unfold Qle. simpl. lia.
Qed.

(** ** The ball: out of bounds, kickoff *)

Lemma Qle_bool_false (x y : Q) : Qle_bool x y = false <-> (y < x)%Q.
Proof.
  split.
  - intros H. apply Qnot_le_lt. intros Hle. apply Qle_bool_iff in Hle. congruence.
  - intros H. destruct (Qle_bool x y) eqn:E; [|done].
    apply Qle_bool_iff in E. exfalso. by apply (Qlt_not_le _ _ H).
Qed.

(** Putting the ball down for a restart and announcing it. *)
Lemma place_ball (now matchID : Z) (e : BallEvent) (x y : Q) (minute : Z) (text : string)
    (ev : EventType) (s : State) (ball : BallPosition) :
  ballPositions s !! matchID = Some ball ->
  ballPositions
    (addLiveCommentary now matchID minute text ev None (setBallEvent now matchID e x y 0 s))
  = <[matchID := mkBallPosition x y 0 (bLastTouchID ball) 0 (bDirection ball) now e now]>
      (ballPositions s).
Proof. intros H. unfold addLiveCommentary, setBallEvent. by rewrite H. Qed.

Lemma half_width_le (x : Q) : (100 / 2 <= x)%Q <-> (50 <= x)%Q.
Proof. assert (100 / 2 == 50)%Q as -> by reflexivity. tauto. Qed.

Lemma half_width_gt (x : Q) : (x < 100 / 2)%Q <-> (x < 50)%Q.
Proof. assert (100 / 2 == 50)%Q as -> by reflexivity. tauto. Qed.

Ltac qbools :=
  repeat match goal with
         | H : Qle_bool _ _ = true |- _ => apply Qle_bool_iff in H
         | H : Qle_bool _ _ = false |- _ => apply Qle_bool_false in H
         | H : (100 / 2 <= _)%Q |- _ => apply half_width_le in H
         | H : (_ < 100 / 2)%Q |- _ => apply half_width_gt in H
         end.

(** X23. Where [checkBallOutOfBounds] restarts play for a ball in play
    on the pitch.  A corner is only given at the right goal line, within 5
    units of a corner flag, and is taken at [X = 99]; a goal kick only at
    the left goal line, within 5 units of a corner flag (the flag itself
    included), and is taken from (6, 32); a throw-in is given on a touch
    line and taken 1 unit inside it; otherwise the ball is left alone -
    also when it crosses a goal line more than 5 units from the flags. *)
Theorem out_of_bounds_restarts (now matchID : Z) (s : State) (m : Match)
    (ball : BallPosition) :
  matches s !! matchID = Some m ->
  ballPositions s !! matchID = Some ball ->
  onPitch ball ->
  bEventType ball = BallEventPlay ->
  exists ball',
    ballPositions (checkBallOutOfBounds now matchID s) !! matchID = Some ball' /\
    match bEventType ball' with
    | BallEventPlay =>
        ball' = ball /\ checkBallOutOfBounds now matchID s = s /\
        (0 < bY ball < 64)%Q /\
        ((0 < bX ball < 100)%Q \/ (5 < bY ball < 59)%Q)
    | BallEventCorner =>
        (bX ball == 100)%Q /\ (0 < bY ball < 64)%Q /\
        ((bY ball <= 5)%Q \/ (59 <= bY ball)%Q) /\
        (bX ball' == 99)%Q /\ bY ball' = bY ball /\ bPossessorID ball' = 0
    | BallEventGoalkick =>
        (bX ball == 0)%Q /\ ((bY ball <= 5)%Q \/ (59 <= bY ball)%Q) /\
        (bX ball' == 6)%Q /\ (bY ball' == 32)%Q /\ bPossessorID ball' = 0
    | BallEventThrowIn =>
        (0 < bX ball)%Q /\
        ((bY ball == 0)%Q /\ (bY ball' == 1)%Q \/ (bY ball == 64)%Q /\ (bY ball' == 63)%Q) /\
        ((bX ball == 100)%Q /\ (bX ball' == 99)%Q \/
         (bX ball < 100)%Q /\ bX ball' = bX ball) /\
        bPossessorID ball' = 0
    | _ => False
    end.
Proof.
  intros Hm Hball [[HX0 HX1] [HY0 HY1]] Hplay.
  remember (checkBallOutOfBounds now matchID s) as s' eqn:Es'.
  unfold checkBallOutOfBounds in Es'. rewrite Hm, Hball in Es'.
  unfold FieldWidth, FieldHeight in *.
  assert (Qle_bool 0 (bY ball) = true) as EY0 by by apply Qle_bool_iff.
  assert (Qle_bool (bY ball) 64 = true) as EY1 by by apply Qle_bool_iff.
  rewrite EY0, EY1 in Es'.
  destruct (Qle_bool (bX ball) 0 || Qle_bool 100 (bX ball)) eqn:Egoal;
    [destruct (Qle_bool (bY ball) 5 || Qle_bool (64 - 5) (bY ball)) eqn:Enear;
       [destruct (Qle_bool (100 / 2) (bX ball)) eqn:Ehome|]|];
    cbn [andb] in Es'.
  - (* right goal line near a flag: corner, then the throw-in check *)
    rewrite (place_ball _ _ _ _ _ _ _ _ _ ball Hball), lookup_insert_eq in Es'.
    cbn [bY bX] in Es'.
    apply orb_true_iff in Egoal. apply orb_true_iff in Enear.
    assert (100 <= bX ball)%Q as Hx.
    { destruct Egoal as [E|E]; qbools; [|done]. lra. }
    destruct (Qle_bool (bY ball) 0 || Qle_bool 64 (bY ball)) eqn:Etouch; subst s'.
    + erewrite place_ball;
        [|rewrite (place_ball _ _ _ _ _ _ _ _ _ ball Hball); apply lookup_insert_eq].
      rewrite lookup_insert_eq.
      eexists. split; [reflexivity|]. cbn.
      apply orb_true_iff in Etouch.
      split; [lra|]. split.
      * destruct Etouch as [E|E]; qbools; [left | right]; split; try lra.
        -- rewrite Q.max_l; [reflexivity|]. rewrite Q.min_r by lra. lra.
        -- rewrite Q.min_l by lra. rewrite Q.max_r by lra. lra.
      * split; [|done]. left. split; lra.
    + apply orb_false_iff in Etouch as [E1 E2]. qbools.
      rewrite (place_ball _ _ _ _ _ _ _ _ _ ball Hball), lookup_insert_eq.
      eexists. split; [reflexivity|]. cbn.
      split; [lra|]. split; [lra|]. split.
      * destruct Enear as [E|E]; qbools; [left | right]; lra.
      * split; [lra|]. done.
  - (* left goal line near a flag: goal kick *)
    rewrite (place_ball _ _ _ _ _ _ _ _ _ ball Hball), lookup_insert_eq in Es'.
    cbn [bY bX] in Es'.
    apply orb_true_iff in Egoal. apply orb_true_iff in Enear. qbools.
    assert (bX ball == 0)%Q as Hx.
    { destruct Egoal as [E|E]; qbools; lra. }
    assert (Qle_bool (64 / 2) 0 || Qle_bool 64 (64 / 2) = false) as Emid by done.
    rewrite Emid in Es'. subst s'.
    rewrite (place_ball _ _ _ _ _ _ _ _ _ ball Hball), lookup_insert_eq.
    eexists. split; [reflexivity|]. cbn.
    split; [done|]. split.
    + destruct Enear as [E|E]; qbools; [left | right]; lra.
    + split; [reflexivity|]. split; [reflexivity | done].
  - (* goal line away from the flags: only the throw-in check is left *)
    rewrite Hball in Es'.
    apply orb_false_iff in Enear as [E5 E59]. qbools.
    assert (Qle_bool (bY ball) 0 || Qle_bool 64 (bY ball) = false) as Etouch.
    { apply orb_false_iff. split; apply Qle_bool_false; lra. }
    rewrite Etouch in Es'. subst s'.
    exists ball. split; [done|]. rewrite Hplay.
    split; [done|]. split; [done|]. split; [lra|]. right. lra.
  - (* not on a goal line *)
    rewrite Hball in Es'.
    apply orb_false_iff in Egoal as [E0 E100]. qbools.
    destruct (Qle_bool (bY ball) 0 || Qle_bool 64 (bY ball)) eqn:Etouch; subst s'.
    + rewrite (place_ball _ _ _ _ _ _ _ _ _ ball Hball), lookup_insert_eq.
      eexists. split; [reflexivity|]. cbn.
      apply orb_true_iff in Etouch.
      split; [lra|]. split.
      * destruct Etouch as [E|E]; qbools; [left | right]; split; try lra.
        -- rewrite Q.max_l; [reflexivity|]. rewrite Q.min_r by lra. lra.
        -- rewrite Q.min_l by lra. rewrite Q.max_r by lra. lra.
      * split; [|done]. right. split; [lra | done].
    + apply orb_false_iff in Etouch as [E1 E2]. qbools.
      exists ball. split; [done|]. rewrite Hplay.
      split; [done|]. split; [done|]. split; [lra|]. left. lra.
Qed.

(** X24. The kickoff - the first one and every one after a goal, whoever
    scored - is taken by the home team: more than 3 seconds after the
    kickoff was set, possession goes to a central midfielder of the home
    team and the ball is in play, at the same spot; until then, and when
    the home team has no central midfielder, nothing changes. *)
Theorem kickoff_goes_to_a_home_midfielder (now matchID : Z) (s : State) (m : Match)
    (ball : BallPosition) :
  matches s !! matchID = Some m ->
  ballPositions s !! matchID = Some ball ->
  let s' := handleKickoffBallEvent now matchID s in
  (now - bEventStarted ball <= 3 * Second -> s' = s) /\
  (s' = s \/
   exists k p,
     players s !! k = Some p /\ pTeamID p = tiID (mHomeTeam m) /\ pPosition p = PosCM /\
     3 * Second < now - bEventStarted ball /\
     s' = set_ballPositions (<[matchID := startPlay (pID p) ball]> (ballPositions s)) s) /\
  ((exists k p, players s !! k = Some p /\ pTeamID p = tiID (mHomeTeam m) /\
                pPosition p = PosCM) ->
   3 * Second < now - bEventStarted ball ->
   exists ball', ballPositions s' !! matchID = Some ball' /\
                 bEventType ball' = BallEventPlay /\
                 bX ball' = bX ball /\ bY ball' = bY ball).
Proof.
  intros Hm Hball s'. unfold s', handleKickoffBallEvent. rewrite Hball, Hm.
  destruct (3 * Second <? now - bEventStarted ball) eqn:Ewait;
    [apply Z.ltb_lt in Ewait | apply Z.ltb_ge in Ewait].
  - split; [lia|].
    destruct (List.find _ (getPlayersFromTeam s (tiID (mHomeTeam m)))) as [[k p]|] eqn:Efind.
    + apply find_some in Efind as [Hin Hcm]. apply bool_decide_eq_true in Hcm.
      unfold getPlayersFromTeam in Hin. apply filter_In in Hin as [Hin Hteam].
      apply list_elem_of_In, elem_of_map_to_list in Hin. apply Z.eqb_eq in Hteam.
      split.
      * right. exists k, p. repeat split; done.
      * intros _ _. eexists. cbn [ballPositions set_ballPositions].
        split; [apply lookup_insert_eq | done].
    + split; [by left|]. intros (k & p & Hp & Hteam & Hcm) _. exfalso.
      assert (In (k, p) (getPlayersFromTeam s (tiID (mHomeTeam m)))) as Hin.
      { unfold getPlayersFromTeam. apply filter_In. split.
        - by apply list_elem_of_In, elem_of_map_to_list.
        - by apply Z.eqb_eq. }
      pose proof (find_none _ _ Efind (k, p) Hin) as Hno. simpl in Hno.
      apply bool_decide_eq_false in Hno. done.
  - split; [done|]. split; [by left|]. intros _ Hlt. lia.
Qed.

(** ** After the schedules are generated; handlers without statistics *)

Lemma getTeamsByLeague_spec (s : State) (league : string) :
  NoDup (getTeamsByLeague s league) /\
  forall k, k ∈ getTeamsByLeague s league <->
            exists t, teams s !! k = Some t /\ tiLeague t = league.
Proof.
  unfold getTeamsByLeague. split.
  - apply NoDup_fst_filter, NoDup_fst_map_to_list.
  - intros k. rewrite list_elem_of_fmap. split.
    + intros ([k' t] & -> & Hin). apply list_elem_of_In, filter_In in Hin as [Hin Hl].
      apply list_elem_of_In, elem_of_map_to_list in Hin. apply String.eqb_eq in Hl.
      by exists t.
    + intros (t & Ht & Hl). exists (k, t). split; [done|].
      apply list_elem_of_In, filter_In. split.
      * by apply list_elem_of_In, elem_of_map_to_list.
      * by apply String.eqb_eq.
Qed.

Lemma generateSeasonSchedule_teams (now : Z) (league : string) (s : State) :
  teams (generateSeasonSchedule now league s) = teams s.
Proof. unfold generateSeasonSchedule. by destruct (negb _). Qed.

Lemma generateSeasonSchedule_other (now : Z) (league lg : string) (s : State) :
  lg <> league ->
  schedulesOf (generateSeasonSchedule now league s) lg = schedulesOf s lg.
Proof.
  intros Hne. unfold generateSeasonSchedule. destruct (negb _); [done|].
  unfold schedulesOf, set_seasonSchedules. cbn [seasonSchedules].
  by rewrite lookup_insert_ne.
Qed.

Lemma generateSeasonSchedule_own (now : Z) (league : string) (s : State) :
  Z.of_nat (length (getTeamsByLeague s league)) = lgTeamCount (leagueConfig league) ->
  schedulesOf (generateSeasonSchedule now league s) league
  = (seasonFixtures now league (getTeamsByLeague s league)).1.
Proof.
  intros Hn. unfold generateSeasonSchedule.
  assert (negb (Z.of_nat (length (getTeamsByLeague s league))
                =? lgTeamCount (leagueConfig league)) = false) as ->.
  { apply negb_false_iff, Z.eqb_eq, Hn. }
  unfold schedulesOf, set_seasonSchedules. cbn [seasonSchedules].
  by rewrite lookup_insert_eq.
Qed.

Lemma getTeamsByLeague_teams (s s' : State) (league : string) :
  teams s' = teams s -> getTeamsByLeague s' league = getTeamsByLeague s league.
Proof. intros H. unfold getTeamsByLeague. by rewrite H. Qed.

Lemma leagueConfig_count (league : string) :
  league ∈ leagueOrder -> lgTeamCount (leagueConfig league) = 10.
Proof.
  unfold leagueOrder. intros H.
  apply elem_of_cons in H as [->|H]; [by vm_compute|].
  apply list_elem_of_singleton in H as ->. by vm_compute.
Qed.

(** X25. Once the schedules of the two leagues are generated, in either
    order, for ten stored teams each: every fixture of a league is
    unplayed and pairs two different stored teams of that league, the
    season is not over, and the selection returns a fixture. *)
Theorem generated_schedules_are_ready_to_play (now : Z) (first second : string) (s : State) :
  first ∈ leagueOrder -> second ∈ leagueOrder -> first <> second ->
  length (getTeamsByLeague s LeaguePremier) = 10%nat ->
  length (getTeamsByLeague s LeagueCommunityLeague) = 10%nat ->
  let s' := generateSeasonSchedule now second (generateSeasonSchedule now first s) in
  (forall league f,
     league ∈ leagueOrder -> f ∈ schedulesOf s' league ->
     ssLeague f = league /\ ssIsPlayed f = false /\ ssHomeTeam f <> ssAwayTeam f /\
     (exists home, teams s' !! ssHomeTeam f = Some home /\ tiLeague home = league) /\
     (exists away, teams s' !! ssAwayTeam f = Some away /\ tiLeague away = league)) /\
  (forall league, league ∈ leagueOrder -> length (schedulesOf s' league) = 90%nat) /\
  fixtureTeamsExist s' /\
  shouldEndSeason s' = false /\
  getNextUnplayedMatch s' <> None.
Proof.
  intros Hfirst Hsecond Hne Hp Hc s'.
  assert (forall league, league ∈ leagueOrder ->
            length (getTeamsByLeague s league) = 10%nat) as Hten.
  { intros league Hl. unfold leagueOrder in Hl.
    apply elem_of_cons in Hl as [->|Hl]; [done|].
    by apply list_elem_of_singleton in Hl as ->. }
  assert (teams s' = teams s) as Hteams.
  { unfold s'. by rewrite !generateSeasonSchedule_teams. }
  assert (forall league, league ∈ leagueOrder ->
            schedulesOf s' league
            = (seasonFixtures now league (getTeamsByLeague s league)).1) as Hsched.
  { intros league Hl. unfold s'.
    destruct (decide (league = second)) as [->|Hother].
    - rewrite generateSeasonSchedule_own.
      + f_equal. f_equal. apply getTeamsByLeague_teams, generateSeasonSchedule_teams.
      + rewrite (getTeamsByLeague_teams s _) by apply generateSeasonSchedule_teams.
        rewrite (Hten second Hsecond), (leagueConfig_count second Hsecond). done.
    - rewrite generateSeasonSchedule_other by done.
      assert (league = first) as ->.
      { unfold leagueOrder in *.
        repeat match goal with
               | H : _ ∈ _ :: _ |- _ => apply elem_of_cons in H as [->|H]
               | H : _ ∈ [] |- _ => by apply elem_of_nil in H
               end; congruence. }
      apply generateSeasonSchedule_own.
      rewrite (Hten first Hfirst), (leagueConfig_count first Hfirst). done. }
  assert (forall league f,
            league ∈ leagueOrder -> f ∈ schedulesOf s' league ->
            ssLeague f = league /\ ssIsPlayed f = false /\ ssHomeTeam f <> ssAwayTeam f /\
            (exists home, teams s' !! ssHomeTeam f = Some home /\ tiLeague home = league) /\
            (exists away, teams s' !! ssAwayTeam f = Some away /\ tiLeague away = league))
    as Hfix.
  { intros league f Hl Hf. rewrite (Hsched league Hl) in Hf.
    destruct (getTeamsByLeague_spec s league) as [Hnd Hmem].
    destruct (seasonFixtures_elem now league _ f Hnd Hf)
      as (H1 & H2 & _ & _ & _ & Hh & Ha & Hne').
    rewrite Hteams. repeat split; try done; by apply Hmem. }
  assert (forall league, league ∈ leagueOrder -> length (schedulesOf s' league) = 90%nat)
    as Hlen.
  { intros league Hl. rewrite (Hsched league Hl).
    unfold seasonFixtures. cbn [fst]. rewrite length_app.
    rewrite !(generateLeg_length _ _ _ _ _ 5) by (rewrite (Hten league Hl); done).
    rewrite (Hten league Hl). done. }
  assert (fixtureTeamsExist s') as Hexist.
  { intros league f Hl Hf.
    destruct (Hfix league f Hl Hf) as (_ & _ & _ & (home & Hh & _) & (away & Ha & _)).
    split; by eexists. }
  split; [exact Hfix|]. split; [exact Hlen|]. split; [exact Hexist|].
  assert (exists f, f ∈ schedulesOf s' first) as [f Hf].
  { pose proof (Hlen first Hfirst) as H90.
    destruct (schedulesOf s' first) as [|f l]; [discriminate|]. exists f. by left. }
  destruct (Hfix first f Hfirst Hf) as (_ & Hunplayed & _).
  split.
  - destruct (shouldEndSeason s') eqn:E; [|done].
    rewrite (proj1 (shouldEndSeason_spec s') E first f Hfirst Hf) in Hunplayed.
    discriminate.
  - by apply (getNextUnplayedMatch_progress s' first f).
Qed.

(** X26. The corner and the card handler stop on a nil dereference
    exactly when the match they are called for has no statistics entry -
    for the card handler only if there is an available player to book;
    without one it returns and leaves the state as it is. *)
Theorem handlers_fail_only_without_statistics (now : Z) (matchID : Z) (s : State) :
  (forall isHomeCorner,
     handleCornerEvent now isHomeCorner matchID s = None <->
     is_Some (matches s !! matchID) /\ matchStats s !! matchID = None) /\
  (forall pick redRoll,
     handleCardEvent now pick redRoll matchID s = None <->
     is_Some (matches s !! matchID) /\ getAvailablePlayersForMatch s matchID <> [] /\
     matchStats s !! matchID = None) /\
  (forall pick redRoll,
     getAvailablePlayersForMatch s matchID = [] ->
     handleCardEvent now pick redRoll matchID s = Some s).
Proof.
  split; [|split].
  - intros isHomeCorner. unfold handleCornerEvent.
    destruct (matches s !! matchID) as [m|] eqn:Em.
    + destruct (matchStats s !! matchID) as [stats|] eqn:Es.
      * rewrite (updateStats_some _ _ _ stats Es). cbn [mbind option_bind].
        split; [discriminate|]. intros [_ H]. discriminate.
      * rewrite (updateStats_none _ _ _ Es). cbn [mbind option_bind].
        split; [|done]. intros _. split; [by eexists | done].
    + split; [discriminate|]. intros [[m H] _]. discriminate.
  - intros pick redRoll. unfold handleCardEvent.
    destruct (matches s !! matchID) as [m|] eqn:Em.
    + destruct (getAvailablePlayersForMatch s matchID) as [|c l] eqn:Eav.
      * simpl. split; [discriminate|]. intros (_ & H & _). done.
      * destruct (lookup_lt_is_Some_2 (c :: l) (pick `mod` length (c :: l))%nat)
          as [[k player] Hk].
        { apply Nat.mod_upper_bound. simpl. lia. }
        rewrite Hk.
        destruct (matchStats s !! matchID) as [stats|] eqn:Es.
        -- split; [|intros (_ & _ & H); discriminate].
           destruct redRoll.
           ++ erewrite updateStats_some; [discriminate | exact Es].
           ++ erewrite updateStats_some; [discriminate | exact Es].
        -- split; [intros _; split; [by eexists | split; [done | done]]|].
           intros _. destruct redRoll; by apply updateStats_none.
    + split; [discriminate|]. intros [[m H] _]. discriminate.
  - intros pick redRoll Hempty. unfold handleCardEvent.
    destruct (matches s !! matchID) as [m|]; [|done]. by rewrite Hempty.
Qed.

Lemma nextGoal_bounds (s : State) (m : Match) (isHome : bool)
    (momentum : option MatchMomentum) :
  (0.001 <= calculateNextGoalProbability s m isHome momentum <= 0.1)%Q.
Proof.
  unfold calculateNextGoalProbability. cbv zeta. split.
  - apply Q.le_max_l.
  - apply Q.max_lub; [unfold Qle; simpl; lia | apply Q.le_min_l].
Qed.

(** X27. The next-goal probabilities [recalculateMatchProbabilities]
    stores lie between 0.001 and 0.1 for each side, and the match value is
    their sum, between 0.002 and 0.2; the probability that the player on
    the ball scores, [getGoalProbability], lies between 0.01 and 0.9. *)
Theorem goal_probabilities_in_range :
  (forall (now matchID : Z) (m : Match) (s : State),
     exists p,
       dynamicProbabilities (recalculateMatchProbabilities now matchID m s) !! matchID
         = Some p /\
       (0.001 <= HomeNextGoalProb p <= 0.1)%Q /\
       (0.001 <= AwayNextGoalProb p <= 0.1)%Q /\
       NextGoalProbability p = (HomeNextGoalProb p + AwayNextGoalProb p)%Q /\
       (0.002 <= NextGoalProbability p <= 0.2)%Q) /\
  (forall (s : State) (player : Player) (ball : BallPosition),
     (0.01 <= getGoalProbability s player ball <= 0.9)%Q).
Proof.
  split.
  - intros now matchID m s. unfold recalculateMatchProbabilities.
    cbn [dynamicProbabilities set_dynamicProbabilities]. rewrite lookup_insert_eq.
    eexists. split; [reflexivity|].
    unfold recalculatedProbabilities.
    destruct (adjustedProbabilities s matchID m) as [[homeWin draw] awayWin].
    cbn [HomeNextGoalProb AwayNextGoalProb NextGoalProbability].
    pose proof (nextGoal_bounds s m true (matchMomentum s !! matchID)) as [H1 H2].
    pose proof (nextGoal_bounds s m false (matchMomentum s !! matchID)) as [H3 H4].
    set (h := calculateNextGoalProbability s m true _) in *.
    set (a := calculateNextGoalProbability s m false _) in *.
    repeat split; try done; lra.
  - intros s player ball. unfold getGoalProbability. cbv zeta. split.
    + apply Q.min_glb; [unfold Qle; simpl; lia | apply Q.le_max_l].
    + apply Q.le_min_l.
Qed.

(** ** Throw-ins: the nearest player *)




(** ** Momentum: what writes it *)




















End Engine.

(** * Instances

    The properties that carry hypotheses, applied to concrete states, with
    an insertion sort for [sort.Slice] and a positioning engine that
    leaves the players where they are. *)

Lemma insertSorted_perm {A} (less : A -> A -> bool) (x : A) (l : list A) :
  insertSorted less x l ≡ₚ x :: l.
Proof.
  induction l as [|y l IH]; [reflexivity|]. simpl.
  destruct (less y x); [|reflexivity].
  rewrite IH. apply perm_swap.
Defined.

Lemma insertionSort_perm (A : Type) (less : A -> A -> bool) (l : list A) :
  insertionSort A less l ≡ₚ l.
Proof.
  induction l as [|x l IH]; [reflexivity|]. simpl.
  rewrite insertSorted_perm. by rewrite IH.
Defined.

(** C2 on the generated schedule: the first selection is the opening
    fixture of the Premier League, unplayed; from no active match the
    creation stays under the cap; and after four creations the Premier
    League is at the cap and a fifth attempt changes nothing. *)
Lemma next_fixture_unplayed_and_capped_witness :
  getNextUnplayedMatch insertionSort scheduled = Some (LeaguePremier, 0%nat) /\
  (exists f, schedulesOf scheduled LeaguePremier !! 0%nat = Some f /\
             ssIsPlayed f = false) /\
  leagueActiveCount (matches scheduled) LeaguePremier <= MaxSimultaneousMatches /\
  leagueActiveCount (matches (createNextMatch insertionSort 0 kickoffDraws scheduled))
    LeaguePremier <= MaxSimultaneousMatches /\
  MaxSimultaneousMatches <=
    leagueActiveCount
      (matches (Nat.iter 4 (createNextMatch insertionSort 0 kickoffDraws) scheduled))
      LeaguePremier /\
  createNextMatch insertionSort 0 kickoffDraws
    (Nat.iter 4 (createNextMatch insertionSort 0 kickoffDraws) scheduled)
  = Nat.iter 4 (createNextMatch insertionSort 0 kickoffDraws) scheduled.
Proof.
  destruct (next_fixture_unplayed_and_capped insertionSort insertionSort_perm)
    as (Hunplayed & Hcap & Hfull).
  assert (H0 : getNextUnplayedMatch insertionSort scheduled = Some (LeaguePremier, 0%nat))
    by (vm_compute; reflexivity).
  assert (H1 : leagueActiveCount (matches scheduled) LeaguePremier
               <= MaxSimultaneousMatches) by (vm_compute; discriminate).
  assert (H4 : MaxSimultaneousMatches <=
               leagueActiveCount
                 (matches (Nat.iter 4 (createNextMatch insertionSort 0 kickoffDraws)
                             scheduled)) LeaguePremier) by (vm_compute; discriminate).
  split; [exact H0|].
  split; [exact (Hunplayed scheduled LeaguePremier 0%nat H0)|].
  split; [exact H1|].
  split; [exact (Hcap 0 kickoffDraws scheduled LeaguePremier H1)|].
  split; [exact H4|].
  apply (Hfull 0 kickoffDraws _ LeaguePremier 4%nat
           (mkSeasonSchedule 1 LeaguePremier 10 8 false 0 86400000000000)).
  - vm_compute. reflexivity.
  - vm_compute. reflexivity.
  - exact H4.
Defined.

(** C9 on the demo match: player 1 has the ball in front of the away goal
    and wins the draw; the goal goes to the home side and player 2, who
    touched the ball last, gets the assist. *)
Lemma handleGoalEvent_one_goal_witness :
  playersKeyed demoState /\
  matches demoState !! 1 = Some demoMatch /\
  ballPositions demoState !! 1 = Some demoBall /\
  goalScorer demoState 1 demoBall 0.5 = Some 1 /\
  goalScoredBy demoState
    (handleGoalEvent (fun _ _ _ _ s => playerLocations s) 0 0.5 1 demoState)
    1 demoMatch demoBall 1.
Proof.
  assert (Hkeyed : playersKeyed demoState).
  { intros k p H. apply elem_of_list_to_map_2 in H.
    repeat (apply elem_of_cons in H as [H|H]; [by injection H as -> ->|]).
    by apply elem_of_nil in H. }
  assert (Hscorer : goalScorer demoState 1 demoBall 0.5 = Some 1)
    by (vm_compute; reflexivity).
  split; [exact Hkeyed|]. split; [reflexivity|]. split; [reflexivity|].
  split; [exact Hscorer|].
  pose proof (handleGoalEvent_one_goal (fun _ _ _ _ s => playerLocations s) 0 0.5 1
                demoState demoMatch demoBall Hkeyed eq_refl eq_refl) as H.
  rewrite Hscorer in H. exact H.
Defined.

(** C10 on the fresh tables of the twenty teams: after team 1 is credited
    with a 2-0 home win, the Premier League table is in standings order
    with team 1 on top. *)
Lemma updateTeamStats_tables_ranked_witness :
  is_Some (teams (initializeLeagueTables 0 teamsOnly) !! 1) /\
  exists table,
    leagueTables (updateTeamStats 0 1 3 1 0 0 (withScore 2 0 demoMatch)
                    (initializeLeagueTables 0 teamsOnly)) !! LeaguePremier
      = Some table /\
    tableRanked table /\
    (fun r => (tiID (ltTeam r), ltPoints r, ltPosition r)) <$> head table = Some (1, 3, 1).
Proof.
  assert (Hteam : is_Some (teams (initializeLeagueTables 0 teamsOnly) !! 1))
    by (eexists; vm_compute; reflexivity).
  split; [exact Hteam|].
  destruct (leagueTables (updateTeamStats 0 1 3 1 0 0 (withScore 2 0 demoMatch)
                            (initializeLeagueTables 0 teamsOnly)) !! LeaguePremier)
    as [table|] eqn:E; [|vm_compute in E; discriminate].
  exists table. split; [reflexivity|].
  split.
  - exact (updateTeamStats_tables_ranked 0 1 3 1 0 0 (withScore 2 0 demoMatch)
             (initializeLeagueTables 0 teamsOnly) LeaguePremier table Hteam E).
  - vm_compute in E. injection E as <-. vm_compute. reflexivity.
Defined.

(** * Instances of the further properties *)

(** Membership in a computed list, by position. *)
Ltac elem_at_position :=
  first [ apply (list_elem_of_lookup_2 _ 0%nat); vm_compute; reflexivity
        | apply (list_elem_of_lookup_2 _ 1%nat); vm_compute; reflexivity
        | apply (list_elem_of_lookup_2 _ 2%nat); vm_compute; reflexivity
        | apply (list_elem_of_lookup_2 _ 3%nat); vm_compute; reflexivity
        | apply (list_elem_of_lookup_2 _ 4%nat); vm_compute; reflexivity ].

(** X1 on the demo match kicked off at time 0 and swept every 20 seconds
    for three minutes: through halftime and full time the minute only
    goes up. *)
Lemma match_minute_never_decreases_witness :
  clockOk 0 (kickedOffAt 0 3) /\
  nondecreasingFrom 0 (tickerSweeps 0 (20 * Second) 9).*1 /\
  nondecreasingFrom (mMinute (kickedOffAt 0 3))
    (mMinute <$> traceTicks (tickerSweeps 0 (20 * Second) 9) (kickedOffAt 0 3)).
Proof.
  assert (H1 : clockOk 0 (kickedOffAt 0 3)) by (unfold clockOk; simpl; lia).
  assert (H2 : nondecreasingFrom 0 (tickerSweeps 0 (20 * Second) 9).*1)
    by (vm_compute; repeat split; discriminate).
  split; [exact H1|]. split; [exact H2|].
  exact (match_minute_never_decreases 0 _ _ H1 H2).
Defined.

(** X2 on a league of four teams: two pairings a round, twelve fixtures,
    two on each of the matchdays 1 to 6. *)
Lemma schedule_size_for_even_leagues_witness :
  length fourTeams = (2 * 2)%nat /\ (1 <= 2)%nat /\
  (forall round, 0 <= round -> length (generateRoundMatches fourTeams round) = 2%nat) /\
  Z.of_nat (length (seasonFixtures 0 LeaguePremier fourTeams).1) = 4 * (4 - 1) /\
  (forall d, countWhere (fun f => ssMatchday f =? d) (seasonFixtures 0 LeaguePremier fourTeams).1
             = if (1 <=? d) && (d <=? 2 * (4 - 1)) then 2 else 0).
Proof.
  assert (H1 : length fourTeams = (2 * 2)%nat) by reflexivity.
  assert (H2 : (1 <= 2)%nat) by lia.
  split; [exact H1|]. split; [exact H2|].
  exact (schedule_size_for_even_leagues 0 LeaguePremier fourTeams 2 H1 H2).
Defined.

(** X3 on the opening fixture of the league of four. *)
Lemma fixtures_pair_two_teams_of_the_league_witness :
  NoDup fourTeams /\
  mkSeasonSchedule 1 LeaguePremier 1 2 false 0 86400000000000
    ∈ (seasonFixtures 0 LeaguePremier fourTeams).1 /\
  (1 : Z) ∈ fourTeams /\ (2 : Z) ∈ fourTeams /\ (1 : Z) <> 2.
Proof.
  assert (H1 : NoDup fourTeams).
  { apply (bool_decide_unpack _). vm_compute. exact I. }
  assert (H2 : mkSeasonSchedule 1 LeaguePremier 1 2 false 0 86400000000000
               ∈ (seasonFixtures 0 LeaguePremier fourTeams).1).
  { elem_at_position. }
  split; [exact H1|]. split; [exact H2|].
  destruct (fixtures_pair_two_teams_of_the_league 0 LeaguePremier fourTeams _ H1 H2)
    as (_ & _ & _ & _ & _ & Hh & Ha & Hne).
  exact (conj Hh (conj Ha Hne)).
Defined.

(** X4 on the twenty teams: matchday 7 of the Premier League has five
    fixtures; in [demoState], with two Premier League teams, nothing is
    generated. *)
Lemma every_matchday_has_five_fixtures_witness :
  LeaguePremier ∈ leagueOrder /\
  length (getTeamsByLeague teamsOnly LeaguePremier) = 10%nat /\
  length (getScheduledMatches (generateSeasonSchedule 0 LeaguePremier teamsOnly)
            LeaguePremier 7) = 5%nat /\
  length (getTeamsByLeague demoState LeaguePremier) <> 10%nat /\
  generateSeasonSchedule 0 LeaguePremier demoState = demoState.
Proof.
  assert (H0 : LeaguePremier ∈ leagueOrder) by (unfold leagueOrder; by left).
  assert (H1 : length (getTeamsByLeague teamsOnly LeaguePremier) = 10%nat)
    by (vm_compute; reflexivity).
  assert (H2 : length (getTeamsByLeague demoState LeaguePremier) <> 10%nat)
    by (vm_compute; discriminate).
  split; [exact H0|]. split; [exact H1|].
  split; [exact (proj1 (every_matchday_has_five_fixtures 0 LeaguePremier teamsOnly 7 H0) H1)|].
  split; [exact H2|].
  exact (proj2 (every_matchday_has_five_fixtures 0 LeaguePremier demoState 7 H0) H2).
Defined.

Lemma demoSeason_teams_exist : fixtureTeamsExist demoSeason.
Proof.
  intros league f Hl Hf. unfold leagueOrder in Hl.
  apply elem_of_cons in Hl as [->|Hl].
  - change (schedulesOf demoSeason LeaguePremier) with demoFixtures in Hf.
    unfold demoFixtures in Hf.
    apply elem_of_cons in Hf as [->|Hf]; [split; by eexists|].
    apply list_elem_of_singleton in Hf as ->. split; by eexists.
  - apply list_elem_of_singleton in Hl as ->.
    change (schedulesOf demoSeason LeagueCommunityLeague) with (@nil SeasonSchedule) in Hf.
    by apply elem_of_nil in Hf.
Defined.

(** X5 on the demo season, whose return fixture is still to be played:
    the season is not over and the selection returns that fixture. *)
Lemma selection_is_empty_only_when_season_is_played_witness :
  fixtureTeamsExist demoSeason /\
  shouldEndSeason demoSeason = false /\
  getNextUnplayedMatch insertionSort demoSeason = Some (LeaguePremier, 1%nat) /\
  (getNextUnplayedMatch insertionSort demoSeason = None <->
   shouldEndSeason demoSeason = true) /\
  LeaguePremier ∈ leagueOrder.
Proof.
  assert (H0 : getNextUnplayedMatch insertionSort demoSeason = Some (LeaguePremier, 1%nat))
    by (vm_compute; reflexivity).
  destruct (selection_is_empty_only_when_season_is_played insertionSort insertionSort_perm
              demoSeason demoSeason_teams_exist) as [Hiff Hleague].
  split; [exact demoSeason_teams_exist|]. split; [reflexivity|]. split; [exact H0|].
  split; [exact Hiff|]. exact (Hleague LeaguePremier 1%nat H0).
Defined.

(** X6 on the demo season: its first fixture, played as match 1, stays
    as it is through two calls of [createNextMatch] and is not selected
    again. *)
Lemma played_fixture_is_never_started_again_witness :
  schedulesOf demoSeason LeaguePremier !! 0%nat
    = Some (mkSeasonSchedule 1 LeaguePremier 1 2 true 1 0) /\
  ssIsPlayed (mkSeasonSchedule 1 LeaguePremier 1 2 true 1 0) = true /\
  schedulesOf (createMatches insertionSort [(0, kickoffDraws); (5, kickoffDraws)] demoSeason)
    LeaguePremier !! 0%nat
    = Some (mkSeasonSchedule 1 LeaguePremier 1 2 true 1 0) /\
  getNextUnplayedMatch insertionSort
    (createMatches insertionSort [(0, kickoffDraws); (5, kickoffDraws)] demoSeason)
    <> Some (LeaguePremier, 0%nat).
Proof.
  split; [reflexivity|]. split; [reflexivity|].
  exact (played_fixture_is_never_started_again insertionSort insertionSort_perm
           [(0, kickoffDraws); (5, kickoffDraws)] demoSeason LeaguePremier 0%nat _
           eq_refl eq_refl).
Defined.

(** X7 on the generated schedule of the twenty teams: the opening
    fixture of the Premier League is started as match 1. *)
Lemma createNextMatch_starts_the_selected_fixture_witness :
  getNextUnplayedMatch insertionSort scheduled = Some (LeaguePremier, 0%nat) /\
  schedulesOf scheduled LeaguePremier !! 0%nat
    = Some (mkSeasonSchedule 1 LeaguePremier 7 9 false 0 86400000000000) /\
  leagueActiveCount (matches scheduled) LeaguePremier < MaxSimultaneousMatches /\
  matchCounter (createNextMatch insertionSort 0 kickoffDraws scheduled) = 1 /\
  schedulesOf (createNextMatch insertionSort 0 kickoffDraws scheduled) LeaguePremier !! 0%nat
    = Some (mkSeasonSchedule 1 LeaguePremier 7 9 true 1 86400000000000) /\
  getNextUnplayedMatch insertionSort (createNextMatch insertionSort 0 kickoffDraws scheduled)
    <> Some (LeaguePremier, 0%nat).
Proof.
  assert (H0 : getNextUnplayedMatch insertionSort scheduled = Some (LeaguePremier, 0%nat))
    by (vm_compute; reflexivity).
  assert (H1 : schedulesOf scheduled LeaguePremier !! 0%nat
               = Some (mkSeasonSchedule 1 LeaguePremier 7 9 false 0 86400000000000))
    by (vm_compute; reflexivity).
  assert (H2 : leagueActiveCount (matches scheduled) LeaguePremier < MaxSimultaneousMatches)
    by (vm_compute; reflexivity).
  split; [exact H0|]. split; [exact H1|]. split; [exact H2|].
  destruct (createNextMatch_starts_the_selected_fixture insertionSort insertionSort_perm
              0 kickoffDraws scheduled LeaguePremier 0%nat _ H0 H1 H2)
    as (Hc & Hf & Hn & _).
  exact (conj Hc (conj Hf Hn)).
Defined.

(** X8 on [demoState]: when the break after match 1 is over, the match
    is in the archive and no longer among the running matches. *)
Lemma break_over_archives_match_and_respects_cap_witness :
  matches demoState !! 1 = Some demoMatch /\
  finishedMatches (startCooldownAndCreateNext insertionSort 0 kickoffDraws 1 demoState)
    = <[1 := demoMatch]> (finishedMatches demoState) /\
  matches (startCooldownAndCreateNext insertionSort 0 kickoffDraws 1 demoState) !! 1 = None.
Proof.
  split; [reflexivity|].
  destruct (break_over_archives_match_and_respects_cap insertionSort 0 kickoffDraws 1
              demoState demoMatch eq_refl) as (Hf & Hgone & _).
  split; [exact Hf|]. apply Hgone. vm_compute. discriminate.
Defined.

Lemma demoState_feed : feedOrdered demoState.
Proof.
  intros matchID feed H.
  change (liveCommentary demoState)
    with ({[1 := []]} : gmap Z (list LiveCommentary)) in H.
  apply lookup_singleton_Some in H as [_ <-].
  split; [simpl; lia|]. split; constructor.
Defined.

(** X9 on [demoState]: the first commentary line of match 1. *)
Lemma commentary_feed_stays_newest_first_witness :
  feedOrdered demoState /\
  feedOrdered (addLiveCommentary 7 1 10 "Corner kick!" EventCorner None demoState) /\
  liveCommentary (addLiveCommentary 7 1 10 "Corner kick!" EventCorner None demoState) !! 1
    = Some [mkLiveCommentary 1 1 10 "Corner kick!" EventCorner None 7].
Proof.
  split; [exact demoState_feed|].
  destruct (commentary_feed_stays_newest_first 7 1 10 "Corner kick!" EventCorner None
              demoState demoState_feed) as (H1 & _ & H3 & _).
  split; [exact H1 | exact H3].
Defined.

(** X10 on [demoState]: player 3 is a candidate of match 1; after the
    direct red card for player 1, player 2 is a candidate and is not
    player 1. *)
Lemma card_candidates_are_available_squad_players_witness :
  (3, demoPlayer 3 "James Wilson 3" PosCB 2) ∈ getAvailablePlayersForMatch demoState 1 /\
  players demoState !! 3 = Some (demoPlayer 3 "James Wilson 3" PosCB 2) /\
  exists s',
    handleCardEvent 5 1 true 1 demoState = Some s' /\
    (2, demoPlayer 2 "Connor Wilson 2" PosCAM 1) ∈ getAvailablePlayersForMatch s' 1 /\
    pID (demoPlayer 2 "Connor Wilson 2" PosCAM 1)
      <> pID (demoPlayer 1 "Harry Clarke 1" PosST 1).
Proof.
  destruct card_candidates_are_available_squad_players as [Hsquad Hsent].
  assert (H1 : (3, demoPlayer 3 "James Wilson 3" PosCB 2)
               ∈ getAvailablePlayersForMatch demoState 1).
  { elem_at_position. }
  split; [exact H1|].
  split.
  { destruct (Hsquad demoState 1 3 _ H1) as (m & _ & Hp & _). exact Hp. }
  destruct (handleCardEvent 5 1 true 1 demoState) as [s'|] eqn:E;
    [|vm_compute in E; discriminate].
  exists s'. split; [reflexivity|].
  assert (H2 : (2, demoPlayer 2 "Connor Wilson 2" PosCAM 1)
               ∈ getAvailablePlayersForMatch s' 1).
  { assert (E' := E). vm_compute in E'. injection E' as <-. elem_at_position. }
  split; [exact H2|].
  assert (Hpick : getAvailablePlayersForMatch demoState 1
                  !! (1 `mod` length (getAvailablePlayersForMatch demoState 1))%nat
                  = Some (1, demoPlayer 1 "Harry Clarke 1" PosST 1))
    by (vm_compute; reflexivity).
  exact (Hsent 5 1%nat 1 demoState s' demoMatch 1 (demoPlayer 1 "Harry Clarke 1" PosST 1)
           eq_refl Hpick E 2 _ H2).
Defined.

(** X11 on the home team of the demo match after a win. *)
Lemma team_form_keeps_last_five_witness :
  (length (tiForm demoHome) <= 5)%nat /\
  tiForm (updateTeamForm demoHome FormWin true) = [FormWin] /\
  tiFormPoints (updateTeamForm demoHome FormWin true) = 3 /\
  (calculateTeamStrength (updateTeamForm demoHome FormWin true) == 0.46)%Q.
Proof.
  assert (H0 : (length (tiForm demoHome) <= 5)%nat) by (simpl; lia).
  split; [exact H0|].
  destruct (team_form_keeps_last_five demoHome FormWin true H0)
    as (_ & _ & _ & _ & Hs & _).
  split; [reflexivity|]. split; [reflexivity|].
  rewrite Hs. reflexivity.
Defined.

(** X12 on [demoState], at the end of its first season. *)
Lemma season_history_keeps_last_ten_witness :
  exists s',
    endSeason 0 demoState = Some s' /\
    (length (seasonHistory demoState) <= 10)%nat /\
    (length (seasonHistory s') <= 10)%nat.
Proof.
  destruct (endSeason 0 demoState) as [s'|] eqn:E; [|vm_compute in E; discriminate].
  assert (H0 : (length (seasonHistory demoState) <= 10)%nat) by (simpl; lia).
  exists s'. split; [reflexivity|]. split; [exact H0|].
  exact (proj1 (season_history_keeps_last_ten 0 demoState s' E H0)).
Defined.

(** X13 on [demoState], which has players, and on the state with the
    teams only, which has none. *)
Lemma endSeason_fails_only_on_empty_pool_witness :
  players demoState <> ∅ /\
  (exists s', endSeason 0 demoState = Some s' /\ currentSeason s' = 2) /\
  players teamsOnly = ∅ /\ endSeason 0 teamsOnly = None.
Proof.
  assert (H0 : players demoState <> ∅).
  { intros H. apply (f_equal (fun m => m !! 1)) in H. vm_compute in H. discriminate. }
  split; [exact H0|].
  destruct (proj2 (endSeason_fails_only_on_empty_pool 0 demoState) H0)
    as (s' & Hs' & Hseason & _).
  split; [exists s'; split; [exact Hs' | exact Hseason]|].
  split; [reflexivity|].
  exact (proj2 (proj1 (endSeason_fails_only_on_empty_pool 0 teamsOnly)) eq_refl).
Defined.

(** X14 on [demoState]: nobody has scored, and the award names a stored
    player. *)
Lemma season_awards_go_to_the_leaders_witness :
  exists p,
    findTopScorer demoState = Some p /\ (exists k, players demoState !! k = Some p).
Proof.
  destruct (findTopScorer demoState) as [p|] eqn:E; [|vm_compute in E; discriminate].
  exists p. split; [reflexivity|].
  exact (proj1 (proj1 (season_awards_go_to_the_leaders demoState p) E)).
Defined.

Lemma demoState_keyed : playersKeyed demoState.
Proof.
  intros k p H. apply elem_of_list_to_map_2 in H.
  repeat (apply elem_of_cons in H as [H|H]; [by injection H as -> ->|]).
  by apply elem_of_nil in H.
Defined.

(** X15 on the demo match: the goal of player 1 is in his career total
    twice after the season reset. *)
Lemma goal_counts_twice_in_career_total_witness :
  playersKeyed demoState /\
  goalScorer demoState 1 demoBall 0.5 = Some 1 /\
  exists s',
    endSeason 9 (handleGoalEvent (fun _ _ _ _ s => playerLocations s) 0 0.5 1 demoState)
      = Some s' /\
    pGoals <$> players s' !! 1 = Some 2.
Proof.
  assert (Hscorer : goalScorer demoState 1 demoBall 0.5 = Some 1)
    by (vm_compute; reflexivity).
  split; [exact demoState_keyed|]. split; [exact Hscorer|].
  destruct (endSeason 9 (handleGoalEvent (fun _ _ _ _ s => playerLocations s) 0 0.5 1
                           demoState)) as [s'|] eqn:E;
    [|vm_compute in E; discriminate].
  exists s'. split; [reflexivity|].
  destruct (goal_counts_twice_in_career_total (fun _ _ _ _ s => playerLocations s)
              0 9 0.5 1 demoState s' demoMatch demoBall 1
              (demoPlayer 1 "Harry Clarke 1" PosST 1)
              demoState_keyed eq_refl eq_refl Hscorer eq_refl E) as (_ & H & _).
  exact H.
Defined.

Lemma no_tables_consistent : tablesConsistent teamsOnly.
Proof.
  intros league table H.
  change (leagueTables teamsOnly) with (∅ : gmap string (list LeagueTable)) in H.
  rewrite lookup_empty in H. discriminate.
Defined.

(** X16 on the twenty teams: the fresh tables add up, and so do the
    tables after a 2-0 home win is entered. *)
Lemma standings_rows_add_up_witness :
  tablesConsistent teamsOnly /\
  tablesConsistent (initializeLeagueTables 0 teamsOnly) /\
  tablesConsistent
    (recordResult 0 (withScore 2 0 demoMatch) (initializeLeagueTables 0 teamsOnly)).
Proof.
  split; [exact no_tables_consistent|].
  pose proof (proj1 (standings_rows_add_up (fun _ _ _ _ s => playerLocations s) 0
                       teamsOnly no_tables_consistent)) as H1.
  split; [exact H1|].
  exact (proj2 (proj2 (standings_rows_add_up (fun _ _ _ _ s => playerLocations s) 0
                         (initializeLeagueTables 0 teamsOnly) H1))
           (withScore 2 0 demoMatch)).
Defined.

Lemma twenty_teams_keyed : teamsKeyed (initializeLeagueTables 0 teamsOnly).
Proof.
  intros k t H. apply elem_of_list_to_map_2 in H.
  apply list_elem_of_fmap in H as (t0 & [= -> ->] & _). reflexivity.
Defined.

(** X17 on the fresh tables of the twenty teams: three points for
    team 1 add three points to the Premier League table and none to the
    Community League table. *)
Lemma result_adds_points_to_one_row_witness :
  teamsKeyed (initializeLeagueTables 0 teamsOnly) /\
  (exists table',
     leagueTables (updateTeamStats 0 1 3 1 0 0 (withScore 2 0 demoMatch)
                     (initializeLeagueTables 0 teamsOnly)) !! LeaguePremier = Some table' /\
     totalPoints table' = 3) /\
  (exists table',
     leagueTables (updateTeamStats 0 1 3 1 0 0 (withScore 2 0 demoMatch)
                     (initializeLeagueTables 0 teamsOnly)) !! LeagueCommunityLeague
       = Some table' /\
     totalPoints table' = 0).
Proof.
  split; [exact twenty_teams_keyed|].
  split.
  - destruct (result_adds_points_to_one_row 0 1 3 1 0 0 (withScore 2 0 demoMatch)
                (initializeLeagueTables 0 teamsOnly) LeaguePremier
                (freshTable 0 teamsOnly LeaguePremier)
                (mkTeamInfo 1 "Capricon FC" "CAP" "Stellar Stadium" LeaguePremier [] 0)
                twenty_teams_keyed)
      as (table' & H1 & _ & _ & H2); [vm_compute; reflexivity | vm_compute; reflexivity|].
    exists table'. split; [exact H1|]. rewrite H2. vm_compute. reflexivity.
  - destruct (result_adds_points_to_one_row 0 1 3 1 0 0 (withScore 2 0 demoMatch)
                (initializeLeagueTables 0 teamsOnly) LeagueCommunityLeague
                (freshTable 0 teamsOnly LeagueCommunityLeague)
                (mkTeamInfo 1 "Capricon FC" "CAP" "Stellar Stadium" LeaguePremier [] 0)
                twenty_teams_keyed)
      as (table' & H1 & _ & _ & H2); [vm_compute; reflexivity | vm_compute; reflexivity|].
    exists table'. split; [exact H1|]. rewrite H2. vm_compute. reflexivity.
Defined.

(** X18 on the crowded demo state: the ball at (90, 32) is in the half
    the home side attacks, and the home striker two metres away is
    picked before the playmaker ten metres away. *)
Lemma nearest_attacker_is_the_nearest_witness :
  matches (crowdedState (looseBallAt 90 32)) !! 1 = Some demoMatch /\
  playerLocations (crowdedState (looseBallAt 90 32)) !! 1 = Some demoLocations /\
  findNearestAttackingPlayer (crowdedState (looseBallAt 90 32)) 1 (looseBallAt 90 32)
    = Some 1 /\
  exists location,
    attackerAt (crowdedState (looseBallAt 90 32)) demoLocations
      (attackingTeamOf demoMatch (looseBallAt 90 32)) 1 location /\
    (distance2 (looseBallAt 90 32) location < sq 15)%Q.
Proof.
  assert (H0 : findNearestAttackingPlayer (crowdedState (looseBallAt 90 32)) 1
                 (looseBallAt 90 32) = Some 1) by (vm_compute; reflexivity).
  split; [reflexivity|]. split; [reflexivity|]. split; [exact H0|].
  destruct (proj1 (nearest_attacker_is_the_nearest (crowdedState (looseBallAt 90 32)) 1
                     (looseBallAt 90 32) demoMatch demoLocations eq_refl eq_refl) 1 H0)
    as (location & Hat & Hnear & _).
  exists location. split; [exact Hat | exact Hnear].
Defined.

(** X20 on [demoState]: match 1 is closed at time 9 and the home striker
    is rated. *)
Lemma full_time_rates_both_squads_witness :
  matches demoState !! 1 = Some demoMatch /\
  tiID (mHomeTeam demoMatch) <> tiID (mAwayTeam demoMatch) /\
  (exists m',
     matches (finishMatch 9 (fun _ => 0.5%Q) (fun _ => 0.5%Q) 1 demoState) !! 1 = Some m' /\
     mStatus m' = StatusFinished /\ mEndTime m' = Some 9) /\
  (exists p',
     players (finishMatch 9 (fun _ => 0.5%Q) (fun _ => 0.5%Q) 1 demoState) !! 1 = Some p' /\
     ratedFrom (demoPlayer 1 "Harry Clarke 1" PosST 1) p').
Proof.
  assert (H0 : tiID (mHomeTeam demoMatch) <> tiID (mAwayTeam demoMatch))
    by (vm_compute; discriminate).
  split; [reflexivity|]. split; [exact H0|].
  destruct (full_time_rates_both_squads 9 (fun _ => 0.5%Q) (fun _ => 0.5%Q) 1 demoState
              demoMatch eq_refl H0) as [(m' & Hm' & Hst & Hend & _) Hplayers].
  split; [exists m'; split; [exact Hm' | split; [exact Hst | exact Hend]]|].
  apply (Hplayers 1 (demoPlayer 1 "Harry Clarke 1" PosST 1)); [reflexivity|].
  left. reflexivity.
Defined.

(** X21 on the crowded demo state: a foul at the ball at (90, 32). *)
Lemma every_foul_is_carded_witness :
  matches (crowdedState (looseBallAt 90 32)) !! 1 = Some demoMatch /\
  exists s',
    handleFoulEvent (fun _ _ _ _ s => playerLocations s) 7 0 calmDraws 1
      (crowdedState (looseBallAt 90 32)) = Some s' /\
    exists ball',
      ballPositions s' !! 1 = Some ball' /\ bPossessorID ball' = 0 /\
      (bEventType ball' = BallEventFreekick \/ bEventType ball' = BallEventPenalty).
Proof.
  split; [reflexivity|].
  pose (s' := default demoState
                (handleFoulEvent (fun _ _ _ _ s => playerLocations s) 7 0 calmDraws 1
                   (crowdedState (looseBallAt 90 32)))).
  assert (E : handleFoulEvent (fun _ _ _ _ s => playerLocations s) 7 0 calmDraws 1
                (crowdedState (looseBallAt 90 32)) = Some s') by (vm_compute; reflexivity).
  exists s'. split; [exact E|].
  destruct (every_foul_is_carded (fun _ _ _ _ s => playerLocations s) 7 0 calmDraws 1
              (crowdedState (looseBallAt 90 32)) s' demoMatch eq_refl E)
    as [Hsame | (fouler & p & ball & locations & location & _ & _ & _ & _ & _ & _ & _ & _ & H)].
  - exfalso. apply (f_equal commentaryCounter) in Hsame. vm_compute in Hsame. discriminate.
  - exact H.
Defined.

(** X22 on the crowded demo state: the foul at (90, 32), inside the
    right penalty area, is a penalty taken from x = 11. *)
Lemma penalty_spot_is_at_the_far_end_witness :
  matches (crowdedState (looseBallAt 90 32)) !! 1 = Some demoMatch /\
  ballPositions (crowdedState (looseBallAt 90 32)) !! 1 = Some (looseBallAt 90 32) /\
  bEventType (looseBallAt 90 32) <> BallEventPenalty /\
  exists s' ball',
    handleFoulEvent (fun _ _ _ _ s => playerLocations s) 7 0 calmDraws 1
      (crowdedState (looseBallAt 90 32)) = Some s' /\
    ballPositions s' !! 1 = Some ball' /\
    bEventType ball' = BallEventPenalty /\
    (bY ball' == 32)%Q /\ (bX ball' == 11)%Q.
Proof.
  assert (H0 : bEventType (looseBallAt 90 32) <> BallEventPenalty) by discriminate.
  split; [reflexivity|]. split; [reflexivity|]. split; [exact H0|].
  pose (s' := default demoState
                (handleFoulEvent (fun _ _ _ _ s => playerLocations s) 7 0 calmDraws 1
                   (crowdedState (looseBallAt 90 32)))).
  pose (ball' := default (looseBallAt 90 32) (ballPositions s' !! 1)).
  assert (E : handleFoulEvent (fun _ _ _ _ s => playerLocations s) 7 0 calmDraws 1
                (crowdedState (looseBallAt 90 32)) = Some s') by (vm_compute; reflexivity).
  assert (Eb : ballPositions s' !! 1 = Some ball') by (vm_compute; reflexivity).
  assert (Ep : bEventType ball' = BallEventPenalty) by (vm_compute; reflexivity).
  exists s', ball'. split; [exact E|]. split; [exact Eb|]. split; [exact Ep|].
  destruct (penalty_spot_is_at_the_far_end (fun _ _ _ _ s => playerLocations s) 7 0
              calmDraws 1 (crowdedState (looseBallAt 90 32)) s' demoMatch
              (looseBallAt 90 32) ball' eq_refl eq_refl H0 E Eb Ep)
    as (_ & Hy & [[Hleft _] | [_ Hx]]).
  - exfalso. revert Hleft. vm_compute. intros H. apply H. reflexivity.
  - split; [exact Hy | exact Hx].
Defined.

(** X23 on the crowded demo state: the ball at (100, 3), on the right
    goal line near the corner flag, is a corner at x = 99. *)
Lemma out_of_bounds_restarts_witness :
  matches (crowdedState (looseBallAt 100 3)) !! 1 = Some demoMatch /\
  ballPositions (crowdedState (looseBallAt 100 3)) !! 1 = Some (looseBallAt 100 3) /\
  onPitch (looseBallAt 100 3) /\
  bEventType (looseBallAt 100 3) = BallEventPlay /\
  exists ball',
    ballPositions (checkBallOutOfBounds (fun _ _ _ _ s => playerLocations s) 7 1
                     (crowdedState (looseBallAt 100 3))) !! 1 = Some ball' /\
    bEventType ball' = BallEventCorner /\ (bX ball' == 99)%Q.
Proof.
  assert (H0 : onPitch (looseBallAt 100 3)).
  { unfold onPitch. repeat split; vm_compute; discriminate. }
  split; [reflexivity|]. split; [reflexivity|]. split; [exact H0|]. split; [reflexivity|].
  destruct (out_of_bounds_restarts (fun _ _ _ _ s => playerLocations s) 7 1
              (crowdedState (looseBallAt 100 3)) demoMatch (looseBallAt 100 3)
              eq_refl eq_refl H0 eq_refl) as (ball' & Hb & Hcase).
  assert (Hc : bEventType ball' = BallEventCorner).
  { assert (Hb' := Hb). vm_compute in Hb'. injection Hb' as <-. reflexivity. }
  exists ball'. split; [exact Hb|]. split; [exact Hc|].
  rewrite Hc in Hcase. destruct Hcase as (_ & _ & _ & Hx & _). exact Hx.
Defined.

(** X24: in [demoState] the kickoff is left alone after one second; with
    a central midfielder in the home squad the ball is in play after
    four seconds. *)
Lemma kickoff_goes_to_a_home_midfielder_witness :
  matches demoState !! 1 = Some demoMatch /\
  ballPositions demoState !! 1 = Some demoBall /\
  handleKickoffBallEvent Second 1 demoState = demoState /\
  exists ball',
    ballPositions (handleKickoffBallEvent (4 * Second) 1 kickoffState) !! 1 = Some ball' /\
    bEventType ball' = BallEventPlay /\ bX ball' = bX demoBall /\ bY ball' = bY demoBall.
Proof.
  split; [reflexivity|]. split; [reflexivity|].
  split.
  - apply (proj1 (kickoff_goes_to_a_home_midfielder Second 1 demoState demoMatch demoBall
                    eq_refl eq_refl)).
    vm_compute. discriminate.
  - apply (proj2 (proj2 (kickoff_goes_to_a_home_midfielder (4 * Second) 1 kickoffState
                           demoMatch demoBall eq_refl eq_refl))).
    + exists 5, (demoPlayer 5 "Jack Taylor 5" PosCM 1).
      split; [reflexivity|]. split; reflexivity.
    + vm_compute. reflexivity.
Defined.

(** X25 on the twenty teams: after both schedules are generated each
    league has 90 fixtures, the season is not over and a fixture can be
    selected. *)
Lemma generated_schedules_are_ready_to_play_witness :
  LeaguePremier ∈ leagueOrder /\ LeagueCommunityLeague ∈ leagueOrder /\
  LeaguePremier <> LeagueCommunityLeague /\
  length (getTeamsByLeague teamsOnly LeaguePremier) = 10%nat /\
  length (getTeamsByLeague teamsOnly LeagueCommunityLeague) = 10%nat /\
  length (schedulesOf scheduled LeaguePremier) = 90%nat /\
  fixtureTeamsExist scheduled /\
  shouldEndSeason scheduled = false /\
  getNextUnplayedMatch insertionSort scheduled <> None.
Proof.
  assert (H1 : LeaguePremier ∈ leagueOrder) by (unfold leagueOrder; by left).
  assert (H2 : LeagueCommunityLeague ∈ leagueOrder)
    by (unfold leagueOrder; right; by left).
  assert (H3 : LeaguePremier <> LeagueCommunityLeague) by discriminate.
  assert (H4 : length (getTeamsByLeague teamsOnly LeaguePremier) = 10%nat)
    by (vm_compute; reflexivity).
  assert (H5 : length (getTeamsByLeague teamsOnly LeagueCommunityLeague) = 10%nat)
    by (vm_compute; reflexivity).
  destruct (generated_schedules_are_ready_to_play insertionSort insertionSort_perm 0
              LeaguePremier LeagueCommunityLeague teamsOnly H1 H2 H3 H4 H5)
    as (_ & Hlen & Hteams & Hend & Hnext).
  split; [exact H1|]. split; [exact H2|]. split; [exact H3|]. split; [exact H4|].
  split; [exact H5|]. split; [exact (Hlen LeaguePremier H1)|].
  split; [exact Hteams|]. split; [exact Hend | exact Hnext].
Defined.

(** X26: a corner for a match without statistics fails; a card in a
    state without players changes nothing. *)
Lemma handlers_fail_only_without_statistics_witness :
  is_Some (matches (set_matchStats ∅ demoState) !! 1) /\
  matchStats (set_matchStats ∅ demoState) !! 1 = None /\
  handleCornerEvent 7 true 1 (set_matchStats ∅ demoState) = None /\
  getAvailablePlayersForMatch teamsOnly 1 = [] /\
  handleCardEvent 7 0 true 1 teamsOnly = Some teamsOnly.
Proof.
  assert (H1 : is_Some (matches (set_matchStats ∅ demoState) !! 1)) by (by eexists).
  assert (H2 : matchStats (set_matchStats ∅ demoState) !! 1 = None) by reflexivity.
  assert (H3 : getAvailablePlayersForMatch teamsOnly 1 = []) by reflexivity.
  split; [exact H1|]. split; [exact H2|].
  split.
  - exact (proj2 (proj1 (handlers_fail_only_without_statistics 7 1
                           (set_matchStats ∅ demoState)) true) (conj H1 H2)).
  - split; [exact H3|].
    exact (proj2 (proj2 (handlers_fail_only_without_statistics 7 1 teamsOnly)) 0%nat true H3).
Defined.


